(** * piqrypt-session: multi-agent co-signed sessions

  A shallow embedding of [piqrypt_session/__init__.py]: the digest helper
  [_h], the class [AgentMember] (one participant and its hash-chained event
  log) and the class [AgentSession] (registry, pairwise handshakes, stamping,
  end, summary and export).

  Conventions of the embedding.
  - A Python [dict] is an insertion-ordered association list with unique
    keys ([PyDict]); assigning to an existing key keeps its position.
  - Dict literals with a fixed set of keys (handshake result, summary,
    export document) are records.
  - Methods that mutate [self] run in a state-and-exception monad [M]; an
    exception leaves the state as it was when raised (Python does not roll
    back).
  - A Python variable bound to an [AgentMember] is a reference to the object
    the registry holds under its name; the model keeps the name as the
    reference and reads or writes the registry entry at each use.
  - The [piqrypt] package, [hashlib], [uuid], [time], [json], [pathlib] and
    the builtin [str] are collaborators of the program, gathered in the
    class [Collaborators]; calls that read a clock, a random source or a
    nonce take the index of the call as their first argument.
  - Loading an identity, serialising the export document and opening the
    output file may raise: these calls return a result or an exception.
    The signing, hashing and handshake calls are total: what the program
    does when one of them raises half-way through a method is outside this
    development, and the theorems on [start], [stamp] and [end] are about
    calls in which they return.  The directory layout does not change
    while the session runs.  Console output ([print]) is not modelled.
  - A Python float is a rational; [int] truncates it towards zero.
  - The [events] accessor is the one place where the identity of list and
    event objects matters to a caller; [Aliasing] models it on a heap. *)

From Stdlib Require Import List String Ascii ZArith QArith_base Bool Arith Lia.
Import ListNotations.
Local Close Scope Q_scope.
Local Open Scope string_scope.
Local Open Scope list_scope.

Set Implicit Arguments.
Set Warnings "-register-all".

(** ** Python values and dictionaries *)

Module PyDict.
Section Dict.
Variable V : Type.

Definition t := list (string * V).

Definition empty : t := [].

(** [d.get(k)] *)
Fixpoint get (k : string) (d : t) : option V :=
  match d with
  | [] => None
  | (k', v) :: r => if String.eqb k' k then Some v else get k r
  end.

(** [k in d] *)
Definition mem (k : string) (d : t) : bool :=
  match get k d with Some _ => true | None => false end.

(** [d[k] = v] *)
Fixpoint set (k : string) (v : V) (d : t) : t :=
  match d with
  | [] => [(k, v)]
  | (k', v') :: r =>
      if String.eqb k' k then (k', v) :: r else (k', v') :: set k v r
  end.

(** [list(d.keys())], [list(d.values())], [d.items()] *)
Definition keys (d : t) : list string := map fst d.
Definition values (d : t) : list V := map snd d.
Definition items (d : t) : list (string * V) := d.
End Dict.
Arguments empty {V}.
End PyDict.

(** JSON-like Python values carried by payloads. *)
Inductive Value : Type :=
| VNone
| VBool (b : bool)
| VInt (z : Z)
| VFloat (q : Q)
| VStr (s : string)
| VList (l : list Value)
| VDict (d : list (string * Value)).

Definition Payload := PyDict.t Value.

(** [s.endswith(suffix)] *)
Fixpoint endswith (s suffix : string) : bool :=
String.eqb s suffix
|| match s with
   | EmptyString => false
   | String _ s' => endswith s' suffix
   end.

(** Truth value of an [Optional[str]]: [None] and [""] are false. *)
Definition truthy (o : option string) : bool :=
match o with
| Some s => negb (String.eqb s "")
| None => false
end.

(** [o or default] on an [Optional[str]]. *)
Definition or_else (o : option string) (default : string) : string :=
match o with
| Some s => if String.eqb s "" then default else s
| None => default
end.

(** The string held by an [Optional[str]] known to be true. *)
Definition the_str (o : option string) : string :=
match o with
| Some s => s
| None => ""
end.

(** [int(x)] on a float: truncation towards zero. *)
Definition int_of_float (q : Q) : Z := Z.quot (Qnum q) (Zpos (Qden q)).

(** ** Exceptions *)

(** The exception classes the program meets.  [OSError] stands for its
  subclasses too; [LibraryError] is an exception class of an imported
  package. *)
Inductive Exn : Type :=
| ValueError
| RuntimeError
| KeyError
| IndexError
| TypeError
| OSError
| LibraryError.

(** The outcome of a call: a result or a raised exception. *)
Inductive Res (A : Type) : Type :=
| Ok (a : A)
| Raise (e : Exn).
Arguments Raise {A} e.

Definition is_ok {A} (r : Res A) : bool :=
match r with Ok _ => true | Raise _ => false end.

(** ** Events and identities *)

(** A signed event as returned by [aiss.stamp_event] and
  [build_cosigned_handshake_event]: the program reads [event["payload"]]
  and [event.get("signature")] and passes [previous_hash] in; [ev_rest]
  holds whatever else the library puts in the event. *)
Record Event : Type := mkEvent {
ev_agent_id : string;
ev_payload : Payload;
ev_previous_hash : string;
ev_signature : string;
ev_rest : Payload
}.

Definition set_ev_payload (e : Event) (p : Payload) : Event :=
mkEvent (ev_agent_id e) p (ev_previous_hash e) (ev_signature e) (ev_rest e).

(** The dict returned by [aiss.load_identity]; key material is kept as
  strings. *)
Definition Identity : Type := PyDict.t string.

(** ** Data of the two classes *)

Record AgentMember : Type := mkAgentMember {
name : string;
private_key : string;
public_key : string;
agent_id : string;
previous_hash : option string;
_events : list Event
}.

(** The dict returned by [_handshake_pair]. *)
Record HandshakeResult : Type := mkHandshakeResult {
hs_agent_a : string;
hs_agent_b : string;
hs_agent_a_id : string;
hs_agent_b_id : string;
hs_session_id : string;
hs_event_a_hash : string;
hs_event_b_hash : string;
hs_timestamp : Z
}.

Record AgentSession : Type := mkAgentSession {
session_id : string;
started_at : option Z;
started : bool;
_agents : PyDict.t AgentMember;
_handshakes : list HandshakeResult
}.

(** One entry of [summary()["agents"]]. *)
Record AgentSummary : Type := mkAgentSummary {
as_agent_id : string;
as_event_count : nat;
as_last_hash : option string
}.

(** The dict returned by [summary()]. *)
Record Summary : Type := mkSummary {
sum_session_id : string;
sum_started_at : option Z;
sum_agents : PyDict.t AgentSummary;
sum_handshakes : list HandshakeResult;
sum_handshake_count : nat;
sum_total_events : nat
}.

(** One entry of [export_data["agents"]]. *)
Record AgentExport : Type := mkAgentExport {
ex_agent_id : string;
ex_event_count : nat;
ex_events : list Event
}.

(** [export_data]: the document that [export] serialises. *)
Record ExportData : Type := mkExportData {
ex_session : Summary;
ex_agents : PyDict.t AgentExport
}.

(** One entry of the [agents] argument of [AgentSession(...)]: a dict. *)
Definition AgentDef : Type := PyDict.t string.

(** [{"name": name, "identity_file": identity_file}] *)
Definition mkAgentDef (name identity_file : string) : AgentDef :=
[("name", name); ("identity_file", identity_file)].

(** ** Collaborators *)

Class Collaborators : Type := {
(** [hashlib.sha256(s.encode("utf-8")).hexdigest()] *)
sha256_hexdigest : string -> string;
(** the builtin [str] on values that are not already strings *)
str_builtin : Value -> string;
(** [uuid.uuid4().hex] *)
uuid4_hex : nat -> string;
(** [time.time()] *)
time_time : nat -> Q;
(** [aiss.load_identity(identity_file)]: the identity, or the exception the
    library raises *)
load_identity : string -> Res Identity;
(** [aiss.stamp_event(private_key, agent_id, payload=, previous_hash=)] *)
stamp_event : nat -> string -> string -> Payload -> string -> Event;
(** [aiss.compute_event_hash(event)] *)
compute_event_hash : Event -> string;
(** [create_identity_proposal(private_key, public_key, agent_id,
    capabilities=, metadata=)] *)
create_identity_proposal :
  nat -> string -> string -> string -> list string -> Payload -> Value;
(** [create_identity_response(private_key, public_key, agent_id, proposal,
    capabilities=)] *)
create_identity_response :
  nat -> string -> string -> string -> Value -> list string -> Value;
(** [build_cosigned_handshake_event(private_key, agent_id, proposal,
    response, previous_hash=)] *)
build_cosigned_handshake_event :
  nat -> string -> string -> Value -> Value -> string -> Event;
(** [json.dumps(export_data, indent=2)]: the text, or the exception raised
    for a document that cannot be serialised *)
json_dumps : ExportData -> Res string;
(** The file that [Path(output_path).write_text] opens for writing, or the
    exception raised when it cannot (an empty path, a missing directory, a
    directory, a refused permission).  Two paths that name one file give
    the same file. *)
open_for_writing : string -> Res string
}.

(** ** The world outside the session object *)

Record Env : Type := mkEnv {
(** number of clock, random and signing calls made so far *)
tick : nat;
(** events persisted with [aiss.store_event], oldest first *)
stored : list Event;
(** the text of the files written, by file *)
files : PyDict.t string
}.

Record State : Type := mkState {
self : AgentSession;
env : Env
}.

(** ** State and exception monad *)

Definition M (A : Type) : Type := State -> Res A * State.

Definition ret {A} (a : A) : M A := fun st => (Ok a, st).

Definition raise {A} (e : Exn) : M A := fun st => (Raise e, st).

Definition bind {A B} (m : M A) (k : A -> M B) : M B :=
fun st =>
  match m st with
  | (Ok a, st') => k a st'
  | (Raise e, st') => (Raise e, st')
  end.

Notation "x <- m ;; k" := (bind m (fun x => k))
(at level 61, m at next level, right associativity).
Notation "m ;; k" := (bind m (fun _ => k))
(at level 61, right associativity).

Definition get_self : M AgentSession := fun st => (Ok (self st), st).

Definition put_self (s : AgentSession) : M unit :=
fun st => (Ok tt, mkState s (env st)).

Definition get_env : M Env := fun st => (Ok (env st), st).

Definition put_env (w : Env) : M unit :=
fun st => (Ok tt, mkState (self st) w).

(** A call that returns or raises without touching the state. *)
Definition lift {A} (r : Res A) : M A := fun st => (r, st).

(** [d[k]]: [KeyError] when [k] is not a key of [d]. *)
Definition subscript {V} (d : PyDict.t V) (k : string) : Res V :=
match PyDict.get k d with
| Some v => Ok v
| None => Raise KeyError
end.

(** [for x in l: body(x)] *)
Fixpoint for_ {A} (l : list A) (body : A -> M unit) : M unit :=
match l with
| [] => ret tt
| x :: r => body x ;; for_ r body
end.

(** ** The program *)

Section Program.
Context {C : Collaborators}.

(** *** Helpers *)

(** [str(value)] *)
Definition str (value : Value) : string :=
  match value with
  | VStr s => s
  | other => str_builtin other
  end.

(** [_h(value)]: SHA-256 of [str(value)]. *)
Definition _h (value : Value) : string := sha256_hexdigest (str value).

(** One reading of [time.time()]. *)
Definition time_now : M Q :=
  fun st =>
    let w := env st in
    (Ok (time_time (tick w)),
     mkState (self st) (mkEnv (S (tick w)) (stored w) (files w))).

(** The index handed to a signing or nonce-drawing collaborator call. *)
Definition fresh : M nat :=
  fun st =>
    let w := env st in
    (Ok (tick w), mkState (self st) (mkEnv (S (tick w)) (stored w) (files w))).

(** [aiss.store_event(event)] *)
Definition store_event (event : Event) (w : Env) : Env :=
  mkEnv (tick w) (stored w ++ [event]) (files w).

(** *** AgentMember *)

(** [AgentMember(name, identity_file)] *)
Definition AgentMember_init (name identity_file : string)
    : Res AgentMember :=
  match load_identity identity_file with
  | Raise e => Raise e
  | Ok identity =>
      match subscript identity "private_key_bytes" with
      | Raise e => Raise e
      | Ok private_key =>
          match subscript identity "public_key_bytes" with
          | Raise e => Raise e
          | Ok public_key =>
              match subscript identity "agent_id" with
              | Raise e => Raise e
              | Ok agent_id =>
                  Ok (mkAgentMember name private_key public_key agent_id
                        None [])
              end
          end
      end
  end.

(** The [full_payload] built by [AgentMember.stamp]. *)
Definition full_payload_of (event_type : string) (payload : Payload)
    (session_id : string) (peer_id peer_signature : option string)
    : Payload :=
  let full_payload :=
    PyDict.set "aiss_profile" (VStr "AISS-1")
      (PyDict.set "session_id" (VStr session_id)
         (PyDict.set "event_type" (VStr event_type) payload)) in
  let full_payload :=
    if truthy peer_id
    then PyDict.set "peer_agent_id" (VStr (the_str peer_id)) full_payload
    else full_payload in
  if truthy peer_signature
  then PyDict.set "peer_signature" (VStr (the_str peer_signature))
         full_payload
  else full_payload.

(** [AgentMember.stamp]: returns the signed event, the member after the
    call and the world after the call. *)
Definition AgentMember_stamp (this : AgentMember)
    (event_type : string) (payload : Payload) (session_id : string)
    (peer_id peer_signature : option string) (w : Env)
    : Event * AgentMember * Env :=
  let full_payload :=
    full_payload_of event_type payload session_id peer_id peer_signature in
  let event :=
    stamp_event (tick w) (private_key this) (agent_id this) full_payload
      (or_else (previous_hash this) "genesis") in
  let w := store_event event (mkEnv (S (tick w)) (stored w) (files w)) in
  (event,
   mkAgentMember (name this) (private_key this) (public_key this)
     (agent_id this) (Some (compute_event_hash event))
     (_events this ++ [event]),
   w).

(** The [events] property: [self._events.copy()]. *)
Definition events (this : AgentMember) : list Event := _events this.

(** *** References into the registry *)

Definition set_agents (s : AgentSession) (d : PyDict.t AgentMember)
    : AgentSession :=
  mkAgentSession (session_id s) (started_at s) (started s) d (_handshakes s).

(** Read the object a member reference points to. *)
Definition deref (ref : string) : M AgentMember :=
  fun st =>
    match PyDict.get ref (_agents (self st)) with
    | Some a => (Ok a, st)
    | None => (Raise KeyError, st)
    end.

(** Write the object a member reference points to. *)
Definition assign (ref : string) (a : AgentMember) : M unit :=
  fun st =>
    (Ok tt,
     mkState (set_agents (self st) (PyDict.set ref a (_agents (self st))))
       (env st)).

(** Call a method of the referenced member. *)
Definition call_member {A} (ref : string)
    (method : AgentMember -> Env -> A * AgentMember * Env) : M A :=
  a <- deref ref ;;
  w <- get_env ;;
  let '(r, a', w') := method a w in
  put_env w' ;;
  assign ref a' ;;
  ret r.

(** *** AgentSession *)

(** The registry loop of [AgentSession.__init__], entered with the
    registry [reg]: the registry after the loop, or the exception that
    ends it. *)
Fixpoint register (agents : list AgentDef) (reg : PyDict.t AgentMember)
    : Res (PyDict.t AgentMember) :=
  match agents with
  | [] => Ok reg
  | agent_def :: rest =>
      match subscript agent_def "name" with
      | Raise e => Raise e
      | Ok name =>
          match subscript agent_def "identity_file" with
          | Raise e => Raise e
          | Ok identity_file =>
              match AgentMember_init name identity_file with
              | Raise e => Raise e
              | Ok member => register rest (PyDict.set name member reg)
              end
          end
      end
  end.

(** [AgentSession(agents)] *)
Definition AgentSession_init (agents : list AgentDef) (w : Env)
    : Res AgentSession * Env :=
  if (List.length agents <? 2)%nat then (Raise ValueError, w)
  else
    let session_id := ("sess_" ++ substring 0 16 (uuid4_hex (tick w)))%string in
    let w := mkEnv (S (tick w)) (stored w) (files w) in
    match register agents PyDict.empty with
    | Raise e => (Raise e, w)
    | Ok registry =>
        (Ok (mkAgentSession session_id None false registry []), w)
    end.

Definition _require_started : M unit :=
  s <- get_self ;;
  if negb (started s) then raise RuntimeError else ret tt.

Definition _get_agent (name : string) : M AgentMember :=
  s <- get_self ;;
  if negb (PyDict.mem name (_agents s)) then raise KeyError
  else deref name.

Definition capabilities : list string := ["stamp"; "verify"; "a2a"; "session"].

(** [_handshake_pair(agent_a, agent_b)] *)
Definition _handshake_pair (agent_a agent_b : string) : M HandshakeResult :=
  s <- get_self ;;
  a <- deref agent_a ;;
  b <- deref agent_b ;;
  (* Step 1 *)
  n1 <- fresh ;;
  let proposal :=
    create_identity_proposal n1 (private_key a) (public_key a) (agent_id a)
      capabilities
      [("session_id", VStr (session_id s)); ("name", VStr (name a))] in
  (* Step 2 *)
  n2 <- fresh ;;
  let response :=
    create_identity_response n2 (private_key b) (public_key b) (agent_id b)
      proposal capabilities in
  (* Step 3 *)
  n3 <- fresh ;;
  a <- deref agent_a ;;
  let event_a :=
    build_cosigned_handshake_event n3 (private_key a) (agent_id a)
      proposal response (or_else (previous_hash a) "genesis") in
  let event_a :=
    set_ev_payload event_a
      (PyDict.set "peer_name" (VStr (name b))
         (PyDict.set "session_id" (VStr (session_id s))
            (ev_payload event_a))) in
  w <- get_env ;;
  put_env (store_event event_a w) ;;
  assign agent_a
    (mkAgentMember (name a) (private_key a) (public_key a) (agent_id a)
       (Some (compute_event_hash event_a)) (_events a ++ [event_a])) ;;
  (* Step 4 *)
  n4 <- fresh ;;
  b <- deref agent_b ;;
  let event_b :=
    build_cosigned_handshake_event n4 (private_key b) (agent_id b)
      proposal response (or_else (previous_hash b) "genesis") in
  let event_b :=
    set_ev_payload event_b
      (PyDict.set "peer_name" (VStr (name a))
         (PyDict.set "session_id" (VStr (session_id s))
            (ev_payload event_b))) in
  w <- get_env ;;
  put_env (store_event event_b w) ;;
  assign agent_b
    (mkAgentMember (name b) (private_key b) (public_key b) (agent_id b)
       (Some (compute_event_hash event_b)) (_events b ++ [event_b])) ;;
  t <- time_now ;;
  ret (mkHandshakeResult (name a) (name b) (agent_id a) (agent_id b)
         (session_id s) (compute_event_hash event_a)
         (compute_event_hash event_b) (int_of_float t)).

(** [agent_list[i]] *)
Definition item (agent_list : list string) (i : nat) : M string :=
  match nth_error agent_list i with
  | Some r => ret r
  | None => raise IndexError
  end.

Definition append_handshake (h : HandshakeResult) : M unit :=
  s <- get_self ;;
  put_self (mkAgentSession (session_id s) (started_at s) (started s)
              (_agents s) (_handshakes s ++ [h])).

(** The payload of the [session_start] event. *)
Definition session_start_payload (s : AgentSession) : Payload :=
  [("session_id", VStr (session_id s));
   ("participants",
     VList (map (fun a => VStr (agent_id a)) (PyDict.values (_agents s))));
   ("participant_names", VList (map VStr (PyDict.keys (_agents s))));
   ("agent_count", VInt (Z.of_nat (List.length (PyDict.values (_agents s)))))].

(** [AgentSession.start] *)
Definition AgentSession_start : M unit :=
  s <- get_self ;;
  if started s then raise RuntimeError
  else
    t <- time_now ;;
    put_self (mkAgentSession (session_id s) (Some (int_of_float t))
                (started s) (_agents s) (_handshakes s)) ;;
    let agent_list := PyDict.keys (_agents s) in
    for_ agent_list (fun agent =>
      s <- get_self ;;
      call_member agent (fun this =>
        AgentMember_stamp this "session_start" (session_start_payload s)
          (session_id s) None None) ;;
      ret tt) ;;
    for_ (seq 0 (List.length agent_list)) (fun i =>
      for_ (seq (i + 1) (List.length agent_list - (i + 1))) (fun j =>
        agent_a <- item agent_list i ;;
        agent_b <- item agent_list j ;;
        handshake <- _handshake_pair agent_a agent_b ;;
        append_handshake handshake)) ;;
    s <- get_self ;;
    put_self (mkAgentSession (session_id s) (started_at s) true
                (_agents s) (_handshakes s)).

(** The redaction loop of [AgentSession.stamp]. *)
Definition safe_payload_of (payload : Payload) : Payload :=
  fold_left
    (fun safe_payload kv =>
       let '(key, value) := kv in
       if endswith key "_hash" || endswith key "_id"
          || String.eqb key "session_id"
       then PyDict.set key value safe_payload
       else PyDict.set (key ++ "_hash")%string (VStr (_h value)) safe_payload)
    (PyDict.items payload) PyDict.empty.

(** [AgentSession.stamp] *)
Definition AgentSession_stamp (agent_name event_type : string)
    (payload : Payload) (peer : option string) : M Event :=
  _require_started ;;
  agent <- _get_agent agent_name ;;
  s <- get_self ;;
  let safe_payload := safe_payload_of payload in
  if truthy peer then
    peer_agent <- _get_agent (the_str peer) ;;
    t <- time_now ;;
    let interaction_hash :=
      _h (VStr (agent_id agent ++ ":" ++ agent_id peer_agent ++ ":"
                ++ str (VFloat t))%string) in
    event_agent <-
      call_member agent_name (fun this =>
        AgentMember_stamp this event_type
          (PyDict.set "my_role" (VStr "initiator")
             (PyDict.set "interaction_hash" (VStr interaction_hash)
                safe_payload))
          (session_id s) (Some (agent_id peer_agent)) None) ;;
    call_member (the_str peer) (fun this =>
      AgentMember_stamp this (event_type ++ "_received")%string
        (PyDict.set "my_role" (VStr "responder")
           (PyDict.set "interaction_hash" (VStr interaction_hash)
              safe_payload))
        (session_id s) (Some (agent_id agent))
        (Some (ev_signature event_agent))) ;;
    ret event_agent
  else
    call_member agent_name (fun this =>
      AgentMember_stamp this event_type safe_payload (session_id s)
        None None).

(** [sum(len(a.events) for a in self._agents.values())] *)
Definition total_events_of (s : AgentSession) : nat :=
  fold_left Nat.add
    (map (fun a => List.length (events a)) (PyDict.values (_agents s))) 0.

(** [AgentSession.summary] *)
Definition summary (s : AgentSession) : Summary :=
  mkSummary (session_id s) (started_at s)
    (fold_left
       (fun acc kv =>
          let '(name, agent) := kv in
          PyDict.set name
            (mkAgentSummary (agent_id agent) (List.length (events agent))
               (previous_hash agent)) acc)
       (PyDict.items (_agents s)) PyDict.empty)
    (_handshakes s)
    (List.length (_handshakes s))
    (total_events_of s).

(** [AgentSession.end] *)
Definition AgentSession_end : M Summary :=
  _require_started ;;
  t <- time_now ;;
  s <- get_self ;;
  let ended_at := int_of_float t in
  match started_at s with
  | None => raise TypeError
  | Some started_at =>
      let duration := (ended_at - started_at)%Z in
      let total_events := total_events_of s in
      for_ (PyDict.keys (_agents s)) (fun agent =>
        call_member agent (fun this =>
          AgentMember_stamp this "session_end"
            [("session_id", VStr (session_id s));
             ("duration_seconds", VInt duration);
             ("total_events", VInt (Z.of_nat total_events))]
            (session_id s) None None) ;;
        ret tt) ;;
      s <- get_self ;;
      ret (summary s)
  end.

(** The [export_data] dict that [export] builds. *)
Definition export_data_of (s : AgentSession) : ExportData :=
  mkExportData (summary s)
    (fold_left
       (fun acc kv =>
          let '(name, agent) := kv in
          PyDict.set name
            (mkAgentExport (agent_id agent) (List.length (events agent))
               (events agent)) acc)
       (PyDict.items (_agents s)) PyDict.empty).

(** [Path(path).write_text(text)] *)
Definition write_text (path text : string) : M unit :=
  file <- lift (open_for_writing path) ;;
  w <- get_env ;;
  put_env (mkEnv (tick w) (stored w) (PyDict.set file text (files w))).

(** [AgentSession.export] *)
Definition AgentSession_export (output_path : string) : M string :=
  _require_started ;;
  s <- get_self ;;
  let export_data := export_data_of s in
  text <- lift (json_dumps export_data) ;;
  write_text output_path text ;;
  ret output_path.

(** [AgentSession.get_agent] *)
Definition get_agent (name : string) : M AgentMember := _get_agent name.

End Program.

(** ** Callers *)

(** One call a caller makes on a session. *)
Inductive Call : Type :=
| CallStart
| CallStamp (agent_name event_type : string) (payload : Payload)
  (peer : option string)
| CallEnd
| CallExport (output_path : string).

Section Callers.
Context {C : Collaborators}.

(** A caller that makes a call and carries on whether or not it raised. *)
Definition run_call (c : Call) (st : State) : State :=
  match c with
  | CallStart => snd (AgentSession_start st)
  | CallStamp agent_name event_type payload peer =>
      snd (AgentSession_stamp agent_name event_type payload peer st)
  | CallEnd => snd (AgentSession_end st)
  | CallExport output_path => snd (AgentSession_export output_path st)
  end.

Definition run (calls : list Call) (st : State) : State :=
  fold_left (fun st c => run_call c st) calls st.

(** A state a caller can bring about: a session as constructed, then any
    calls. *)
Definition reachable (st : State) : Prop :=
  exists agents w s w' calls,
    AgentSession_init agents w = (Ok s, w')
    /\ st = run calls (mkState s w').

(** *** Hash chains *)

(** [linked prev log]: the first event of [log] points at [prev] and every
    later event at the digest of the event before it. *)
Fixpoint linked (prev : string) (log : list Event) : bool :=
  match log with
  | [] => true
  | e :: rest =>
      String.eqb (ev_previous_hash e) prev
      && linked (compute_event_hash e) rest
  end.

Definition chained (log : list Event) : bool := linked "genesis" log.

(** Digest of the last event of [log], or the sentinel for an empty log. *)
Definition log_head (log : list Event) : string :=
  last (map compute_event_hash log) "genesis".

(** The chain head an agent links its next event to:
    [self.previous_hash or "genesis"]. *)
Definition chain_head (a : AgentMember) : string :=
  or_else (previous_hash a) "genesis".

(** *** What the program relies on from its collaborators *)

(** [aiss.stamp_event] records the [previous_hash] it is given. *)
Definition stamp_event_links : Prop :=
  forall n sk id p prev, ev_previous_hash (stamp_event n sk id p prev) = prev.

(** [aiss.stamp_event] records the payload it is given. *)
Definition stamp_event_keeps_payload : Prop :=
  forall n sk id p prev, ev_payload (stamp_event n sk id p prev) = p.

(** [aiss.stamp_event] produces a non-empty signature. *)
Definition stamp_event_signs : Prop :=
  forall n sk id p prev, ev_signature (stamp_event n sk id p prev) <> "".

(** [build_cosigned_handshake_event] records the [previous_hash] it is
    given. *)
Definition cosigned_event_links : Prop :=
  forall n sk id proposal response prev,
    ev_previous_hash
      (build_cosigned_handshake_event n sk id proposal response prev) = prev.

(** [aiss.compute_event_hash] never returns the empty string. *)
Definition event_hash_nonempty : Prop :=
  forall e, compute_event_hash e <> "".
(** The invariant of one agent: its log is a chain from the sentinel and
    its chain head is the digest of the last event. *)
Definition member_ok (a : AgentMember) : Prop :=
  chained (_events a) = true /\ chain_head a = log_head (_events a).

Definition registry_ok (d : PyDict.t AgentMember) : Prop :=
  forall n a, PyDict.get n d = Some a -> member_ok a.

Definition state_ok (st : State) : Prop := registry_ok (_agents (self st)).

(** A step keeps the invariant, whether it returns or raises. *)
Definition keeps {A} (m : M A) : Prop :=
  forall st, state_ok st -> state_ok (snd (m st)).
(** *** Redaction *)

(** Keys that [AgentSession.stamp] keeps as they are. *)
Definition verbatim_key (key : string) : bool :=
  endswith key "_hash" || endswith key "_id" || String.eqb key "session_id".

(** The key and the value a payload field is stored under. *)
Definition stored_key (key : string) : string :=
  if verbatim_key key then key else (key ++ "_hash")%string.

Definition stored_value (key : string) (value : Value) : Value :=
  if verbatim_key key then value else VStr (_h value).

(** The payload fields the session writes itself, after the caller's. *)
Definition session_fields (peer : option string) : list string :=
  ["event_type"; "session_id"; "aiss_profile"]
  ++ (if truthy peer
      then ["interaction_hash"; "my_role"; "peer_agent_id"; "peer_signature"]
      else []).
(** *** Co-signed stamps *)

(** The interaction hash of a co-signed stamp read at clock index [n]. *)
Definition interaction_hash_of (ma mb : AgentMember) (n : nat) : string :=
  _h (VStr (agent_id ma ++ ":" ++ agent_id mb ++ ":"
            ++ str (VFloat (time_time n)))%string).

(** The two payloads handed to [AgentMember.stamp] by a co-signed stamp. *)
Definition side_payload (role interaction_hash : string) (payload : Payload)
    : Payload :=
  PyDict.set "my_role" (VStr role)
    (PyDict.set "interaction_hash" (VStr interaction_hash)
       (safe_payload_of payload)).
(** *** Rounds of the loops *)

(** One round of the redaction loop. *)
Definition redact_step (safe_payload : Payload) (kv : string * Value)
    : Payload :=
  PyDict.set (stored_key (fst kv)) (stored_value (fst kv) (snd kv))
    safe_payload.

(** The event was signed by [aiss.stamp_event] as an event of type
    [event_type] without a peer, from a payload without a [peer_name]. *)
Definition stamped_as (event_type : string) (e : Event) : Prop :=
  exists n sk id payload sid prev,
    e = stamp_event n sk id
          (full_payload_of event_type payload sid None None) prev
    /\ PyDict.get "peer_name" payload = None.

(** The name of an agent definition; the empty string when it has none. *)
Definition def_name (d : AgentDef) : string :=
  match PyDict.get "name" d with
  | Some n => n
  | None => ""
  end.

(** [AgentMember(agent_def["name"], agent_def["identity_file"])]: the member
    built from one agent definition, or the exception raised. *)
Definition member_of (d : AgentDef) : Res AgentMember :=
  match subscript d "name" with
  | Raise e => Raise e
  | Ok name =>
      match subscript d "identity_file" with
      | Raise e => Raise e
      | Ok identity_file => AgentMember_init name identity_file
      end
  end.
End Callers.

(** ** What a call adds to a session *)

(** The fields of a member that no method writes. *)
Definition same_identity (m m' : AgentMember) : Prop :=
  name m' = name m /\ private_key m' = private_key m
  /\ public_key m' = public_key m /\ agent_id m' = agent_id m.

(** Events appended per registry key, and handshake records appended. *)
Record Delta : Type := mkDelta {
  new_events : string -> list Event;
  new_handshakes : list HandshakeResult
}.

Definition nothing : Delta := mkDelta (fun _ => []) [].

Definition one_event (ref : string) (e : Event) : Delta :=
  mkDelta (fun n => if String.eqb n ref then [e] else []) [].

Definition one_handshake (h : HandshakeResult) : Delta :=
  mkDelta (fun _ => []) [h].

Definition plus (d1 d2 : Delta) : Delta :=
  mkDelta (fun n => new_events d1 n ++ new_events d2 n)
    (new_handshakes d1 ++ new_handshakes d2).

Definition total (ds : list Delta) : Delta := fold_right plus nothing ds.

(** [adds d s s']: [s'] is [s] with the events and handshake records of [d]
    appended and nothing else of the session object changed. *)
Definition adds (d : Delta) (s s' : AgentSession) : Prop :=
  session_id s' = session_id s
  /\ started_at s' = started_at s
  /\ started s' = started s
  /\ _handshakes s' = _handshakes s ++ new_handshakes d
  /\ PyDict.keys (_agents s') = PyDict.keys (_agents s)
  /\ forall n m, PyDict.get n (_agents s) = Some m ->
       exists m', PyDict.get n (_agents s') = Some m'
                  /\ same_identity m m'
                  /\ _events m' = _events m ++ new_events d n.

(** Every member is registered under its own name. *)
Definition names_match (d : PyDict.t AgentMember) : Prop :=
  forall n m, PyDict.get n d = Some m -> name m = n.

(** All pairs [(l[i], l[j])] with [i < j], by ascending [i] then [j]. *)
Fixpoint pairs (l : list string) : list (string * string) :=
  match l with
  | [] => []
  | x :: r => map (pair x) r ++ pairs r
  end.

(** The peers [n] meets along a list of pairs, in order. *)
Definition peers_of (n : string) (ps : list (string * string)) : list string :=
  flat_map
    (fun p =>
       (if String.eqb n (fst p) then [snd p] else [])
       ++ (if String.eqb n (snd p) then [fst p] else []))
    ps.

(** [event["payload"].get(k)] *)
Definition field (k : string) (e : Event) : option Value :=
  PyDict.get k (ev_payload e).

(** The index pairs [(i, j)], [i < j < n], in the order the loops of
    [start] visit them. *)
Definition index_pairs (n : nat) : list (nat * nat) :=
  flat_map (fun i => map (pair i) (seq (i + 1) (n - (i + 1)))) (seq 0 n).

(** A round that stamps one event [e] with property [P] on agent [x]. *)
Definition stamps_one (P : Event -> Prop) (x : string) (d : Delta) : Prop :=
  exists e, d = one_event x e /\ P e.

(** A round that shakes hands between the agents of pair [p]. *)
Definition shakes (p : string * string) (d : Delta) : Prop :=
  exists h ea eb,
    d = plus (plus (one_event (fst p) ea) (one_event (snd p) eb))
          (one_handshake h)
    /\ hs_agent_a h = fst p /\ hs_agent_b h = snd p
    /\ field "peer_name" ea = Some (VStr (snd p))
    /\ field "peer_name" eb = Some (VStr (fst p)).

(** [e] is a handshake event with peer [peer]. *)
Definition names_peer (e : Event) (peer : string) : Prop :=
  field "peer_name" e = Some (VStr peer).

(** All entries of [l] other than [n], in order. *)
Definition others (n : string) (l : list string) : list string :=
  filter (fun x => negb (String.eqb x n)) l.

(** What every session reachable from its construction satisfies. *)
Definition session_wf (s : AgentSession) : Prop :=
  names_match (_agents s)
  /\ NoDup (PyDict.keys (_agents s))
  /\ (started s = true -> started_at s <> None).

(** ** The [events] accessor and object identity

    [AgentMember.events] returns [self._events.copy()]: a new list object
    holding the same event objects.  What a caller can and cannot reach
    through it depends on object identity, so this part keeps a heap of
    list objects and event objects. *)

Module Aliasing.

Definition ref := nat.

Inductive Obj : Type :=
| OList (items : list ref)
| OEvent (e : Event).

Definition Heap := list Obj.

Definition read (h : Heap) (r : ref) : option Obj := nth_error h r.

Fixpoint write (h : Heap) (r : ref) (o : Obj) : Heap :=
  match h, r with
  | [], _ => []
  | _ :: t, O => o :: t
  | x :: t, S r' => x :: write t r' o
  end.

Definition alloc (h : Heap) (o : Obj) : ref * Heap :=
  (List.length h, h ++ [o]).

(** The events an agent's log holds, read through the list object
    [log] that its [_events] field refers to. *)
Definition history (h : Heap) (log : ref) : list (option Obj) :=
  match read h log with
  | Some (OList items) => map (read h) items
  | _ => []
  end.

(** The [events] property on an agent whose [_events] field refers to
    [log]: [self._events.copy()]. *)
Definition events_property (log : ref) (h : Heap) : option (ref * Heap) :=
  match read h log with
  | Some (OList items) => Some (alloc h (OList items))
  | _ => None
  end.

(** What a caller may do with the list it was handed. *)
Inductive ViewOp : Type :=
| Append (x : ref)                      (* view.append(x) *)
| SetItem (i : nat) (x : ref)           (* view[i] = x *)
| DelItem (i : nat)                     (* del view[i] *)
| Clear                                 (* view.clear() *)
| MutateItem (i : nat) (f : Event -> Event).  (* view[i][...] = ... *)

Fixpoint set_nth (l : list ref) (i : nat) (x : ref) : list ref :=
  match l, i with
  | [], _ => []
  | _ :: t, O => x :: t
  | y :: t, S i' => y :: set_nth t i' x
  end.

Fixpoint del_nth (l : list ref) (i : nat) : list ref :=
  match l, i with
  | [], _ => []
  | _ :: t, O => t
  | y :: t, S i' => y :: del_nth t i'
  end.

(** A caller's operation on the list object [view]; an operation that
    raises leaves the heap as it is. *)
Definition apply_op (view : ref) (h : Heap) (op : ViewOp) : Heap :=
  match read h view with
  | Some (OList items) =>
      match op with
      | Append x => write h view (OList (items ++ [x]))
      | SetItem i x => write h view (OList (set_nth items i x))
      | DelItem i => write h view (OList (del_nth items i))
      | Clear => write h view (OList [])
      | MutateItem i f =>
          match nth_error items i with
          | Some r =>
              match read h r with
              | Some (OEvent e) => write h r (OEvent (f e))
              | _ => h
              end
          | None => h
          end
      end
  | _ => h
  end.

(** Operations on the list itself, as opposed to on an event in it. *)
Definition on_list (op : ViewOp) : bool :=
  match op with
  | MutateItem _ _ => false
  | _ => true
  end.

(** The log is laid out in the heap: a list object whose items are event
    objects. *)
Definition log_at (h : Heap) (log : ref) : Prop :=
  exists items,
    read h log = Some (OList items)
    /\ Forall (fun r => exists e, read h r = Some (OEvent e)) items.

(** The heap holding the events [log] of an agent followed by its list
    object; the list object is at address [length log]. *)
Definition lay_out (log : list Event) : Heap :=
  map OEvent log ++ [OList (seq 0 (List.length log))].
End Aliasing.

(** ** A concrete set of collaborators, for running the program *)

Module Toy.
Definition toy_stamp_event (n : nat) (sk id : string) (p : Payload)
    (prev : string) : Event :=
  mkEvent id p prev ("sig(" ++ sk ++ "," ++ prev ++ ")")%string
    [("nonce", VInt (Z.of_nat n))].

Definition toy_cosigned (n : nat) (sk id : string)
    (proposal response : Value) (prev : string) : Event :=
  mkEvent id
    [("event_type", VStr "a2a_handshake");
     ("proposal", proposal); ("response", response)]
    prev ("cosig(" ++ sk ++ "," ++ prev ++ ")")%string
    [("nonce", VInt (Z.of_nat n))].

(** Identity files: [missing.json] does not exist, [partial.json] holds an
    identity without an agent id, any other file holds a full identity. *)
Definition toy_load_identity (f : string) : Res Identity :=
  if String.eqb f "missing.json" then Raise OSError
  else if String.eqb f "partial.json"
  then Ok [("private_key_bytes", ("sk:" ++ f)%string);
           ("public_key_bytes", ("pk:" ++ f)%string)]
  else Ok [("private_key_bytes", ("sk:" ++ f)%string);
           ("public_key_bytes", ("pk:" ++ f)%string);
           ("agent_id", ("id:" ++ f)%string)].

(** [n] marks. *)
Fixpoint marks (n : nat) : string :=
  match n with
  | O => ""
  | S k => String "|" (marks k)
  end.

(** A short text for a document: its session id and its two totals. *)
Definition toy_dumps (doc : ExportData) : Res string :=
  Ok ("{session_id: " ++ sum_session_id (ex_session doc)
      ++ ", total_events: " ++ marks (sum_total_events (ex_session doc))
      ++ ", handshake_count: "
      ++ marks (sum_handshake_count (ex_session doc)) ++ "}")%string.

Fixpoint has_slash (s : string) : bool :=
  match s with
  | EmptyString => false
  | String c r => Ascii.eqb c "/" || has_slash r
  end.

(** A file system with one directory, the current one, and no
    subdirectories: [x] and [./x] are the same file. *)
Definition toy_open (path : string) : Res string :=
  let p :=
    if String.prefix "./" path
    then substring 2 (String.length path - 2) path
    else path in
  if String.eqb p "" || has_slash p then Raise OSError else Ok p.

#[export] Instance collaborators : Collaborators := {|
  sha256_hexdigest := fun s => ("sha256(" ++ s ++ ")")%string;
  str_builtin := fun v =>
    match v with
    | VNone => "None"
    | VBool true => "True"
    | VBool false => "False"
    | _ => "<value>"
    end;
  uuid4_hex := fun _ => "0123456789abcdef0123456789abcdef";
  time_time := fun n => Qmake (1700000000 + Z.of_nat n) 1;
  load_identity := toy_load_identity;
  stamp_event := toy_stamp_event;
  compute_event_hash := fun e =>
    ("h(" ++ ev_signature e ++ ")")%string;
  create_identity_proposal := fun _ _ pk id caps meta =>
    VDict [("agent_id", VStr id); ("public_key", VStr pk);
           ("metadata", VDict meta)];
  create_identity_response := fun _ _ pk id proposal caps =>
    VDict [("agent_id", VStr id); ("public_key", VStr pk);
           ("proposal", proposal)];
  build_cosigned_handshake_event := toy_cosigned;
  json_dumps := toy_dumps;
  open_for_writing := toy_open
|}.

Definition env0 : Env := mkEnv 0 [] PyDict.empty.

Definition defs_ab : list AgentDef :=
  [mkAgentDef "A" "a.json"; mkAgentDef "B" "b.json"].

Definition defs_abc : list AgentDef :=
  defs_ab ++ [mkAgentDef "C" "c.json"].

(** The state after constructing a session over [defs]; a session that
    failed to construct is replaced by an empty one. *)
Definition constructed (defs : list AgentDef) : State :=
  match AgentSession_init defs env0 with
  | (Ok s, w) => mkState s w
  | (Raise _, w) => mkState (mkAgentSession "" None false [] []) w
  end.

Definition fresh_ab : State := constructed defs_ab.
Definition started_ab : State := run [CallStart] fresh_ab.
Definition started_abc : State := run [CallStart] (constructed defs_abc).

(** A short session: start, one co-signed stamp, one unilateral stamp, end. *)
Definition calls_demo : list Call :=
  [CallStart;
   CallStamp "A" "advice" [("x", VInt 1); ("order_id", VStr "X1")] (Some "B");
   CallStamp "B" "trade" [("symbol", VStr "AAPL")] None;
   CallEnd].

Definition demo : State := run calls_demo fresh_ab.

(** Agent [n] of a state, or an empty agent when there is none. *)
Definition member (n : string) (st : State) : AgentMember :=
  match PyDict.get n (_agents (self st)) with
  | Some a => a
  | None => mkAgentMember "" "" "" "" None []
  end.
End Toy.

#[global] Existing Instance Toy.collaborators | 100.

(** ** How the registry and the event store evolve *)

Section Evolution.
Context {C : Collaborators}.

(** A member after one more event: what [AgentMember.stamp] and
    [_handshake_pair] write back. *)
Definition grow (m : AgentMember) (e : Event) : AgentMember :=
  mkAgentMember (name m) (private_key m) (public_key m) (agent_id m)
    (Some (compute_event_hash e)) (_events m ++ [e]).

(** The events the program appends to the log of [m] in a session whose id
    is [sid]: those signed by [AgentMember.stamp], and the co-signed
    handshake events of [_handshake_pair] after the session id and the peer
    name are written into their payload. *)
Inductive appended (sid : string) (m : AgentMember) : Event -> Prop :=
| appended_stamp (n : nat) (event_type : string) (payload : Payload)
    (peer_id peer_signature : option string) :
    appended sid m
      (stamp_event n (private_key m) (agent_id m)
         (full_payload_of event_type payload sid peer_id peer_signature)
         (or_else (previous_hash m) "genesis"))
| appended_handshake (n : nat) (proposal response : Value) (peer : string) :
    appended sid m
      (set_ev_payload
         (build_cosigned_handshake_event n (private_key m) (agent_id m)
            proposal response (or_else (previous_hash m) "genesis"))
         (PyDict.set "peer_name" (VStr peer)
            (PyDict.set "session_id" (VStr sid)
               (ev_payload
                  (build_cosigned_handshake_event n (private_key m)
                     (agent_id m) proposal response
                     (or_else (previous_hash m) "genesis")))))).

(** The registry and the event store of a state. *)
Definition View : Type := PyDict.t AgentMember * list Event.

Definition view (st : State) : View :=
  (_agents (self st), stored (env st)).

(** One event persisted and appended to the log of a registered member. *)
Inductive step (sid : string) : View -> View -> Prop :=
| step_append (reg : PyDict.t AgentMember) (store : list Event)
    (ref : string) (m : AgentMember) (e : Event) :
    PyDict.get ref reg = Some m ->
    appended sid m e ->
    step sid (reg, store) (PyDict.set ref (grow m e) reg, store ++ [e]).

Inductive steps (sid : string) : View -> View -> Prop :=
| steps_done (v : View) : steps sid v v
| steps_more (v1 v2 v3 : View) :
    step sid v1 v2 -> steps sid v2 v3 -> steps sid v1 v3.

(** A computation that, in a session with id [sid], changes the registry
    and the store only by such steps and keeps the session id, whether it
    returns or raises. *)
Definition walks {A} (sid : string) (m : M A) : Prop :=
  forall st,
    session_id (self st) = sid ->
    steps sid (view st) (view (snd (m st)))
    /\ session_id (self (snd (m st))) = sid.

(** The last element of a list, if any. *)
Definition last_of {A} (l : list A) : option A :=
  match rev l with
  | [] => None
  | x :: _ => Some x
  end.

End Evolution.

(** The demo session, written as a construction followed by calls. *)
Module ToyRun.
Definition session : AgentSession := self Toy.fresh_ab.
Definition world : Env := env Toy.fresh_ab.
Definition constructed : State := mkState session world.
Definition state : State := run Toy.calls_demo constructed.
Definition started : State := run [CallStart] constructed.

(** The first event of agent [n]'s log in state [st], or an empty event. *)
Definition first_event (n : string) (st : State) : Event :=
  nth 0 (_events (Toy.member n st)) (mkEvent "" [] "" "" []).

(** The summary entry of agent [n] in state [st], or an empty entry. *)
Definition summary_entry (n : string) (st : State) : AgentSummary :=
  match PyDict.get n (sum_agents (summary (self st))) with
  | Some x => x
  | None => mkAgentSummary "" 0 None
  end.

(** The text that exporting the demo session writes. *)
Definition text : string :=
  match json_dumps (export_data_of (self state)) with
  | Ok t => t
  | Raise _ => ""
  end.

End ToyRun.

(** ** What [start] writes, in full *)

Section StartRecords.
Context {C : Collaborators}.

(** The payload of the [session_start] events of a session with id [sid]
    whose agents have names [names] and agent ids [ids]. *)
Definition start_payload (sid : string) (names ids : list string) : Payload :=
  [("session_id", VStr sid);
   ("participants", VList (map VStr ids));
   ("participant_names", VList (map VStr names));
   ("agent_count", VInt (Z.of_nat (List.length names)))].

(** A round that stamps the [session_start] event on agent [x]. *)
Definition announces (sid : string) (names ids : list string) (x : string)
    (d : Delta) : Prop :=
  exists n sk id prev,
    d = one_event x
          (stamp_event n sk id
             (full_payload_of "session_start" (start_payload sid names ids)
                sid None None) prev).

(** A round that shakes hands between the agents of pair [p], registered in
    [reg0], and records it. *)
Definition shakes_fully (sid : string) (reg0 : PyDict.t AgentMember)
    (p : string * string) (d : Delta) : Prop :=
  exists h ea eb ma mb,
    d = plus (plus (one_event (fst p) ea) (one_event (snd p) eb))
          (one_handshake h)
    /\ PyDict.get (fst p) reg0 = Some ma
    /\ PyDict.get (snd p) reg0 = Some mb
    /\ hs_agent_a h = fst p /\ hs_agent_b h = snd p
    /\ hs_agent_a_id h = agent_id ma /\ hs_agent_b_id h = agent_id mb
    /\ hs_session_id h = sid
    /\ hs_event_a_hash h = compute_event_hash ea
    /\ hs_event_b_hash h = compute_event_hash eb
    /\ names_peer ea (snd p) /\ names_peer eb (fst p).

(** A session that has the id [sid] and the agents of registry [reg0], each
    under its own name. *)
Definition rooted (sid : string) (reg0 : PyDict.t AgentMember)
    (s : AgentSession) : Prop :=
  session_id s = sid
  /\ PyDict.keys (_agents s) = PyDict.keys reg0
  /\ names_match (_agents s)
  /\ forall n m, PyDict.get n (_agents s) = Some m ->
       exists m0, PyDict.get n reg0 = Some m0 /\ same_identity m0 m.

(** The agent ids of a registry, in registration order. *)
Definition agent_ids (reg : PyDict.t AgentMember) : list string :=
  map agent_id (PyDict.values reg).
End StartRecords.

Unset Implicit Arguments.

(** ** Dictionary lemmas *)

Section DictFacts.
Variable V : Type.
Implicit Types (d : PyDict.t V) (k : string) (v : V).

Lemma get_set k k' v d :
  PyDict.get k' (PyDict.set k v d)
  = if String.eqb k k' then Some v else PyDict.get k' d.
Proof.
  induction d as [|[k0 v0] r IH]; simpl.
  - reflexivity.
  - destruct (String.eqb_spec k0 k) as [->|Hne]; simpl.
    + destruct (String.eqb_spec k k'); reflexivity.
    + destruct (String.eqb_spec k0 k') as [->|Hne'].
      * destruct (String.eqb_spec k k'); [congruence | reflexivity].
      * exact IH.
Qed.

Lemma get_set_same k v d : PyDict.get k (PyDict.set k v d) = Some v.
Proof. rewrite get_set, String.eqb_refl. reflexivity. Qed.

Lemma get_In k v d : PyDict.get k d = Some v -> In (k, v) d.
Proof.
  induction d as [|[k0 v0] r IH]; simpl; [discriminate|].
  destruct (String.eqb_spec k0 k) as [->|Hne]; intros H.
  - injection H as ->. now left.
  - right. now apply IH.
Qed.

Lemma get_None_keys k d : PyDict.get k d = None <-> ~ In k (PyDict.keys d).
Proof.
  induction d as [|[k0 v0] r IH]; simpl.
  - tauto.
  - destruct (String.eqb_spec k0 k) as [->|Hne].
    + split; [discriminate | intros H; exfalso; apply H; now left].
    + rewrite IH. tauto.
Qed.

Lemma mem_keys k d : PyDict.mem k d = true <-> In k (PyDict.keys d).
Proof.
  unfold PyDict.mem. destruct (PyDict.get k d) eqn:E.
  - split; [intros _ | reflexivity].
    apply get_In in E. apply (in_map fst) in E. exact E.
  - apply get_None_keys in E. split; [discriminate | tauto].
Qed.

(** Assigning to a key that is present keeps the keys and their order. *)
Lemma keys_set_present k v d :
  In k (PyDict.keys d) -> PyDict.keys (PyDict.set k v d) = PyDict.keys d.
Proof.
  induction d as [|[k0 v0] r IH]; simpl; [tauto|].
  destruct (String.eqb_spec k0 k) as [->|Hne]; simpl; [reflexivity|].
  intros [H|H]; [congruence|]. now rewrite IH.
Qed.

(** Assigning to a new key appends it. *)
Lemma keys_set_absent k v d :
  ~ In k (PyDict.keys d) ->
  PyDict.keys (PyDict.set k v d) = PyDict.keys d ++ [k].
Proof.
  induction d as [|[k0 v0] r IH]; simpl; [reflexivity|].
  destruct (String.eqb_spec k0 k) as [->|Hne]; simpl; intros H.
  - exfalso. apply H. now left.
  - rewrite IH; [reflexivity | tauto].
Qed.

Lemma keys_set_NoDup k v d :
  NoDup (PyDict.keys d) -> NoDup (PyDict.keys (PyDict.set k v d)).
Proof.
  intros H. destruct (in_dec string_dec k (PyDict.keys d)) as [Hin|Hout].
  - now rewrite keys_set_present.
  - rewrite keys_set_absent by assumption.
    apply NoDup_app; [assumption | repeat constructor; simpl; tauto |].
    intros a Ha [<-|[]]. contradiction.
Qed.

End DictFacts.

(** ** The hash chain of every agent *)

Section Chain.
Context {C : Collaborators}.

Lemma last_cons_default (A : Type) (l : list A) (x d : A) :
  last (x :: l) d = last l x.
Proof.
  revert x d. induction l as [|y l IH]; intros x d; [reflexivity|].
  change (last (x :: y :: l) d) with (last (y :: l) d).
  now rewrite !IH.
Qed.

Lemma linked_snoc (log : list Event) (e : Event) (prev : string) :
  linked prev (log ++ [e])
  = linked prev log
    && String.eqb (ev_previous_hash e)
         (last (map compute_event_hash log) prev).
Proof.
  revert prev. induction log as [|x log IH]; intros prev; simpl linked.
  - simpl. now rewrite andb_true_r.
  - rewrite IH, andb_assoc. f_equal. f_equal.
    simpl map. now rewrite last_cons_default.
Qed.

Lemma log_head_snoc (log : list Event) (e : Event) :
  log_head (log ++ [e]) = compute_event_hash e.
Proof. unfold log_head. rewrite map_app. simpl. apply last_last. Qed.

Hypothesis Hhash : event_hash_nonempty.

Lemma or_else_hash (e : Event) (d : string) :
  or_else (Some (compute_event_hash e)) d = compute_event_hash e.
Proof.
  unfold or_else. destruct (String.eqb_spec (compute_event_hash e) "") as [E|_].
  - now apply Hhash in E.
  - reflexivity.
Qed.

(** Appending an event that points at the current chain head keeps the
    invariant. *)
Lemma append_ok (a : AgentMember) (e : Event) (n sk pk id : string) :
  member_ok a ->
  ev_previous_hash e = chain_head a ->
  member_ok
    (mkAgentMember n sk pk id (Some (compute_event_hash e))
       (_events a ++ [e])).
Proof.
  intros [Hc Hh] He. split; cbn [_events previous_hash].
  - unfold chained in *. rewrite linked_snoc, Hc. cbn [andb].
    rewrite He, Hh. apply String.eqb_refl.
  - unfold chain_head. cbn [previous_hash]. rewrite or_else_hash.
    symmetry. apply log_head_snoc.
Qed.

Lemma registry_ok_set (d : PyDict.t AgentMember) (k : string)
    (a : AgentMember) :
  registry_ok d -> member_ok a -> registry_ok (PyDict.set k a d).
Proof.
  intros Hd Ha n b. rewrite get_set.
  destruct (String.eqb k n); [intros [= <-]; exact Ha | apply Hd].
Qed.

Hypothesis Hstamp : stamp_event_links.
Hypothesis Hcosign : cosigned_event_links.

Lemma AgentMember_stamp_ok (a : AgentMember) event_type payload sid
    peer_id peer_signature (w : Env) :
  member_ok a ->
  member_ok
    (snd (fst (AgentMember_stamp a event_type payload sid peer_id
                 peer_signature w))).
Proof.
  intros Ha. unfold AgentMember_stamp. simpl.
  apply append_ok; [exact Ha | apply Hstamp].
Qed.

Lemma keeps_bind {A B} (m : M A) (k : A -> M B) :
  keeps m -> (forall a, keeps (k a)) -> keeps (bind m k).
Proof.
  intros Hm Hk st Hst. unfold bind. specialize (Hm st Hst).
  destruct (m st) as [[a|e] st']; simpl in *; [now apply Hk | exact Hm].
Qed.

Lemma keeps_for {A} (l : list A) (body : A -> M unit) :
  (forall x, keeps (body x)) -> keeps (for_ l body).
Proof.
  intros Hb. induction l as [|x l IH]; simpl.
  - intros st Hst. exact Hst.
  - apply keeps_bind; [apply Hb | intros _; exact IH].
Qed.

Lemma keeps_same_registry {A} (m : M A) :
  (forall st, _agents (self (snd (m st))) = _agents (self st)) -> keeps m.
Proof. intros H st Hst. unfold state_ok. now rewrite H. Qed.

Lemma keeps_call_member {A} (ref : string)
    (method : AgentMember -> Env -> A * AgentMember * Env) :
  (forall a w, member_ok a -> member_ok (snd (fst (method a w)))) ->
  keeps (call_member ref method).
Proof.
  intros Hm st Hst. unfold call_member, bind, deref, get_env. simpl.
  destruct (PyDict.get ref (_agents (self st))) as [a|] eqn:Ea;
    [|exact Hst].
  simpl. specialize (Hm a (env st) (Hst _ _ Ea)).
  destruct (method a (env st)) as [[r a'] w']. simpl in *.
  apply registry_ok_set; assumption.
Qed.

Lemma keeps_handshake_pair (agent_a agent_b : string) :
  keeps (_handshake_pair agent_a agent_b).
Proof.
  intros st Hst. unfold _handshake_pair, bind, get_self, deref, fresh,
    get_env, put_env, assign, time_now, ret. simpl.
  destruct (PyDict.get agent_a (_agents (self st))) as [a|] eqn:Ea;
    [|exact Hst].
  destruct (PyDict.get agent_b (_agents (self st))) as [b|] eqn:Eb;
    [|exact Hst].
  simpl. rewrite Ea. simpl.
  match goal with
  | |- context [PyDict.set agent_a ?a' _] => set (a1 := a')
  end.
  assert (Ha1 : member_ok a1).
  { apply append_ok; [exact (Hst _ _ Ea) | apply Hcosign]. }
  assert (H1 : registry_ok (PyDict.set agent_a a1 (_agents (self st)))).
  { apply registry_ok_set; assumption. }
  destruct (PyDict.get agent_b (PyDict.set agent_a a1 (_agents (self st))))
    as [b1|] eqn:Eb1; simpl; [|exact H1].
  apply registry_ok_set; [exact H1|].
  apply append_ok; [exact (H1 _ _ Eb1) | apply Hcosign].
Qed.

Lemma keeps_get_self {B} (k : AgentSession -> M B) :
  (forall s, registry_ok (_agents s) -> keeps (k s)) ->
  keeps (bind get_self k).
Proof. intros Hk st Hst. unfold bind, get_self. now apply Hk. Qed.

Lemma keeps_put_self (s : AgentSession) :
  registry_ok (_agents s) -> keeps (put_self s).
Proof. intros Hs st _. exact Hs. Qed.

Lemma keeps_item (agent_list : list string) (i : nat) :
  keeps (item agent_list i).
Proof.
  unfold item. destruct (nth_error agent_list i);
    now apply keeps_same_registry.
Qed.

Lemma keeps_require_started : keeps _require_started.
Proof.
  apply keeps_get_self. intros s _.
  destruct (negb (started s)); now apply keeps_same_registry.
Qed.

Lemma keeps_get_agent (n : string) : keeps (_get_agent n).
Proof.
  apply keeps_get_self. intros s _.
  destruct (negb (PyDict.mem n (_agents s))).
  - now apply keeps_same_registry.
  - apply keeps_same_registry. intros st. unfold deref.
    now destruct (PyDict.get n (_agents (self st))).
Qed.

Lemma keeps_stamp_member (ref event_type sid : string) (payload : Payload)
    (peer_id peer_signature : option string) :
  keeps (call_member ref (fun this =>
           AgentMember_stamp this event_type payload sid peer_id
             peer_signature)).
Proof.
  apply keeps_call_member. intros a w. apply AgentMember_stamp_ok.
Qed.

Lemma keeps_start : keeps AgentSession_start.
Proof.
  unfold AgentSession_start.
  apply keeps_get_self. intros s Hs.
  destruct (started s); [now apply keeps_same_registry|].
  apply keeps_bind; [now apply keeps_same_registry|]. intros t.
  apply keeps_bind; [now apply keeps_put_self|]. intros _.
  apply keeps_bind.
  { apply keeps_for. intros agent.
    apply keeps_get_self. intros s' _.
    apply keeps_bind; [|intros _; now apply keeps_same_registry].
    apply keeps_stamp_member. }
  intros _. apply keeps_bind.
  { apply keeps_for. intros i. apply keeps_for. intros j.
    apply keeps_bind; [apply keeps_item|]. intros agent_a.
    apply keeps_bind; [apply keeps_item|]. intros agent_b.
    apply keeps_bind; [apply keeps_handshake_pair|].
    intros h. now apply keeps_same_registry. }
  intros _. apply keeps_get_self. intros s' Hs'.
  now apply keeps_put_self.
Qed.

Lemma keeps_stamp agent_name event_type payload peer :
  keeps (AgentSession_stamp agent_name event_type payload peer).
Proof.
  unfold AgentSession_stamp.
  apply keeps_bind; [apply keeps_require_started|]. intros _.
  apply keeps_bind; [apply keeps_get_agent|]. intros agent.
  apply keeps_get_self. intros s _.
  destruct (truthy peer); [|apply keeps_stamp_member].
  apply keeps_bind; [apply keeps_get_agent|]. intros peer_agent.
  apply keeps_bind; [now apply keeps_same_registry|]. intros t.
  apply keeps_bind; [apply keeps_stamp_member|]. intros event_agent.
  apply keeps_bind; [apply keeps_stamp_member|]. intros _.
  now apply keeps_same_registry.
Qed.

Lemma keeps_end : keeps AgentSession_end.
Proof.
  unfold AgentSession_end.
  apply keeps_bind; [apply keeps_require_started|]. intros _.
  apply keeps_bind; [now apply keeps_same_registry|]. intros t.
  apply keeps_get_self. intros s _.
  destruct (started_at s); [|now apply keeps_same_registry].
  apply keeps_bind.
  { apply keeps_for. intros agent.
    apply keeps_bind; [apply keeps_stamp_member|].
    intros _. now apply keeps_same_registry. }
  intros _. now apply keeps_same_registry.
Qed.

Lemma keeps_export output_path : keeps (AgentSession_export output_path).
Proof.
  unfold AgentSession_export.
  apply keeps_bind; [apply keeps_require_started|]. intros _.
  apply keeps_same_registry. intros st.
  unfold write_text, bind, get_self, lift, get_env, put_env, ret.
  destruct (json_dumps _); [|reflexivity].
  destruct (open_for_writing _); reflexivity.
Qed.

Lemma run_call_ok (c : Call) (st : State) :
  state_ok st -> state_ok (run_call c st).
Proof.
  destruct c; simpl.
  - apply keeps_start.
  - apply keeps_stamp.
  - apply keeps_end.
  - apply keeps_export.
Qed.

Lemma run_ok (calls : list Call) (st : State) :
  state_ok st -> state_ok (run calls st).
Proof.
  revert st. unfold run.
  induction calls as [|c calls IH]; intros st Hst; simpl; [exact Hst|].
  apply IH. now apply run_call_ok.
Qed.

(** A member as constructed has the name given, no chain head and an
    empty log. *)
Lemma member_init_inv (n f : string) (m : AgentMember) :
  AgentMember_init n f = Ok m ->
  name m = n /\ previous_hash m = None /\ _events m = [].
Proof.
  unfold AgentMember_init.
  destruct (load_identity f) as [i|]; [|discriminate].
  destruct (subscript i "private_key_bytes"); [|discriminate].
  destruct (subscript i "public_key_bytes"); [|discriminate].
  destruct (subscript i "agent_id"); [|discriminate].
  intros [= <-]. now repeat split.
Qed.

Lemma member_of_inv (d : AgentDef) (m : AgentMember) :
  member_of d = Ok m ->
  PyDict.get "name" d = Some (name m)
  /\ name m = def_name d /\ previous_hash m = None /\ _events m = [].
Proof.
  unfold member_of, def_name, subscript.
  destruct (PyDict.get "name" d) as [n|]; [|discriminate].
  destruct (PyDict.get "identity_file" d) as [f|]; [|discriminate].
  intros H. apply member_init_inv in H. destruct H as (<- & H).
  split; [reflexivity | split; [reflexivity | exact H]].
Qed.

(** One round of the registry loop. *)
Lemma register_cons (d : AgentDef) (agents : list AgentDef)
    (reg : PyDict.t AgentMember) :
  register (d :: agents) reg
  = match member_of d with
    | Raise e => Raise e
    | Ok m => register agents (PyDict.set (name m) m reg)
    end.
Proof.
  cbn [register]. unfold member_of, subscript.
  destruct (PyDict.get "name" d) as [n|]; [|reflexivity].
  destruct (PyDict.get "identity_file" d) as [f|]; [|reflexivity].
  destruct (AgentMember_init n f) as [m|] eqn:E; [|reflexivity].
  apply member_init_inv in E. destruct E as (-> & _). reflexivity.
Qed.

(** A freshly constructed session: every log is empty and every chain head
    is unset. *)
Lemma init_registry_fresh (agents : list AgentDef)
    (reg reg' : PyDict.t AgentMember) :
  register agents reg = Ok reg' ->
  (forall n a, PyDict.get n reg = Some a ->
     previous_hash a = None /\ _events a = []) ->
  forall n a,
    PyDict.get n reg' = Some a ->
    previous_hash a = None /\ _events a = [].
Proof.
  revert reg. induction agents as [|d agents IH]; intros reg E Hreg.
  - injection E as <-. exact Hreg.
  - rewrite register_cons in E.
    destruct (member_of d) as [m|] eqn:Em; [|discriminate].
    apply (IH _ E). intros n a. rewrite get_set.
    destruct (String.eqb (name m) n); [|apply Hreg].
    intros [= <-]. apply member_of_inv in Em. tauto.
Qed.

Lemma init_ok (agents : list AgentDef) (w w' : Env) (s : AgentSession) :
  AgentSession_init agents w = (Ok s, w') -> state_ok (mkState s w').
Proof.
  unfold AgentSession_init.
  destruct (List.length agents <? 2)%nat; [discriminate|].
  destruct (register agents PyDict.empty) as [reg|] eqn:E; [|discriminate].
  intros [= <- _] n a Ha. simpl in Ha.
  apply (init_registry_fresh _ _ _ E) in Ha; [|discriminate].
  destruct Ha as [Hp He]. unfold member_ok, chain_head.
  rewrite Hp, He. now split.
Qed.
End Chain.

(** ** What each method adds *)

Section Deltas.
Implicit Types (s : AgentSession) (d : Delta).

Lemma same_identity_refl (m : AgentMember) : same_identity m m.
Proof. now repeat split. Qed.

Lemma same_identity_trans (m1 m2 m3 : AgentMember) :
  same_identity m1 m2 -> same_identity m2 m3 -> same_identity m1 m3.
Proof.
  unfold same_identity. intros (?&?&?&?) (?&?&?&?). repeat split; congruence.
Qed.

Lemma adds_nothing s : adds nothing s s.
Proof.
  unfold adds. simpl. rewrite app_nil_r. repeat split; try reflexivity.
  intros n m Hm. exists m. rewrite app_nil_r.
  repeat split; auto using same_identity_refl.
Qed.

Lemma adds_plus d1 d2 s1 s2 s3 :
  adds d1 s1 s2 -> adds d2 s2 s3 -> adds (plus d1 d2) s1 s3.
Proof.
  intros (A1&A2&A3&A4&A5&A6) (B1&B2&B3&B4&B5&B6).
  unfold adds. simpl. repeat split; try congruence.
  - now rewrite B4, A4, app_assoc.
  - intros n m Hm. destruct (A6 n m Hm) as (m2&H2&I2&E2).
    destruct (B6 n m2 H2) as (m3&H3&I3&E3). exists m3.
    repeat split; try apply (same_identity_trans _ _ _ I2 I3); try assumption.
    now rewrite E3, E2, app_assoc.
Qed.

(** Rebinding a registered member to itself with one more event. *)
Lemma adds_assign s (ref : string) (m m' : AgentMember) (e : Event) :
  PyDict.get ref (_agents s) = Some m ->
  same_identity m m' ->
  _events m' = _events m ++ [e] ->
  adds (one_event ref e) s (set_agents s (PyDict.set ref m' (_agents s))).
Proof.
  intros Hm Hi He. unfold adds. simpl. rewrite app_nil_r.
  repeat split; try reflexivity.
  - apply keys_set_present. apply get_In in Hm.
    apply (in_map fst) in Hm. exact Hm.
  - intros n m0 Hm0. rewrite get_set.
    destruct (String.eqb_spec ref n) as [<-|Hne].
    + rewrite String.eqb_refl. exists m'.
      assert (m0 = m) by congruence. subst m0.
      split; [|split]; auto.
    + destruct (String.eqb_spec n ref) as [->|_]; [congruence|].
      exists m0. rewrite app_nil_r.
      repeat split; auto using same_identity_refl.
Qed.

Lemma adds_append_handshake s (h : HandshakeResult) :
  adds (one_handshake h) s
    (mkAgentSession (session_id s) (started_at s) (started s) (_agents s)
       (_handshakes s ++ [h])).
Proof.
  unfold adds. simpl. repeat split; try reflexivity.
  intros n m Hm. exists m. rewrite app_nil_r.
  repeat split; auto using same_identity_refl.
Qed.

Lemma adds_names_match d s s' :
  adds d s s' -> names_match (_agents s) -> names_match (_agents s').
Proof.
  intros (_&_&_&_&Hk&Hm) Hn n m' Hget.
  destruct (PyDict.get n (_agents s)) as [m|] eqn:E.
  - destruct (Hm n m E) as (m2&H2&(Hname&_)&_).
    assert (m2 = m') by congruence. subst m2.
    rewrite Hname. now apply Hn.
  - apply get_None_keys in E. rewrite <- Hk in E.
    apply get_In, (in_map fst) in Hget. contradiction.
Qed.

End Deltas.

(** ** Stepping through the monad *)

Section Steps.
Context {C : Collaborators}.

Lemma bind_ok {A B} (m : M A) (k : A -> M B) (st st' : State) (a : A) :
  m st = (Ok a, st') -> bind m k st = k a st'.
Proof. intros H. unfold bind. now rewrite H. Qed.

Lemma bind_raise {A B} (m : M A) (k : A -> M B) (st st' : State) (e : Exn) :
  m st = (Raise e, st') -> bind m k st = (Raise e, st').
Proof. intros H. unfold bind. now rewrite H. Qed.

Lemma require_started_ok (st : State) :
  started (self st) = true -> _require_started st = (Ok tt, st).
Proof.
  intros H. unfold _require_started, bind, get_self. now rewrite H.
Qed.

Lemma require_started_raise (st : State) :
  started (self st) = false -> _require_started st = (Raise RuntimeError, st).
Proof.
  intros H. unfold _require_started, bind, get_self. now rewrite H.
Qed.

Lemma get_agent_ok (n : string) (m : AgentMember) (st : State) :
  PyDict.get n (_agents (self st)) = Some m -> _get_agent n st = (Ok m, st).
Proof.
  intros H. unfold _get_agent, bind, get_self, PyDict.mem, deref.
  cbn. rewrite H. cbn. now rewrite H.
Qed.

Lemma get_agent_raise (n : string) (st : State) :
  PyDict.mem n (_agents (self st)) = false ->
  _get_agent n st = (Raise KeyError, st).
Proof. intros H. unfold _get_agent, bind, get_self. now rewrite H. Qed.

Lemma mem_get (V : Type) (k : string) (d : PyDict.t V) :
  PyDict.mem k d = true -> exists v, PyDict.get k d = Some v.
Proof.
  unfold PyDict.mem. destruct (PyDict.get k d) as [v|]; [|discriminate].
  now exists v.
Qed.

(** A stamp through a member reference: the event it returns and the state
    it leaves. *)
Lemma stamp_member_eq (ref event_type sid : string) (payload : Payload)
    (peer_id peer_signature : option string) (m : AgentMember) (st : State) :
  PyDict.get ref (_agents (self st)) = Some m ->
  let e :=
    stamp_event (tick (env st)) (private_key m) (agent_id m)
      (full_payload_of event_type payload sid peer_id peer_signature)
      (or_else (previous_hash m) "genesis") in
  call_member ref (fun this =>
    AgentMember_stamp this event_type payload sid peer_id peer_signature) st
  = (Ok e,
     mkState
       (set_agents (self st)
          (PyDict.set ref
             (mkAgentMember (name m) (private_key m) (public_key m)
                (agent_id m) (Some (compute_event_hash e)) (_events m ++ [e]))
             (_agents (self st))))
       (mkEnv (S (tick (env st))) (stored (env st) ++ [e])
          (files (env st)))).
Proof.
  intros H e. unfold call_member, bind, deref, get_env. now rewrite H.
Qed.

Lemma stamp_member_adds (ref event_type sid : string) (payload : Payload)
    (peer_id peer_signature : option string) (m : AgentMember) (st : State) :
  PyDict.get ref (_agents (self st)) = Some m ->
  exists st',
    call_member ref (fun this =>
      AgentMember_stamp this event_type payload sid peer_id peer_signature) st
    = (Ok (stamp_event (tick (env st)) (private_key m) (agent_id m)
             (full_payload_of event_type payload sid peer_id peer_signature)
             (or_else (previous_hash m) "genesis")), st')
    /\ tick (env st') = S (tick (env st))
    /\ adds (one_event ref
               (stamp_event (tick (env st)) (private_key m) (agent_id m)
                  (full_payload_of event_type payload sid peer_id
                     peer_signature)
                  (or_else (previous_hash m) "genesis")))
         (self st) (self st').
Proof.
  intros H. eexists. split; [now apply stamp_member_eq|].
  split; [reflexivity|]. simpl.
  apply adds_assign with (m := m); [exact H | | reflexivity].
  now repeat split.
Qed.
End Steps.

(** ** Payloads *)

Section Payloads.
Context {C : Collaborators}.

Lemma endswith_app (s suffix : string) :
  endswith (s ++ suffix)%string suffix = true.
Proof.
  induction s as [|c s IH]; simpl.
  - destruct suffix; simpl; rewrite ?Ascii.eqb_refl, ?String.eqb_refl;
      reflexivity.
  - rewrite IH. apply orb_true_r.
Qed.

Lemma verbatim_stored_key (key : string) :
  verbatim_key (stored_key key) = true.
Proof.
  unfold stored_key. destruct (verbatim_key key) eqn:E; [exact E|].
  unfold verbatim_key. now rewrite endswith_app.
Qed.

Lemma keys_set_incl (V : Type) (k x : string) (v : V) (d : PyDict.t V) :
  In x (PyDict.keys (PyDict.set k v d)) -> x = k \/ In x (PyDict.keys d).
Proof.
  destruct (in_dec string_dec k (PyDict.keys d)) as [Hin|Hout].
  - rewrite keys_set_present by assumption. now right.
  - rewrite keys_set_absent by assumption. rewrite in_app_iff.
    simpl. intuition.
Qed.

Lemma safe_payload_of_fold (payload : Payload) :
  safe_payload_of payload = fold_left redact_step payload PyDict.empty.
Proof.
  unfold safe_payload_of, PyDict.items. generalize (@PyDict.empty Value).
  induction payload as [|[k v] r IH]; intros acc; simpl; [reflexivity|].
  rewrite IH. f_equal. unfold redact_step, stored_key, stored_value. simpl.
  fold (verbatim_key k). now destruct (verbatim_key k).
Qed.

Lemma redact_keys (l : list (string * Value)) (acc : Payload) (k : string) :
  (forall x, In x (PyDict.keys acc) -> verbatim_key x = true) ->
  In k (PyDict.keys (fold_left redact_step l acc)) -> verbatim_key k = true.
Proof.
  revert acc. induction l as [|kv l IH]; intros acc Hacc; simpl.
  - apply Hacc.
  - apply IH. intros x Hx. apply keys_set_incl in Hx.
    destruct Hx as [->|Hx]; [apply verbatim_stored_key | now apply Hacc].
Qed.

(** Every key of the redacted payload ends in [_hash] or [_id]. *)
Lemma safe_payload_keys (payload : Payload) (k : string) :
  In k (PyDict.keys (safe_payload_of payload)) -> verbatim_key k = true.
Proof.
  rewrite safe_payload_of_fold. apply redact_keys. intros x [].
Qed.

Lemma safe_payload_raw_absent (payload : Payload) (k : string) :
  verbatim_key k = false -> PyDict.get k (safe_payload_of payload) = None.
Proof.
  intros Hk. apply get_None_keys. intros Hin.
  apply safe_payload_keys in Hin. congruence.
Qed.

Lemma redact_untouched (l : list (string * Value)) (acc : Payload)
    (t : string) :
  (forall kv, In kv l -> stored_key (fst kv) <> t) ->
  PyDict.get t (fold_left redact_step l acc) = PyDict.get t acc.
Proof.
  revert acc. induction l as [|kv l IH]; intros acc Hl; simpl.
  - reflexivity.
  - rewrite IH by (intros kv' H'; apply Hl; now right).
    unfold redact_step. rewrite get_set.
    destruct (String.eqb_spec (stored_key (fst kv)) t) as [E|_];
      [|reflexivity].
    exfalso. apply (Hl kv); [now left | exact E].
Qed.

(** The last field stored under a key is the one the redacted payload
    holds. *)
Lemma safe_payload_last_write (before after : list (string * Value))
    (k : string) (v : Value) :
  (forall kv, In kv after -> stored_key (fst kv) <> stored_key k) ->
  PyDict.get (stored_key k) (safe_payload_of (before ++ (k, v) :: after))
  = Some (stored_value k v).
Proof.
  intros Hafter. rewrite safe_payload_of_fold, fold_left_app. simpl.
  rewrite redact_untouched by assumption.
  unfold redact_step. simpl. apply get_set_same.
Qed.

(** Lookup in the payload that [AgentMember.stamp] signs: the fields it
    writes win over the caller's. *)
Lemma full_payload_get (k event_type sid : string) (payload : Payload)
    (peer_id peer_signature : option string) :
  PyDict.get k (full_payload_of event_type payload sid peer_id peer_signature)
  = if String.eqb "peer_signature" k && truthy peer_signature
    then Some (VStr (the_str peer_signature))
    else if String.eqb "peer_agent_id" k && truthy peer_id
    then Some (VStr (the_str peer_id))
    else if String.eqb "aiss_profile" k then Some (VStr "AISS-1")
    else if String.eqb "session_id" k then Some (VStr sid)
    else if String.eqb "event_type" k then Some (VStr event_type)
    else PyDict.get k payload.
Proof.
  unfold full_payload_of.
  destruct (truthy peer_signature), (truthy peer_id);
    rewrite ?andb_true_r, ?andb_false_r, ?get_set; reflexivity.
Qed.

Lemma not_In_eqb (k : string) (l : list string) (x : string) :
  ~ In k l -> In x l -> String.eqb x k = false.
Proof.
  intros Hk Hx. apply String.eqb_neq. intros ->. contradiction.
Qed.

(** A key that is not among the session's own fields is looked up in the
    caller's part of the payload. *)
Lemma full_payload_get_other (k event_type sid : string) (payload : Payload)
    (peer_id peer_signature : option string) :
  ~ In k ["event_type"; "session_id"; "aiss_profile"; "peer_agent_id";
          "peer_signature"] ->
  PyDict.get k (full_payload_of event_type payload sid peer_id peer_signature)
  = PyDict.get k payload.
Proof.
  intros Hk. rewrite full_payload_get.
  repeat match goal with
  | |- context [String.eqb ?a k] =>
      rewrite (not_In_eqb k _ a Hk) by (simpl; tauto)
  end.
  reflexivity.
Qed.
End Payloads.

(** ** AgentSession.stamp, case by case *)

Section Stamp.
Context {C : Collaborators}.

Lemma truthy_Some (p : string) : p <> "" -> truthy (Some p) = true.
Proof.
  intros H. unfold truthy. apply String.eqb_neq in H. now rewrite H.
Qed.

(** Before the session is started every stamp is refused. *)
Lemma stamp_not_started agent_name event_type payload peer (st : State) :
  started (self st) = false ->
  AgentSession_stamp agent_name event_type payload peer st
  = (Raise RuntimeError, st).
Proof.
  intros H. unfold AgentSession_stamp.
  now rewrite (bind_raise _ _ _ _ _ (require_started_raise _ H)).
Qed.

(** An unknown acting agent: nothing is written. *)
Lemma stamp_unknown_agent agent_name event_type payload peer (st : State) :
  started (self st) = true ->
  PyDict.mem agent_name (_agents (self st)) = false ->
  AgentSession_stamp agent_name event_type payload peer st
  = (Raise KeyError, st).
Proof.
  intros Hs Ha. unfold AgentSession_stamp.
  rewrite (bind_ok _ _ _ _ _ (require_started_ok _ Hs)).
  now rewrite (bind_raise _ _ _ _ _ (get_agent_raise _ _ Ha)).
Qed.

(** An unknown peer: nothing is written, on either side. *)
Lemma stamp_unknown_peer agent_name event_type payload (p : string)
    (st : State) :
  started (self st) = true ->
  PyDict.mem agent_name (_agents (self st)) = true ->
  p <> "" ->
  PyDict.mem p (_agents (self st)) = false ->
  AgentSession_stamp agent_name event_type payload (Some p) st
  = (Raise KeyError, st).
Proof.
  intros Hs Ha Hp Hb. destruct (mem_get _ _ _ Ha) as [ma Hma].
  unfold AgentSession_stamp.
  rewrite (bind_ok _ _ _ _ _ (require_started_ok _ Hs)).
  rewrite (bind_ok _ _ _ _ _ (get_agent_ok _ _ _ Hma)).
  rewrite (bind_ok get_self _ st st (self st) eq_refl).
  rewrite (truthy_Some _ Hp). cbn [the_str].
  now rewrite (bind_raise _ _ _ _ _ (get_agent_raise _ _ Hb)).
Qed.

(** A unilateral stamp is one stamp on the acting agent's chain. *)
Lemma stamp_unilateral agent_name event_type payload peer
    (ma : AgentMember) (st : State) :
  started (self st) = true ->
  PyDict.get agent_name (_agents (self st)) = Some ma ->
  truthy peer = false ->
  let e :=
    stamp_event (tick (env st)) (private_key ma) (agent_id ma)
      (full_payload_of event_type (safe_payload_of payload)
         (session_id (self st)) None None)
      (or_else (previous_hash ma) "genesis") in
  exists st',
    AgentSession_stamp agent_name event_type payload peer st = (Ok e, st')
    /\ adds (one_event agent_name e) (self st) (self st').
Proof.
  intros Hs Hma Hp e. unfold AgentSession_stamp.
  rewrite (bind_ok _ _ _ _ _ (require_started_ok _ Hs)).
  rewrite (bind_ok _ _ _ _ _ (get_agent_ok _ _ _ Hma)).
  rewrite (bind_ok get_self _ st st (self st) eq_refl).
  rewrite Hp.
  destruct (stamp_member_adds agent_name event_type (session_id (self st))
              (safe_payload_of payload) None None ma st Hma)
    as (st' & E & _ & A).
  exists st'. split; [exact E | exact A].
Qed.

(** A co-signed stamp is one clock reading and two stamps: the initiator's,
    then the responder's, which embeds the initiator's signature. *)
Lemma stamp_cosigned agent_name event_type payload (p : string)
    (ma mb : AgentMember) (st : State) :
  started (self st) = true ->
  PyDict.get agent_name (_agents (self st)) = Some ma ->
  p <> "" ->
  PyDict.get p (_agents (self st)) = Some mb ->
  let ih := interaction_hash_of ma mb (tick (env st)) in
  let ea :=
    stamp_event (S (tick (env st))) (private_key ma) (agent_id ma)
      (full_payload_of event_type (side_payload "initiator" ih payload)
         (session_id (self st)) (Some (agent_id mb)) None)
      (or_else (previous_hash ma) "genesis") in
  exists (prev_b : string) (st' : State),
    let eb :=
      stamp_event (S (S (tick (env st)))) (private_key mb) (agent_id mb)
        (full_payload_of (event_type ++ "_received")%string
           (side_payload "responder" ih payload)
           (session_id (self st)) (Some (agent_id ma))
           (Some (ev_signature ea)))
        prev_b in
    AgentSession_stamp agent_name event_type payload (Some p) st = (Ok ea, st')
    /\ adds (plus (one_event agent_name ea) (one_event p eb))
         (self st) (self st').
Proof.
  intros Hs Hma Hp Hmb ih ea. unfold AgentSession_stamp.
  rewrite (bind_ok _ _ _ _ _ (require_started_ok _ Hs)).
  rewrite (bind_ok _ _ _ _ _ (get_agent_ok _ _ _ Hma)).
  rewrite (bind_ok get_self _ st st (self st) eq_refl).
  rewrite (truthy_Some _ Hp). cbn [the_str].
  rewrite (bind_ok _ _ _ _ _ (get_agent_ok _ _ _ Hmb)).
  rewrite (bind_ok time_now _ st _ _ eq_refl).
  set (st1 := mkState (self st) _).
  destruct (stamp_member_adds agent_name event_type (session_id (self st))
              (side_payload "initiator" ih payload)
              (Some (agent_id mb)) None ma st1 Hma)
    as (st2 & E2 & T2 & A2).
  unfold side_payload, ih, interaction_hash_of in E2.
  rewrite (bind_ok _ _ _ _ _ E2). fold ih. fold (side_payload "initiator" ih payload).
  destruct A2 as (A21&A22&A23&A24&A25&A26).
  destruct (A26 p mb Hmb) as (mb2 & Hmb2 & (I1&I2&I3&I4) & _).
  destruct (stamp_member_adds p (event_type ++ "_received")%string
              (session_id (self st))
              (side_payload "responder" ih payload)
              (Some (agent_id ma)) (Some (ev_signature ea)) mb2 st2 Hmb2)
    as (st3 & E3 & T3 & A3).
  unfold side_payload, ih, interaction_hash_of in E3.
  exists (or_else (previous_hash mb2) "genesis"), st3. cbn zeta.
  split.
  - fold ea in E3. unfold ea, ih, interaction_hash_of, side_payload in *.
    now rewrite (bind_ok _ _ _ _ _ E3).
  - apply adds_plus with (s2 := self st2).
    + unfold adds. repeat split; assumption.
    + rewrite T2, I2, I4 in A3. exact A3.
Qed.
End Stamp.

(** ** Handshakes *)

Section Handshake.
Context {C : Collaborators}.

(** One pairwise handshake: one co-signed event on each side, each naming
    the other agent, and a record of the pair. *)
Lemma handshake_pair_spec (agent_a agent_b : string) (ma mb : AgentMember)
    (st : State) :
  PyDict.get agent_a (_agents (self st)) = Some ma ->
  PyDict.get agent_b (_agents (self st)) = Some mb ->
  exists (h : HandshakeResult) (ea eb : Event) (st' : State),
    _handshake_pair agent_a agent_b st = (Ok h, st')
    /\ hs_agent_a h = name ma /\ hs_agent_b h = name mb
    /\ hs_agent_a_id h = agent_id ma /\ hs_agent_b_id h = agent_id mb
    /\ hs_session_id h = session_id (self st)
    /\ hs_event_a_hash h = compute_event_hash ea
    /\ hs_event_b_hash h = compute_event_hash eb
    /\ field "peer_name" ea = Some (VStr (name mb))
    /\ field "peer_name" eb = Some (VStr (name ma))
    /\ field "session_id" ea = Some (VStr (session_id (self st)))
    /\ field "session_id" eb = Some (VStr (session_id (self st)))
    /\ adds (plus (one_event agent_a ea) (one_event agent_b eb))
         (self st) (self st').
Proof.
  intros Hma Hmb.
  unfold _handshake_pair, bind, get_self, deref, fresh, get_env, put_env,
    assign, time_now, ret. cbn.
  rewrite Hma, Hmb. cbn. rewrite Hma. cbn.
  match goal with
  | |- context [PyDict.set agent_a ?a1 _] => set (ma1 := a1)
  end.
  match goal with
  | ma1 := mkAgentMember _ _ _ _ _ (_ ++ [?e]) |- _ => set (ea := e) in *
  end.
  assert (Hb2 : exists mb2,
             PyDict.get agent_b (PyDict.set agent_a ma1 (_agents (self st)))
             = Some mb2 /\ same_identity mb mb2).
  { rewrite get_set. destruct (String.eqb_spec agent_a agent_b) as [E|_].
    - exists ma1. split; [reflexivity|]. subst agent_b.
      assert (mb = ma) by congruence. subst mb. now repeat split.
    - exists mb. split; [exact Hmb | apply same_identity_refl]. }
  destruct Hb2 as (mb2 & Hmb2 & (I1 & I2 & I3 & I4)).
  rewrite Hmb2. cbn.
  match goal with
  | |- context [PyDict.set agent_b ?b1 _] => set (mb1 := b1)
  end.
  match goal with
  | mb1 := mkAgentMember _ _ _ _ _ (_ ++ [?e]) |- _ => set (eb := e) in *
  end.
  eexists _, ea, eb, _. split; [reflexivity|]. cbn.
  repeat match goal with |- _ /\ _ => split end;
    try reflexivity; try assumption.
  - apply get_set_same.
  - apply get_set_same.
  - now rewrite get_set, get_set_same.
  - now rewrite get_set, get_set_same.
  - apply adds_plus
      with (s2 := set_agents (self st)
                    (PyDict.set agent_a ma1 (_agents (self st)))).
    + apply adds_assign with (m := ma);
        [exact Hma | now repeat split | reflexivity].
    + apply (adds_assign
               (set_agents (self st)
                  (PyDict.set agent_a ma1 (_agents (self st))))
               agent_b mb2 mb1 eb Hmb2); [now repeat split | reflexivity].
Qed.
End Handshake.

(** ** Loops *)

Section Loops.
Context {C : Collaborators}.

Lemma for_app {A} (l1 l2 : list A) (body : A -> M unit) (st : State) :
  for_ (l1 ++ l2) body st = (for_ l1 body ;; for_ l2 body) st.
Proof.
  revert st. induction l1 as [|x l1 IH]; intros st; simpl.
  - reflexivity.
  - unfold bind. destruct (body x st) as [[[]|e] st1]; [|reflexivity].
    rewrite IH. reflexivity.
Qed.

Lemma for_map {A B} (f : A -> B) (l : list A) (body : B -> M unit)
    (st : State) :
  for_ (map f l) body st = for_ l (fun x => body (f x)) st.
Proof.
  revert st. induction l as [|x l IH]; intros st; simpl; [reflexivity|].
  unfold bind. destruct (body (f x) st) as [[[]|e] st1]; [apply IH|reflexivity].
Qed.

Lemma for_ext_in {A} (l : list A) (body body' : A -> M unit) (st : State) :
  (forall x st, In x l -> body x st = body' x st) ->
  for_ l body st = for_ l body' st.
Proof.
  revert st. induction l as [|x l IH]; intros st H; simpl; [reflexivity|].
  unfold bind. rewrite (H x st (or_introl eq_refl)).
  destruct (body' x st) as [[[]|e] st1]; [|reflexivity].
  apply IH. intros y st2 Hy. apply H. now right.
Qed.

(** Two nested loops run their body over the pairs, outer index first. *)
Lemma for_nested {A B} (l : list A) (inner : A -> list B)
    (body : A -> B -> M unit) (st : State) :
  for_ l (fun i => for_ (inner i) (body i)) st
  = for_ (flat_map (fun i => map (pair i) (inner i)) l)
      (fun p => body (fst p) (snd p)) st.
Proof.
  revert st. induction l as [|i l IH]; intros st; simpl; [reflexivity|].
  rewrite for_app. unfold bind. rewrite for_map. simpl.
  destruct (for_ (inner i) (fun x => body i x) st) as [[[]|e] st1] eqn:E.
  - replace (for_ (inner i) (body i) st) with (@Ok unit tt, st1)
      by (rewrite <- E; reflexivity).
    apply IH.
  - replace (for_ (inner i) (body i) st) with (@Raise unit e, st1)
      by (rewrite <- E; reflexivity).
    reflexivity.
Qed.

(** A loop whose every round adds something adds the sum of the rounds. *)
Lemma for_adds {A} (R : A -> Delta -> Prop) (Inv : AgentSession -> Prop)
    (l : list A) (body : A -> M unit) :
  (forall d s s', adds d s s' -> Inv s -> Inv s') ->
  (forall x st, In x l -> Inv (self st) ->
     exists st' d, body x st = (Ok tt, st')
                   /\ adds d (self st) (self st') /\ R x d) ->
  forall st, Inv (self st) ->
    exists st' ds, for_ l body st = (Ok tt, st')
                   /\ Forall2 R l ds
                   /\ adds (total ds) (self st) (self st').
Proof.
  intros Hinv. induction l as [|x l IH]; intros Hbody st Hst.
  - exists st, []. simpl.
    split; [reflexivity | split; [constructor | apply adds_nothing]].
  - destruct (Hbody x st (or_introl eq_refl) Hst) as (st1 & d & E & Ad & HR).
    destruct (IH (fun y st2 Hy => Hbody y st2 (or_intror Hy)) st1
                (Hinv _ _ _ Ad Hst)) as (st2 & ds & E2 & F & A2).
    exists st2, (d :: ds). simpl. rewrite (bind_ok _ _ _ _ _ E).
    split; [exact E2 | split; [now constructor|]].
    now apply adds_plus with (s2 := self st1).
Qed.

(** *** Index pairs and name pairs *)

Lemma map_nth_seq_app (p r : list string) :
  map (fun j => nth j (p ++ r) "") (seq (List.length p) (List.length r)) = r.
Proof.
  revert p. induction r as [|y r IH]; intros p; simpl; [reflexivity|].
  rewrite nth_middle. f_equal.
  specialize (IH (p ++ [y])). rewrite <- app_assoc, length_app in IH.
  simpl in IH. rewrite Nat.add_1_r in IH. exact IH.
Qed.

Lemma index_pairs_from (pre suf : list string) :
  map (fun p => (nth (fst p) (pre ++ suf) "", nth (snd p) (pre ++ suf) ""))
    (flat_map
       (fun i =>
          map (pair i) (seq (i + 1) (List.length (pre ++ suf) - (i + 1))))
       (seq (List.length pre) (List.length suf)))
  = pairs suf.
Proof.
  revert pre. induction suf as [|x r IH]; intros pre; simpl; [reflexivity|].
  rewrite map_app, map_map. simpl. f_equal.
  - rewrite nth_middle. rewrite <- (map_map (fun j => nth j (pre ++ x :: r) "") (pair x)).
    f_equal.
    replace (List.length (pre ++ x :: r) - (List.length pre + 1))
      with (List.length r) by (rewrite length_app; simpl; lia).
    replace (pre ++ x :: r) with ((pre ++ [x]) ++ r)
      by (now rewrite <- app_assoc).
    replace (List.length pre + 1) with (List.length (pre ++ [x]))
      by (rewrite length_app; reflexivity).
    apply map_nth_seq_app.
  - specialize (IH (pre ++ [x])).
    assert (E1 : (pre ++ [x]) ++ r = pre ++ x :: r)
      by (now rewrite <- app_assoc).
    assert (E2 : List.length (pre ++ [x]) = S (List.length pre))
      by (rewrite length_app; simpl; lia).
    rewrite E1, E2 in IH. exact IH.
Qed.

Lemma index_pairs_names (names : list string) :
  map (fun p => (nth (fst p) names "", nth (snd p) names ""))
    (index_pairs (List.length names))
  = pairs names.
Proof. exact (index_pairs_from [] names). Qed.

Lemma index_pairs_bound (n i j : nat) :
  In (i, j) (index_pairs n) -> i < n /\ j < n.
Proof.
  unfold index_pairs. rewrite in_flat_map. intros (i' & Hi & Hj).
  apply in_map_iff in Hj. destruct Hj as (j' & [= -> ->] & Hj).
  apply in_seq in Hi. apply in_seq in Hj. lia.
Qed.

Lemma item_ok (l : list string) (i : nat) (st : State) :
  i < List.length l -> item l i st = (Ok (nth i l ""), st).
Proof.
  intros H. unfold item. now rewrite (nth_error_nth' l "" H).
Qed.

Lemma pairs_length (l : list string) :
  2 * List.length (pairs l) = List.length l * (List.length l - 1).
Proof.
  induction l as [|x l IH]; simpl; [reflexivity|].
  rewrite length_app, length_map, Nat.sub_0_r. nia.
Qed.
End Loops.

(** ** Summing what the rounds of [start] add *)

Section Totals.

Lemma stamps_one_absent (P : Event -> Prop) (l : list string)
    (ds : list Delta) (n : string) :
  Forall2 (stamps_one P) l ds -> ~ In n l -> new_events (total ds) n = [].
Proof.
  induction 1 as [|x d l ds (e & -> & _) _ IH]; intros Hn; simpl.
  - reflexivity.
  - rewrite IH by (simpl in Hn; tauto).
    destruct (String.eqb_spec n x) as [->|_]; [|reflexivity].
    exfalso. apply Hn. now left.
Qed.

Lemma stamps_one_total (P : Event -> Prop) (l : list string)
    (ds : list Delta) (n : string) :
  Forall2 (stamps_one P) l ds -> NoDup l -> In n l ->
  exists e, new_events (total ds) n = [e] /\ P e.
Proof.
  induction 1 as [|x d l ds (e & -> & He) F IH]; intros Hnd Hn.
  - destruct Hn.
  - inversion Hnd as [|? ? Hx Hl]; subst. simpl.
    destruct (String.eqb_spec n x) as [->|Hne].
    + exists e. split; [|exact He].
      now rewrite (stamps_one_absent P l ds x F Hx).
    + destruct Hn as [Hn|Hn]; [congruence|].
      destruct (IH Hl Hn) as (e' & E' & He'). exists e'. now split.
Qed.

Lemma stamps_one_handshakes (P : Event -> Prop) (l : list string)
    (ds : list Delta) :
  Forall2 (stamps_one P) l ds -> new_handshakes (total ds) = [].
Proof.
  induction 1 as [|x d l ds (e & -> & _) _ IH]; simpl; [reflexivity|].
  exact IH.
Qed.

Lemma shakes_events (ps : list (string * string)) (ds : list Delta)
    (n : string) :
  Forall2 shakes ps ds ->
  Forall2 names_peer (new_events (total ds) n) (peers_of n ps).
Proof.
  induction 1 as [|[a b] d ps ds (h & ea & eb & -> & _ & _ & Ha & Hb) _ IH];
    simpl.
  - constructor.
  - rewrite app_nil_r. simpl in Ha, Hb.
    apply Forall2_app; [|exact IH].
    apply Forall2_app.
    + destruct (String.eqb n a); repeat constructor. exact Ha.
    + destruct (String.eqb n b); repeat constructor. exact Hb.
Qed.

Lemma shakes_handshakes (ps : list (string * string)) (ds : list Delta) :
  Forall2 shakes ps ds ->
  map (fun h => (hs_agent_a h, hs_agent_b h)) (new_handshakes (total ds))
  = ps.
Proof.
  induction 1 as [|[a b] d ps ds (h & ea & eb & -> & Ha & Hb & _) _ IH];
    simpl; [reflexivity|].
  simpl in Ha, Hb. now rewrite Ha, Hb, IH.
Qed.

(** *** Whom an agent meets *)

Lemma others_absent (n : string) (l : list string) :
  ~ In n l -> others n l = l.
Proof.
  induction l as [|x l IH]; simpl; intros H; [reflexivity|].
  destruct (String.eqb_spec x n) as [->|_]; simpl.
  - exfalso. apply H. now left.
  - rewrite IH; [reflexivity | tauto].
Qed.

Lemma others_length (n : string) (l : list string) :
  NoDup l -> In n l -> S (List.length (others n l)) = List.length l.
Proof.
  induction l as [|x l IH]; simpl; intros Hnd Hn; [destruct Hn|].
  inversion Hnd as [|? ? Hx Hl]; subst.
  destruct (String.eqb_spec x n) as [->|Hne]; simpl.
  - now rewrite others_absent.
  - destruct Hn as [Hn|Hn]; [congruence|]. now rewrite IH.
Qed.

Lemma peers_of_app (n : string) (p q : list (string * string)) :
  peers_of n (p ++ q) = peers_of n p ++ peers_of n q.
Proof. unfold peers_of. apply flat_map_app. Qed.

Lemma peers_of_absent (n : string) (l : list string) :
  ~ In n l -> peers_of n (pairs l) = [].
Proof.
  induction l as [|x l IH]; simpl; intros H; [reflexivity|].
  rewrite peers_of_app, IH by tauto. rewrite app_nil_r.
  assert (Hx : String.eqb n x = false)
    by (apply String.eqb_neq; intros ->; apply H; now left).
  assert (Hl : ~ In n l) by tauto. clear IH H.
  induction l as [|y l IH]; simpl; [reflexivity|].
  rewrite Hx. simpl.
  destruct (String.eqb_spec n y) as [->|_].
  - exfalso. apply Hl. now left.
  - simpl. apply IH. simpl in Hl. tauto.
Qed.

(** The first agent of a list meets all the others, in order. *)
Lemma peers_of_first (x : string) (l : list string) :
  ~ In x l -> peers_of x (map (pair x) l) = l.
Proof.
  induction l as [|y l IH]; simpl; intros H; [reflexivity|].
  rewrite String.eqb_refl. simpl.
  destruct (String.eqb_spec x y) as [->|_].
  - exfalso. apply H. now left.
  - simpl. f_equal. apply IH. tauto.
Qed.

(** A later agent meets the first one once. *)
Lemma peers_of_later (n x : string) (l : list string) :
  n <> x -> NoDup l -> In n l -> peers_of n (map (pair x) l) = [x].
Proof.
  intros Hne. apply String.eqb_neq in Hne.
  induction l as [|y l IH]; simpl; intros Hnd Hn; [destruct Hn|].
  inversion Hnd as [|? ? Hy Hl]; subst. rewrite Hne. simpl.
  destruct (String.eqb_spec n y) as [->|Hny]; simpl.
  - f_equal. clear IH Hn Hnd Hl.
    induction l as [|z l IH]; simpl; [reflexivity|].
    rewrite Hne. simpl.
    destruct (String.eqb_spec y z) as [->|_].
    + exfalso. apply Hy. now left.
    + simpl. apply IH. simpl in Hy. tauto.
  - destruct Hn as [Hn|Hn]; [congruence|]. now apply IH.
Qed.

(** Along the pairs of [start], an agent meets every other agent once, in
    registration order. *)
Lemma peers_of_pairs (n : string) (l : list string) :
  NoDup l -> In n l -> peers_of n (pairs l) = others n l.
Proof.
  induction l as [|x l IH]; simpl; intros Hnd Hn; [destruct Hn|].
  inversion Hnd as [|? ? Hx Hl]; subst. rewrite peers_of_app.
  destruct (String.eqb_spec x n) as [->|Hne]; simpl.
  - rewrite peers_of_first, peers_of_absent, others_absent by assumption.
    apply app_nil_r.
  - destruct Hn as [Hn|Hn]; [congruence|].
    rewrite peers_of_later, IH by (assumption || congruence). reflexivity.
Qed.
End Totals.

(** ** AgentSession.start and AgentSession.end *)

Section StartEnd.
Context {C : Collaborators}.

Lemma stamped_as_fields (event_type : string) (e : Event) :
  stamp_event_keeps_payload ->
  stamped_as event_type e ->
  field "event_type" e = Some (VStr event_type)
  /\ field "peer_name" e = None.
Proof.
  intros Hpayload (n & sk & id & payload & sid & prev & -> & Hp).
  unfold field. rewrite Hpayload. split.
  - now rewrite full_payload_get.
  - rewrite full_payload_get_other; [exact Hp|].
    simpl. intuition discriminate.
Qed.

Lemma In_keys_get (V : Type) (k : string) (d : PyDict.t V) :
  In k (PyDict.keys d) -> exists v, PyDict.get k d = Some v.
Proof. intros H. apply mem_get. now apply mem_keys. Qed.

Lemma pairs_In (a b : string) (l : list string) :
  In (a, b) (pairs l) -> In a l /\ In b l.
Proof.
  induction l as [|x l IH]; simpl; [tauto|].
  rewrite in_app_iff, in_map_iff. intros [(y & [= -> ->] & Hy)|H].
  - tauto.
  - apply IH in H. tauto.
Qed.

Lemma adds_with_flags (d : Delta) (s s' : AgentSession) (t : option Z)
    (b : bool) :
  adds d s s' ->
  adds d
    (mkAgentSession (session_id s) t b (_agents s) (_handshakes s))
    (mkAgentSession (session_id s') t b (_agents s') (_handshakes s')).
Proof.
  intros (A1&A2&A3&A4&A5&A6). unfold adds. simpl.
  repeat split; assumption.
Qed.

(** One round of the first loop of [start]. *)
Lemma start_round (names : list string) (x : string) (st : State) :
  In x names ->
  PyDict.keys (_agents (self st)) = names ->
  exists st' d,
    (s <- get_self ;;
     call_member x (fun this =>
       AgentMember_stamp this "session_start" (session_start_payload s)
         (session_id s) None None) ;;
     ret tt) st = (Ok tt, st')
    /\ adds d (self st) (self st')
    /\ stamps_one (stamped_as "session_start") x d.
Proof.
  intros Hx Hk. rewrite <- Hk in Hx.
  destruct (In_keys_get _ _ _ Hx) as [m Hm].
  rewrite (bind_ok get_self _ st st (self st) eq_refl).
  destruct (stamp_member_adds x "session_start" (session_id (self st))
              (session_start_payload (self st)) None None m st Hm)
    as (st' & E & _ & A).
  rewrite (bind_ok _ _ _ _ _ E). eexists st', _.
  split; [reflexivity | split; [exact A|]].
  eexists. split; [reflexivity|].
  eexists _, _, _, _, _, _. split; reflexivity.
Qed.

(** One round of the handshake loop of [start]. *)
Lemma handshake_round (names : list string) (p : string * string)
    (st : State) :
  In p (pairs names) ->
  PyDict.keys (_agents (self st)) = names
  /\ names_match (_agents (self st)) ->
  exists st' d,
    (handshake <- _handshake_pair (fst p) (snd p) ;;
     append_handshake handshake) st = (Ok tt, st')
    /\ adds d (self st) (self st')
    /\ shakes p d.
Proof.
  destruct p as [a b]. intros Hp [Hk Hn]. apply pairs_In in Hp.
  rewrite <- Hk in Hp. destruct Hp as [Ha Hb].
  destruct (In_keys_get _ _ _ Ha) as [ma Hma].
  destruct (In_keys_get _ _ _ Hb) as [mb Hmb].
  destruct (handshake_pair_spec a b ma mb st Hma Hmb)
    as (h & ea & eb & st1 & E & N1 & N2 & _ & _ & _ & _ & _ & P1 & P2 & _
        & _ & A).
  simpl fst. simpl snd. rewrite (bind_ok _ _ _ _ _ E).
  eexists _, _. split; [reflexivity|]. split.
  - apply adds_plus with (s2 := self st1); [exact A|].
    apply adds_append_handshake.
  - exists h, ea, eb. rewrite (Hn _ _ Hma) in *. rewrite (Hn _ _ Hmb) in *.
    simpl. repeat split; assumption.
Qed.

(** The nested handshake loops of [start] run one handshake per pair of
    names, in the order of [pairs]. *)
Lemma handshake_loops (names : list string) (st : State) :
  for_ (seq 0 (List.length names)) (fun i =>
    for_ (seq (i + 1) (List.length names - (i + 1))) (fun j =>
      agent_a <- item names i ;;
      agent_b <- item names j ;;
      handshake <- _handshake_pair agent_a agent_b ;;
      append_handshake handshake)) st
  = for_ (pairs names) (fun p =>
      handshake <- _handshake_pair (fst p) (snd p) ;;
      append_handshake handshake) st.
Proof.
  rewrite (for_nested (seq 0 (List.length names))
             (fun i => seq (i + 1) (List.length names - (i + 1)))
             (fun i j =>
                agent_a <- item names i ;;
                agent_b <- item names j ;;
                handshake <- _handshake_pair agent_a agent_b ;;
                append_handshake handshake)).
  fold (index_pairs (List.length names)).
  rewrite <- index_pairs_names, for_map.
  apply for_ext_in. intros [i j] st' Hij.
  apply index_pairs_bound in Hij. destruct Hij as [Hi Hj]. simpl.
  rewrite (bind_ok _ _ _ _ _ (item_ok names i st' Hi)).
  now rewrite (bind_ok _ _ _ _ _ (item_ok names j st' Hj)).
Qed.

(** [start] on a session that is not started: it returns, and the session
    is the old one with the start time set, one [session_start] event per
    agent, then one handshake per pair, and the started flag set. *)
Lemma start_spec (st : State) :
  started (self st) = false ->
  names_match (_agents (self st)) ->
  let names := PyDict.keys (_agents (self st)) in
  let t := Some (int_of_float (time_time (tick (env st)))) in
  exists st' d1s d2s,
    AgentSession_start st = (Ok tt, st')
    /\ Forall2 (stamps_one (stamped_as "session_start")) names d1s
    /\ Forall2 shakes (pairs names) d2s
    /\ adds (plus (total d1s) (total d2s))
         (mkAgentSession (session_id (self st)) t true (_agents (self st))
            (_handshakes (self st)))
         (self st').
Proof.
  intros Hs Hn names t. unfold AgentSession_start.
  rewrite (bind_ok get_self _ st st (self st) eq_refl), Hs.
  rewrite (bind_ok time_now _ st _ _ eq_refl).
  match goal with
  | |- bind (put_self ?s) _ ?st1 = _ /\ _ =>
      rewrite (bind_ok (put_self s) _ st1 _ tt eq_refl)
  | |- context [bind (put_self ?s) _ ?st1] =>
      rewrite (bind_ok (put_self s) _ st1 _ tt eq_refl)
  end.
  match goal with
  | |- context [bind (for_ _ _) _ ?x] => set (st2 := x)
  end.
  fold names.
  destruct (for_adds (stamps_one (stamped_as "session_start"))
              (fun s => PyDict.keys (_agents s) = names) names
              (fun agent =>
                 s <- get_self ;;
                 call_member agent (fun this =>
                   AgentMember_stamp this "session_start"
                     (session_start_payload s) (session_id s) None None) ;;
                 ret tt))
    with (st := st2) as (st3 & d1s & E1 & F1 & A1).
  { intros d s s' (_&_&_&_&Hk&_) H. congruence. }
  { intros x st0 Hx Hk. now apply start_round with (names := names). }
  { reflexivity. }
  rewrite (bind_ok _ _ _ _ _ E1).
  assert (Hinv3 : PyDict.keys (_agents (self st3)) = names
                  /\ names_match (_agents (self st3))).
  { split.
    - destruct A1 as (_&_&_&_&Hk&_). exact Hk.
    - apply (adds_names_match _ _ _ A1). exact Hn. }
  destruct (for_adds shakes
              (fun s => PyDict.keys (_agents s) = names
                        /\ names_match (_agents s))
              (pairs names)
              (fun p =>
                 handshake <- _handshake_pair (fst p) (snd p) ;;
                 append_handshake handshake))
    with (st := st3) as (st4 & d2s & E2 & F2 & A2).
  { intros d s s' A [Hk Hm]. split.
    - destruct A as (_&_&_&_&Hk'&_). congruence.
    - now apply (adds_names_match _ _ _ A). }
  { intros p st0 Hp Hinv. now apply handshake_round with (names := names). }
  { exact Hinv3. }
  rewrite <- handshake_loops in E2.
  rewrite (bind_ok _ _ _ _ _ E2).
  eexists _, d1s, d2s. split; [reflexivity|].
  split; [exact F1|]. split; [exact F2|].
  pose proof (adds_plus _ _ _ _ _ A1 A2) as A.
  assert (Ht : started_at (self st4) = t) by apply A.
  apply (adds_with_flags _ _ _ t true) in A.
  cbn [self]. rewrite Ht. exact A.
Qed.

(** [end] on a started session: it returns the summary, having stamped one
    [session_end] event per agent; the session object is otherwise as it
    was, so it is still started. *)
Lemma end_spec (st : State) (t0 : Z) :
  started (self st) = true ->
  started_at (self st) = Some t0 ->
  exists st' ds,
    AgentSession_end st = (Ok (summary (self st')), st')
    /\ Forall2 (stamps_one (stamped_as "session_end"))
         (PyDict.keys (_agents (self st))) ds
    /\ adds (total ds) (self st) (self st').
Proof.
  intros Hs Ht. unfold AgentSession_end.
  rewrite (bind_ok _ _ _ _ _ (require_started_ok _ Hs)).
  rewrite (bind_ok time_now _ st _ _ eq_refl).
  match goal with
  | |- context [bind get_self _ ?x] =>
      rewrite (bind_ok get_self _ x x (self st) eq_refl)
  end.
  rewrite Ht.
  match goal with
  | |- context [bind (for_ _ ?b) _ ?x] => set (st1 := x); set (body := b)
  end.
  destruct (for_adds (stamps_one (stamped_as "session_end"))
              (fun s => PyDict.keys (_agents s)
                        = PyDict.keys (_agents (self st)))
              (PyDict.keys (_agents (self st))) body)
    with (st := st1) as (st2 & ds & E & F & A).
  { intros d s s' (_&_&_&_&Hk&_) H. congruence. }
  { intros x st0 Hx Hk. rewrite <- Hk in Hx.
    destruct (In_keys_get _ _ _ Hx) as [m Hm]. unfold body.
    match goal with
    | |- context [AgentMember_stamp _ ?et ?pl ?sid None None] =>
        destruct (stamp_member_adds x et sid pl None None m st0 Hm)
          as (st' & E & _ & A)
    end.
    rewrite (bind_ok _ _ _ _ _ E). eexists st', _.
    split; [reflexivity | split; [exact A|]].
    eexists. split; [reflexivity|].
    eexists _, _, _, _, _, _. split; reflexivity. }
  { reflexivity. }
  rewrite (bind_ok _ _ _ _ _ E).
  exists st2, ds. split; [reflexivity | split; [exact F | exact A]].
Qed.
End StartEnd.

(** ** Construction *)

Section Construction.
Context {C : Collaborators}.

Lemma init_eq (agents : list AgentDef) (w : Env) :
  AgentSession_init agents w
  = if (List.length agents <? 2)%nat then (Raise ValueError, w)
    else
      match register agents PyDict.empty with
      | Raise e => (Raise e, mkEnv (S (tick w)) (stored w) (files w))
      | Ok reg =>
          (Ok (mkAgentSession
                 ("sess_" ++ substring 0 16 (uuid4_hex (tick w)))%string
                 None false reg []),
           mkEnv (S (tick w)) (stored w) (files w))
      end.
Proof. reflexivity. Qed.

(** What a construction that returns has built. *)
Lemma init_inv (agents : list AgentDef) (w w' : Env) (s : AgentSession) :
  AgentSession_init agents w = (Ok s, w') ->
  exists reg,
    register agents PyDict.empty = Ok reg
    /\ s = mkAgentSession
             ("sess_" ++ substring 0 16 (uuid4_hex (tick w)))%string
             None false reg []
    /\ w' = mkEnv (S (tick w)) (stored w) (files w)
    /\ (List.length agents <? 2)%nat = false.
Proof.
  rewrite init_eq. destruct (List.length agents <? 2)%nat; [discriminate|].
  destruct (register agents PyDict.empty) as [reg|]; [|discriminate].
  intros [= <- <-]. now exists reg.
Qed.

Lemma register_app (l1 l2 : list AgentDef) (reg : PyDict.t AgentMember) :
  register (l1 ++ l2) reg
  = match register l1 reg with
    | Raise e => Raise e
    | Ok reg1 => register l2 reg1
    end.
Proof.
  revert reg. induction l1 as [|d l1 IH]; intros reg; [reflexivity|].
  rewrite <- app_comm_cons, !register_cons.
  destruct (member_of d); [apply IH | reflexivity].
Qed.

(** The loop returns exactly when a member can be built from every
    definition. *)
Lemma register_is_ok (agents : list AgentDef) (reg : PyDict.t AgentMember) :
  is_ok (register agents reg)
  = forallb (fun d => is_ok (member_of d)) agents.
Proof.
  revert reg. induction agents as [|d agents IH]; intros reg; [reflexivity|].
  rewrite register_cons. cbn [forallb].
  destruct (member_of d); [apply IH | reflexivity].
Qed.

(** It raises what the first definition that fails raises. *)
Lemma register_first_error (before after : list AgentDef) (d : AgentDef)
    (e : Exn) (reg : PyDict.t AgentMember) :
  forallb (fun d => is_ok (member_of d)) before = true ->
  member_of d = Raise e ->
  register (before ++ d :: after) reg = Raise e.
Proof.
  intros Hb Hd. rewrite register_app.
  pose proof (register_is_ok before reg) as H. rewrite Hb in H.
  destruct (register before reg); [|discriminate].
  now rewrite register_cons, Hd.
Qed.

Lemma register_NoDup (agents : list AgentDef)
    (reg reg' : PyDict.t AgentMember) :
  register agents reg = Ok reg' ->
  NoDup (PyDict.keys reg) -> NoDup (PyDict.keys reg').
Proof.
  revert reg. induction agents as [|d agents IH]; intros reg E H.
  - now injection E as <-.
  - rewrite register_cons in E. destruct (member_of d); [|discriminate].
    apply (IH _ E). now apply keys_set_NoDup.
Qed.

Lemma register_names_match (agents : list AgentDef)
    (reg reg' : PyDict.t AgentMember) :
  register agents reg = Ok reg' ->
  names_match reg -> names_match reg'.
Proof.
  revert reg. induction agents as [|d agents IH]; intros reg E H.
  - now injection E as <-.
  - rewrite register_cons in E.
    destruct (member_of d) as [m|]; [|discriminate].
    apply (IH _ E). intros n m'. rewrite get_set.
    destruct (String.eqb_spec (name m) n) as [<-|_]; [|apply H].
    now intros [= <-].
Qed.

(** With pairwise distinct names the registry lists the agents in the order
    given. *)
Lemma register_keys (agents : list AgentDef)
    (reg reg' : PyDict.t AgentMember) :
  register agents reg = Ok reg' ->
  NoDup (PyDict.keys reg ++ map def_name agents) ->
  PyDict.keys reg' = PyDict.keys reg ++ map def_name agents.
Proof.
  revert reg. induction agents as [|d agents IH]; intros reg E H.
  - injection E as <-. simpl. now rewrite app_nil_r.
  - rewrite register_cons in E.
    destruct (member_of d) as [m|] eqn:Em; [|discriminate].
    apply member_of_inv in Em. destruct Em as (_ & Hn & _).
    cbn [map] in H |- *. rewrite <- Hn in H |- *.
    assert (Hd : ~ In (name m) (PyDict.keys reg)).
    { apply NoDup_remove_2 in H. rewrite in_app_iff in H. tauto. }
    rewrite (IH _ E); rewrite keys_set_absent by exact Hd.
    + now rewrite <- app_assoc.
    + rewrite <- app_assoc. exact H.
Qed.

(** Definitions with other names leave the entry of a name as it is. *)
Lemma register_get_other (agents : list AgentDef)
    (reg reg' : PyDict.t AgentMember) (n : string) :
  register agents reg = Ok reg' ->
  ~ In n (map def_name agents) ->
  PyDict.get n reg' = PyDict.get n reg.
Proof.
  revert reg. induction agents as [|d agents IH]; intros reg E H.
  - now injection E as <-.
  - rewrite register_cons in E.
    destruct (member_of d) as [m|] eqn:Em; [|discriminate].
    apply member_of_inv in Em. destruct Em as (_ & Hn & _).
    cbn [map] in H. rewrite (IH _ E) by (intros Hin; apply H; now right).
    rewrite get_set. destruct (String.eqb_spec (name m) n) as [Ex|_];
      [|reflexivity].
    exfalso. apply H. left. congruence.
Qed.

(** The value held under key [n] is the one built from the last definition
    named [n]. *)
Lemma register_last (before after : list AgentDef) (d : AgentDef)
    (reg reg' : PyDict.t AgentMember) :
  register (before ++ d :: after) reg = Ok reg' ->
  ~ In (def_name d) (map def_name after) ->
  exists m, member_of d = Ok m /\ PyDict.get (def_name d) reg' = Some m.
Proof.
  intros E H. rewrite register_app in E.
  destruct (register before reg) as [reg1|]; [|discriminate].
  rewrite register_cons in E.
  destruct (member_of d) as [m|] eqn:Em; [|discriminate].
  exists m. split; [reflexivity|].
  rewrite (register_get_other _ _ _ _ E H).
  apply member_of_inv in Em. destruct Em as (_ & <- & _).
  apply get_set_same.
Qed.

Lemma register_fresh (agents : list AgentDef)
    (reg reg' : PyDict.t AgentMember) :
  register agents reg = Ok reg' ->
  (forall n m, PyDict.get n reg = Some m ->
     previous_hash m = None /\ _events m = []) ->
  forall n m, PyDict.get n reg' = Some m ->
    previous_hash m = None /\ _events m = [].
Proof. apply init_registry_fresh. Qed.

(** *** Well-formed sessions *)

Lemma init_wf (agents : list AgentDef) (w w' : Env) (s : AgentSession) :
  AgentSession_init agents w = (Ok s, w') -> session_wf s.
Proof.
  intros H. destruct (init_inv _ _ _ _ H) as (reg & E & -> & _ & _).
  unfold session_wf. simpl. repeat split.
  - apply (register_names_match _ _ _ E). intros n m [=].
  - apply (register_NoDup _ _ _ E). constructor.
  - discriminate.
Qed.

Lemma adds_wf (d : Delta) (s s' : AgentSession) :
  adds d s s' -> session_wf s -> session_wf s'.
Proof.
  intros A (H1 & H2 & H3). pose proof A as (_&A2&A3&_&A5&_).
  repeat split.
  - now apply (adds_names_match _ _ _ A).
  - now rewrite A5.
  - rewrite A2, A3. exact H3.
Qed.

(** A stamp either raises and changes nothing, or returns and adds. *)
Lemma stamp_cases agent_name event_type payload peer (st : State) :
  (exists e,
     AgentSession_stamp agent_name event_type payload peer st = (Raise e, st))
  \/ (exists e d st',
        AgentSession_stamp agent_name event_type payload peer st = (Ok e, st')
        /\ adds d (self st) (self st')).
Proof.
  destruct (started (self st)) eqn:Hs.
  2:{ left. eexists. now apply stamp_not_started. }
  destruct (PyDict.mem agent_name (_agents (self st))) eqn:Ha.
  2:{ left. eexists. now apply stamp_unknown_agent. }
  destruct (mem_get _ _ _ Ha) as [ma Hma].
  destruct (truthy peer) eqn:Hp.
  2:{ right.
      destruct (stamp_unilateral agent_name event_type payload peer ma st
                  Hs Hma Hp) as (st' & E & A).
      eexists _, _, st'. split; [exact E | exact A]. }
  destruct peer as [p|]; [|discriminate].
  assert (Hne : p <> "").
  { intros ->. discriminate. }
  destruct (PyDict.mem p (_agents (self st))) eqn:Hb.
  2:{ left. eexists. now apply stamp_unknown_peer. }
  destruct (mem_get _ _ _ Hb) as [mb Hmb]. right.
  destruct (stamp_cosigned agent_name event_type payload p ma mb st
              Hs Hma Hne Hmb) as (prev_b & st' & E & A).
  eexists _, _, st'. split; [exact E | exact A].
Qed.

(** A dict built by a loop over the items of another dict holds, under each
    key, the value computed from that key's item. *)
Lemma comprehension_get (V W : Type) (f : string -> V -> W)
    (d : PyDict.t V) (acc : PyDict.t W) (n : string) :
  NoDup (PyDict.keys d) ->
  PyDict.get n
    (fold_left (fun acc kv => let '(k, v) := kv in PyDict.set k (f k v) acc)
       d acc)
  = match PyDict.get n d with
    | Some v => Some (f n v)
    | None => PyDict.get n acc
    end.
Proof.
  revert acc. induction d as [|[k v] r IH]; intros acc Hnd; simpl.
  - reflexivity.
  - inversion Hnd as [|? ? Hk Hr]; subst. rewrite IH by exact Hr.
    rewrite get_set. destruct (String.eqb_spec k n) as [->|_].
    + apply get_None_keys in Hk. now rewrite Hk.
    + reflexivity.
Qed.

(** [export] on a started session serialises the document and then writes
    the file; when either raises, the state is as it was. *)
Lemma export_eq (output_path : string) (st : State) :
  started (self st) = true ->
  AgentSession_export output_path st
  = match json_dumps (export_data_of (self st)) with
    | Raise e => (Raise e, st)
    | Ok text =>
        match open_for_writing output_path with
        | Raise e => (Raise e, st)
        | Ok file =>
            (Ok output_path,
             mkState (self st)
               (mkEnv (tick (env st)) (stored (env st))
                  (PyDict.set file text (files (env st)))))
        end
    end.
Proof.
  intros Hs. unfold AgentSession_export.
  rewrite (bind_ok _ _ _ _ _ (require_started_ok _ Hs)).
  unfold write_text, bind, get_self, lift, get_env, put_env, ret.
  destruct (json_dumps _); [|reflexivity].
  destruct (open_for_writing _); reflexivity.
Qed.


(** Whatever it does, [export] leaves the session object, the event store
    and the clock count as they were. *)
Lemma export_frame (output_path : string) (st : State) :
  self (snd (AgentSession_export output_path st)) = self st
  /\ stored (env (snd (AgentSession_export output_path st)))
     = stored (env st)
  /\ tick (env (snd (AgentSession_export output_path st))) = tick (env st).
Proof.
  destruct (started (self st)) eqn:Hs.
  - rewrite (export_eq _ _ Hs).
    destruct (json_dumps _); [|now repeat split].
    destruct (open_for_writing _); now repeat split.
  - unfold AgentSession_export.
    rewrite (bind_raise _ _ _ _ _ (require_started_raise _ Hs)).
    now repeat split.
Qed.




Lemma end_not_started (st : State) :
  started (self st) = false ->
  AgentSession_end st = (Raise RuntimeError, st).
Proof.
  intros H. unfold AgentSession_end.
  now rewrite (bind_raise _ _ _ _ _ (require_started_raise _ H)).
Qed.

Lemma start_started (st : State) :
  started (self st) = true ->
  AgentSession_start st = (Raise RuntimeError, st).
Proof.
  intros H. unfold AgentSession_start.
  rewrite (bind_ok get_self _ st st (self st) eq_refl). now rewrite H.
Qed.

Lemma run_call_wf (c : Call) (st : State) :
  session_wf (self st) -> session_wf (self (run_call c st)).
Proof.
  intros Hwf. destruct c as [|a et p peer| |path]; simpl.
  - destruct (started (self st)) eqn:Hs.
    + now rewrite start_started.
    + destruct Hwf as (H1 & H2 & H3).
      destruct (start_spec st Hs H1) as (st' & d1s & d2s & E & _ & _ & A).
      rewrite E. simpl. apply (adds_wf _ _ _ A).
      repeat split; simpl; try assumption. discriminate.
  - destruct (stamp_cases a et p peer st)
      as [(e & E)|(e & d & st' & E & A)]; rewrite E; simpl.
    + exact Hwf.
    + now apply (adds_wf _ _ _ A).
  - destruct (started (self st)) eqn:Hs.
    + destruct (started_at (self st)) as [t0|] eqn:Ht.
      * destruct (end_spec st t0 Hs Ht) as (st' & ds & E & _ & A).
        rewrite E. simpl. now apply (adds_wf _ _ _ A).
      * destruct Hwf as (_ & _ & H3). now destruct (H3 Hs).
    + now rewrite end_not_started.
  - now rewrite (proj1 (export_frame path st)).
Qed.

Lemma run_wf (calls : list Call) (st : State) :
  session_wf (self st) -> session_wf (self (run calls st)).
Proof.
  revert st. unfold run.
  induction calls as [|c calls IH]; intros st H; simpl; [exact H|].
  apply IH. now apply run_call_wf.
Qed.
End Construction.

(** ** Heaps: reading and writing *)

Module AliasingFacts.
Import Aliasing.

Lemma read_write_other (h : Heap) (r r' : ref) (o : Obj) :
  r <> r' -> read (write h r o) r' = read h r'.
Proof.
  unfold read. revert r r'.
  induction h as [|x h IH]; intros [|r] [|r'] H; simpl; auto.
  congruence.
Qed.

Lemma read_lt (h : Heap) (r : ref) (o : Obj) :
  read h r = Some o -> r < List.length h.
Proof. intros H. apply nth_error_Some. unfold read in H. congruence. Qed.

(** An operation on the list [view] writes only the object at [view]. *)
Lemma apply_op_frame (view : ref) (h : Heap) (op : ViewOp) (r : ref) :
  on_list op = true -> r <> view ->
  read (apply_op view h op) r = read h r.
Proof.
  intros Hop Hr. unfold apply_op.
  destruct (read h view) as [[items|e]|]; try reflexivity.
  destruct op; try discriminate; apply read_write_other; congruence.
Qed.

Lemma apply_ops_frame (view : ref) (ops : list ViewOp) (h : Heap) (r : ref) :
  forallb on_list ops = true -> r <> view ->
  read (fold_left (apply_op view) ops h) r = read h r.
Proof.
  revert h. induction ops as [|op ops IH]; intros h Hops Hr; simpl.
  - reflexivity.
  - simpl in Hops. apply andb_true_iff in Hops. destruct Hops as [H1 H2].
    rewrite IH by assumption. now apply apply_op_frame.
Qed.
End AliasingFacts.

(** ** Results used by several properties *)

Section Results.
Context {C : Collaborators}.

(** In a linked log every event points at the digest of the log before
    it. *)
Lemma linked_nth (log : list Event) (prev : string) (i : nat) (e : Event) :
  linked prev log = true ->
  nth_error log i = Some e ->
  ev_previous_hash e = last (map compute_event_hash (firstn i log)) prev.
Proof.
  revert prev i. induction log as [|x log IH]; intros prev [|i] H Hi;
    simpl in *; try discriminate.
  - injection Hi as ->. apply andb_true_iff in H.
    now apply String.eqb_eq.
  - apply andb_true_iff in H. destruct H as [_ H].
    rewrite (IH _ _ H Hi). symmetry.
    apply (last_cons_default _
             (map compute_event_hash (firstn i log))
             (compute_event_hash x) prev).
Qed.

(** [start] on a well-formed session that is not started. *)
Lemma start_result (st : State) :
  started (self st) = false ->
  session_wf (self st) ->
  let names := PyDict.keys (_agents (self st)) in
  exists st' d,
    AgentSession_start st = (Ok tt, st')
    /\ adds d
         (mkAgentSession (session_id (self st))
            (Some (int_of_float (time_time (tick (env st))))) true
            (_agents (self st)) (_handshakes (self st)))
         (self st')
    /\ map (fun h => (hs_agent_a h, hs_agent_b h)) (new_handshakes d)
       = pairs names
    /\ forall n, In n names ->
         exists e0 hs,
           new_events d n = e0 :: hs
           /\ stamped_as "session_start" e0
           /\ Forall2 names_peer hs (others n names).
Proof.
  intros Hs (Hn & Hnd & _) names.
  destruct (start_spec st Hs Hn) as (st' & d1s & d2s & E & F1 & F2 & A).
  exists st', (plus (total d1s) (total d2s)).
  split; [exact E | split; [exact A | split]].
  - simpl. rewrite (stamps_one_handshakes _ _ _ F1). simpl.
    apply (shakes_handshakes _ _ F2).
  - intros n Hin.
    destruct (stamps_one_total _ _ _ n F1 Hnd Hin) as (e0 & E0 & P0).
    exists e0, (new_events (total d2s) n). simpl. rewrite E0.
    split; [reflexivity | split; [exact P0|]].
    rewrite <- (peers_of_pairs n names Hnd Hin).
    apply (shakes_events _ _ n F2).
Qed.

(** What a stamp that returned has done. *)
Lemma stamp_ok_inv agent_name event_type payload peer (st st' : State)
    (e : Event) :
  AgentSession_stamp agent_name event_type payload peer st = (Ok e, st') ->
  exists ma,
    started (self st) = true
    /\ PyDict.get agent_name (_agents (self st)) = Some ma
    /\ ((truthy peer = false
         /\ e = stamp_event (tick (env st)) (private_key ma) (agent_id ma)
                  (full_payload_of event_type (safe_payload_of payload)
                     (session_id (self st)) None None)
                  (or_else (previous_hash ma) "genesis")
         /\ adds (one_event agent_name e) (self st) (self st'))
        \/ (exists p mb prev_b,
              let ih := interaction_hash_of ma mb (tick (env st)) in
              peer = Some p /\ p <> ""
              /\ PyDict.get p (_agents (self st)) = Some mb
              /\ e = stamp_event (S (tick (env st))) (private_key ma)
                       (agent_id ma)
                       (full_payload_of event_type
                          (side_payload "initiator" ih payload)
                          (session_id (self st)) (Some (agent_id mb)) None)
                       (or_else (previous_hash ma) "genesis")
              /\ adds
                   (plus (one_event agent_name e)
                      (one_event p
                         (stamp_event (S (S (tick (env st))))
                            (private_key mb) (agent_id mb)
                            (full_payload_of
                               (event_type ++ "_received")%string
                               (side_payload "responder" ih payload)
                               (session_id (self st)) (Some (agent_id ma))
                               (Some (ev_signature e)))
                            prev_b)))
                   (self st) (self st'))).
Proof.
  intros H.
  destruct (started (self st)) eqn:Hs.
  2:{ rewrite stamp_not_started in H by exact Hs. discriminate. }
  destruct (PyDict.mem agent_name (_agents (self st))) eqn:Ha.
  2:{ rewrite stamp_unknown_agent in H by assumption. discriminate. }
  destruct (mem_get _ _ _ Ha) as [ma Hma]. exists ma.
  split; [reflexivity | split; [exact Hma|]].
  destruct (truthy peer) eqn:Hp.
  2:{ left.
      destruct (stamp_unilateral agent_name event_type payload peer ma st
                  Hs Hma Hp) as (st1 & E & A).
      rewrite E in H. injection H as <- <-.
      split; [reflexivity | split; [reflexivity | exact A]]. }
  destruct peer as [p|]; [|discriminate].
  assert (Hne : p <> "") by (intros ->; discriminate).
  destruct (PyDict.mem p (_agents (self st))) eqn:Hb.
  2:{ rewrite stamp_unknown_peer in H by assumption. discriminate. }
  destruct (mem_get _ _ _ Hb) as [mb Hmb]. right.
  destruct (stamp_cosigned agent_name event_type payload p ma mb st
              Hs Hma Hne Hmb) as (prev_b & st1 & E & A).
  rewrite E in H. injection H as <- <-.
  exists p, mb, prev_b. cbn zeta.
  split; [reflexivity | split; [exact Hne | split; [exact Hmb|]]].
  split; [reflexivity | exact A].
Qed.

(** Lookup of a key the session does not write, in the payload signed for
    either side of a co-signed stamp. *)
Lemma side_payload_get (k role ih event_type sid : string)
    (payload : Payload) (peer_id peer_signature : option string) :
  ~ In k ["event_type"; "session_id"; "aiss_profile"; "interaction_hash";
          "my_role"; "peer_agent_id"; "peer_signature"] ->
  PyDict.get k
    (full_payload_of event_type (side_payload role ih payload) sid peer_id
       peer_signature)
  = PyDict.get k (safe_payload_of payload).
Proof.
  intros Hk. rewrite full_payload_get_other by (simpl in *; tauto).
  unfold side_payload. rewrite !get_set.
  repeat match goal with
  | |- context [String.eqb ?a k] =>
      rewrite (not_In_eqb k _ a Hk) by (simpl; tauto)
  end.
  reflexivity.
Qed.

Lemma unilateral_payload_get (k event_type sid : string) (payload : Payload) :
  ~ In k ["event_type"; "session_id"; "aiss_profile"] ->
  PyDict.get k (full_payload_of event_type payload sid None None)
  = PyDict.get k payload.
Proof.
  intros Hk. rewrite full_payload_get. cbn [truthy].
  rewrite !andb_false_r.
  repeat match goal with
  | |- context [String.eqb ?a k] =>
      rewrite (not_In_eqb k _ a Hk) by (simpl; tauto)
  end.
  reflexivity.
Qed.
End Results.

(** ** The concrete collaborators meet the contract *)

Module ToyFacts.
Import Toy.

Lemma toy_links : stamp_event_links.
Proof. intros n sk id p prev. reflexivity. Qed.

Lemma toy_keeps_payload : stamp_event_keeps_payload.
Proof. intros n sk id p prev. reflexivity. Qed.

Lemma toy_signs : stamp_event_signs.
Proof. intros n sk id p prev. discriminate. Qed.

Lemma toy_cosigned_links : cosigned_event_links.
Proof. intros n sk id proposal response prev. reflexivity. Qed.

Lemma toy_hash_nonempty : event_hash_nonempty.
Proof. intros e. discriminate. Qed.

End ToyFacts.

(** ** Properties of the specification *)

(** C1. For every agent of a session, after any sequence of start, stamp,
    end and export calls made since the session was constructed (whether
    each call returned or raised), the agent's log is a hash chain: its
    first event has [previous_hash] ["genesis"], every later event has the
    digest of the event just before it, and the agent's chain head is the
    digest of the last event of the log, or ["genesis"] for an empty log.
    The collaborators are taken to record the [previous_hash] they are
    handed and to produce non-empty digests. *)
Theorem chain_integrity {C : Collaborators}
    (Hstamp : stamp_event_links)
    (Hcosign : cosigned_event_links)
    (Hhash : event_hash_nonempty)
    (agents : list AgentDef) (w w' : Env) (s : AgentSession)
    (calls : list Call) (n : string) (a : AgentMember) :
  AgentSession_init agents w = (Ok s, w') ->
  PyDict.get n (_agents (self (run calls (mkState s w')))) = Some a ->
  chained (_events a) = true
  /\ chain_head a = log_head (_events a)
  /\ forall i e, nth_error (_events a) i = Some e ->
       ev_previous_hash e = log_head (firstn i (_events a)).
Proof.
  intros Hinit Ha.
  assert (Hok : state_ok (run calls (mkState s w'))).
  { apply run_ok; try assumption. now apply init_ok with (agents := agents) (w := w). }
  destruct (Hok n a Ha) as [Hc Hh].
  split; [exact Hc | split; [exact Hh|]].
  intros i e Hi. unfold log_head. now apply linked_nth.
Qed.

Lemma chain_integrity_witness :
  let a := Toy.member "A" Toy.demo in
  chained (_events a) = true
  /\ chain_head a = log_head (_events a)
  /\ forall i e, nth_error (_events a) i = Some e ->
       ev_previous_hash e = log_head (firstn i (_events a)).
Proof.
  apply (chain_integrity ToyFacts.toy_links ToyFacts.toy_cosigned_links
           ToyFacts.toy_hash_nonempty Toy.defs_ab Toy.env0
           (env Toy.fresh_ab) (self Toy.fresh_ab) Toy.calls_demo "A").
  - vm_compute. reflexivity.
  - vm_compute. reflexivity.
Defined.



(** C4. A co-signed stamp on a started session, between a registered agent
    and a registered peer, computes one interaction hash, the digest of
    ["<initiator id>:<responder id>:<clock reading>"], and appends one event
    to the initiator's log and one to the responder's; both events hold that
    same string under [interaction_hash].  The collaborator [stamp_event] is
    taken to record the payload it is handed. *)
Theorem interaction_hash_shared {C : Collaborators}
    (Hpayload : stamp_event_keeps_payload)
    (st : State) (agent_name event_type : string) (payload : Payload)
    (p : string) (ma mb : AgentMember) :
  started (self st) = true ->
  PyDict.get agent_name (_agents (self st)) = Some ma ->
  p <> "" ->
  PyDict.get p (_agents (self st)) = Some mb ->
  exists (ea eb : Event) (st' : State),
    AgentSession_stamp agent_name event_type payload (Some p) st = (Ok ea, st')
    /\ adds (plus (one_event agent_name ea) (one_event p eb))
         (self st) (self st')
    /\ field "interaction_hash" ea
       = Some (VStr (interaction_hash_of ma mb (tick (env st))))
    /\ field "interaction_hash" eb = field "interaction_hash" ea.
Proof.
  intros Hs Hma Hp Hmb.
  destruct (stamp_cosigned agent_name event_type payload p ma mb st
              Hs Hma Hp Hmb) as (prev_b & st' & E & A).
  cbn zeta in E, A. eexists _, _, st'.
  split; [exact E | split; [exact A|]].
  unfold field. rewrite !Hpayload, !full_payload_get_other
    by (simpl; intuition discriminate).
  unfold side_payload. rewrite !get_set. simpl. split; reflexivity.
Qed.

Lemma interaction_hash_shared_witness :
  exists (ea eb : Event) (st' : State),
    AgentSession_stamp "A" "advice" [("x", VInt 1)] (Some "B") Toy.started_ab
    = (Ok ea, st')
    /\ adds (plus (one_event "A" ea) (one_event "B" eb))
         (self Toy.started_ab) (self st')
    /\ field "interaction_hash" ea
       = Some (VStr (interaction_hash_of
                       (Toy.member "A" Toy.started_ab)
                       (Toy.member "B" Toy.started_ab)
                       (tick (env Toy.started_ab))))
    /\ field "interaction_hash" eb = field "interaction_hash" ea.
Proof.
  apply (interaction_hash_shared ToyFacts.toy_keeps_payload Toy.started_ab
           "A" "advice" [("x", VInt 1)] "B").
  - vm_compute. reflexivity.
  - vm_compute. reflexivity.
  - discriminate.
  - vm_compute. reflexivity.
Defined.

(** C5. In a co-signed stamp on a started session the responder's new event
    has type [event_type] followed by ["_received"], role ["responder"], the
    initiator's agent id as [peer_agent_id] and the signature of the
    initiator's event of the same call as [peer_signature]; the call returns
    the initiator's event.  The collaborator [stamp_event] is taken to record
    the payload it is handed and to sign with a non-empty signature, and the
    initiator's agent id is taken to be non-empty. *)
Theorem responder_event {C : Collaborators}
    (Hpayload : stamp_event_keeps_payload)
    (Hsigns : stamp_event_signs)
    (st : State) (agent_name event_type : string) (payload : Payload)
    (p : string) (ma mb : AgentMember) :
  started (self st) = true ->
  PyDict.get agent_name (_agents (self st)) = Some ma ->
  p <> "" ->
  PyDict.get p (_agents (self st)) = Some mb ->
  agent_id ma <> "" ->
  exists (ea eb : Event) (st' : State),
    AgentSession_stamp agent_name event_type payload (Some p) st = (Ok ea, st')
    /\ adds (plus (one_event agent_name ea) (one_event p eb))
         (self st) (self st')
    /\ field "event_type" eb = Some (VStr (event_type ++ "_received")%string)
    /\ field "my_role" eb = Some (VStr "responder")
    /\ field "peer_agent_id" eb = Some (VStr (agent_id ma))
    /\ field "peer_signature" eb = Some (VStr (ev_signature ea)).
Proof.
  intros Hs Hma Hp Hmb Hid.
  destruct (stamp_cosigned agent_name event_type payload p ma mb st
              Hs Hma Hp Hmb) as (prev_b & st' & E & A).
  cbn zeta in E, A. eexists _, _, st'.
  split; [exact E | split; [exact A|]].
  unfold field. rewrite !Hpayload, !full_payload_get.
  rewrite !truthy_Some by (assumption || apply Hsigns).
  unfold side_payload. rewrite !get_set. simpl.
  repeat split; reflexivity.
Qed.

Lemma responder_event_witness :
  exists (ea eb : Event) (st' : State),
    AgentSession_stamp "A" "advice" [("x", VInt 1)] (Some "B") Toy.started_ab
    = (Ok ea, st')
    /\ adds (plus (one_event "A" ea) (one_event "B" eb))
         (self Toy.started_ab) (self st')
    /\ field "event_type" eb = Some (VStr "advice_received")
    /\ field "my_role" eb = Some (VStr "responder")
    /\ field "peer_agent_id" eb
       = Some (VStr (agent_id (Toy.member "A" Toy.started_ab)))
    /\ field "peer_signature" eb = Some (VStr (ev_signature ea)).
Proof.
  apply (responder_event ToyFacts.toy_keeps_payload ToyFacts.toy_signs
           Toy.started_ab "A" "advice" [("x", VInt 1)] "B"
           (Toy.member "A" Toy.started_ab)
           (Toy.member "B" Toy.started_ab)).
  - vm_compute. reflexivity.
  - vm_compute. reflexivity.
  - discriminate.
  - vm_compute. reflexivity.
  - vm_compute. discriminate.
Defined.

(** C6, as stated, fails: a caller's [session_id] field is replaced by the
    session's own identifier, and a raw field and a pre-hashed field that
    are stored under the same key overwrite one another. *)
Lemma redaction_counterexample :
  (exists e st',
     AgentSession_stamp "A" "note" [("session_id", VStr "other")] None
       Toy.started_ab = (Ok e, st')
     /\ field "session_id" e <> Some (VStr "other"))
  /\ (exists e st',
        AgentSession_stamp "A" "note"
          [("amount", VInt 1); ("amount_hash", VStr "zzz")] None
          Toy.started_ab = (Ok e, st')
        /\ field "amount_hash" e <> Some (VStr (_h (VInt 1)))).
Proof.
  split; eexists _, _; (split; [vm_compute; reflexivity | vm_compute; discriminate]).
Qed.

(** C6, amended. For every stamp that returns, and every event it appends
    (the acting agent's, and the responder's when co-signed): a payload
    field whose key ends in [_hash] or [_id] is stored under its own key
    with its own value, and any other field is stored under [key_hash] with
    the digest of its value and not under [key] -- provided no later field
    of the payload is stored under the same key, and the key is not one of
    the fields the session writes itself ([event_type], [session_id],
    [aiss_profile], and for a co-signed stamp [interaction_hash], [my_role],
    [peer_agent_id], [peer_signature]).  The collaborator [stamp_event] is
    taken to record the payload it is handed. *)
Theorem redaction {C : Collaborators}
    (Hpayload : stamp_event_keeps_payload)
    (st st' : State) (agent_name event_type : string) (payload : Payload)
    (peer : option string) (e : Event) :
  AgentSession_stamp agent_name event_type payload peer st = (Ok e, st') ->
  exists d,
    adds d (self st) (self st')
    /\ In e (new_events d agent_name)
    /\ forall n ev, In ev (new_events d n) ->
       forall before k v after,
         payload = before ++ (k, v) :: after ->
         (forall kv, In kv after -> stored_key (fst kv) <> stored_key k) ->
         ~ In (stored_key k) (session_fields peer) ->
         field (stored_key k) ev = Some (stored_value k v)
         /\ (verbatim_key k = false -> ~ In k (session_fields peer) ->
             field k ev = None).
Proof.
  intros H.
  destruct (stamp_ok_inv _ _ _ _ _ _ _ H)
    as (ma & Hs & Hma & [(Hp & He & A)|(p & mb & prev_b & Hpeer)]).
  - exists (one_event agent_name e). split; [exact A|]. simpl.
    rewrite String.eqb_refl. split; [now left|].
    intros n ev Hev before k v after -> Hafter Hk.
    destruct (String.eqb n agent_name); [|destruct Hev].
    destruct Hev as [<-|[]]. unfold session_fields in *.
    rewrite Hp in Hk |- *. cbn [app] in *.
    unfold field. rewrite He, Hpayload.
    split.
    + rewrite unilateral_payload_get by exact Hk.
      now apply safe_payload_last_write.
    + intros Hv Hraw. rewrite unilateral_payload_get by exact Hraw.
      now apply safe_payload_raw_absent.
  - cbn zeta in Hpeer. destruct Hpeer as (-> & Hne & Hmb & He & A).
    eexists. split; [exact A|]. cbn [new_events plus one_event].
    rewrite String.eqb_refl. split; [now left|].
    intros n ev Hev before k v after -> Hafter Hk.
    unfold session_fields in *. rewrite (truthy_Some _ Hne) in Hk |- *.
    cbn [app] in *.
    assert (Hev' : ev = e \/ ev = stamp_event (S (S (tick (env st))))
                           (private_key mb) (agent_id mb)
                           (full_payload_of (event_type ++ "_received")%string
                              (side_payload "responder"
                                 (interaction_hash_of ma mb (tick (env st)))
                                 (before ++ (k, v) :: after))
                              (session_id (self st)) (Some (agent_id ma))
                              (Some (ev_signature e))) prev_b).
    { apply in_app_or in Hev. destruct Hev as [Hev|Hev].
      - destruct (String.eqb n agent_name); [|destruct Hev].
        destruct Hev as [<-|[]]. now left.
      - destruct (String.eqb n p); [|destruct Hev].
        destruct Hev as [<-|[]]. now right. }
    unfold field.
    destruct Hev' as [->| ->]; [rewrite He|]; rewrite Hpayload; split.
    + rewrite side_payload_get by exact Hk.
      now apply safe_payload_last_write.
    + intros Hv Hraw. rewrite side_payload_get by exact Hraw.
      now apply safe_payload_raw_absent.
    + rewrite side_payload_get by exact Hk.
      now apply safe_payload_last_write.
    + intros Hv Hraw. rewrite side_payload_get by exact Hraw.
      now apply safe_payload_raw_absent.
Qed.

Lemma redaction_witness :
  exists e st',
    AgentSession_stamp "B" "trade"
      [("symbol", VStr "AAPL"); ("order_id", VStr "X1")] None Toy.started_ab
    = (Ok e, st')
    /\ field "symbol_hash" e = Some (VStr (_h (VStr "AAPL")))
    /\ field "symbol" e = None
    /\ field "order_id" e = Some (VStr "X1").
Proof.
  destruct (AgentSession_stamp "B" "trade"
              [("symbol", VStr "AAPL"); ("order_id", VStr "X1")] None
              Toy.started_ab) as [[e|x] st'] eqn:E;
    [|vm_compute in E; discriminate].
  exists e, st'. split; [reflexivity|].
  destruct (redaction ToyFacts.toy_keeps_payload _ _ _ _ _ _ _ E)
    as (d & _ & Hin & Hd).
  destruct (Hd "B" e Hin [] "symbol" (VStr "AAPL") [("order_id", VStr "X1")]
              eq_refl) as [H1 H2].
  { intros kv [<-|[]]. vm_compute. discriminate. }
  { vm_compute. intuition discriminate. }
  destruct (Hd "B" e Hin [("symbol", VStr "AAPL")] "order_id" (VStr "X1") []
              eq_refl) as [H3 _].
  { intros kv []. }
  { vm_compute. intuition discriminate. }
  split; [exact H1 | split; [|exact H3]].
  apply H2; [reflexivity | vm_compute; intuition discriminate].
Defined.

(** ** The states of a session *)

Section States.
Context {C : Collaborators}.

Lemma reachable_wf (st : State) : reachable st -> session_wf (self st).
Proof.
  intros (agents & w & s & w' & calls & Hinit & ->).
  apply run_wf. simpl. now apply init_wf with (agents := agents) (w := w) (w' := w').
Qed.



End States.




(** C3. [start] on a session as constructed, with [N] registered agents:
    it returns and marks the session started; it records [N * (N - 1) / 2]
    handshakes, one per pair of agents [(i, j)] with [i < j], in ascending
    order of [i] and then [j]; and every agent's log becomes one
    [session_start] event followed by one handshake event with each other
    agent, in registration order (so [N - 1] of them).  The registered
    agents are the agents given when their names are pairwise distinct.  The
    collaborator [stamp_event] is taken to record the payload it is
    handed. *)
Theorem start_handshakes {C : Collaborators}
    (Hpayload : stamp_event_keeps_payload)
    (agents : list AgentDef) (w w' : Env) (s : AgentSession) :
  AgentSession_init agents w = (Ok s, w') ->
  let names := PyDict.keys (_agents s) in
  let N := List.length names in
  (NoDup (map def_name agents) -> names = map def_name agents)
  /\ exists st',
       AgentSession_start (mkState s w') = (Ok tt, st')
       /\ started (self st') = true
       /\ PyDict.keys (_agents (self st')) = names
       /\ List.length (_handshakes (self st')) = N * (N - 1) / 2
       /\ map (fun h => (hs_agent_a h, hs_agent_b h)) (_handshakes (self st'))
          = map (fun p => (nth (fst p) names "", nth (snd p) names ""))
              (index_pairs N)
       /\ forall n, In n names ->
            exists m e0 hs,
              PyDict.get n (_agents (self st')) = Some m
              /\ _events m = e0 :: hs
              /\ field "event_type" e0 = Some (VStr "session_start")
              /\ field "peer_name" e0 = None
              /\ Forall2 names_peer hs (others n names)
              /\ List.length hs = N - 1.
Proof.
  intros Hinit names N.
  pose proof (init_wf _ _ _ _ Hinit) as Hwf.
  destruct (init_inv _ _ _ _ Hinit) as (reg & Ereg & -> & -> & _). split.
  { intros Hnd. subst names. cbn [_agents].
    now rewrite (register_keys _ _ _ Ereg Hnd). }
  match goal with
  | |- exists st', AgentSession_start ?x = _ /\ _ => set (st := x)
  end.
  destruct (start_result st eq_refl Hwf) as (st' & d & E & A & Hh & He).
  exists st'. split; [exact E|].
  destruct A as (_ & _ & A3 & A4 & A5 & A6). cbn in A3, A4, A5.
  split; [exact A3 | split; [exact A5|]].
  assert (Hpairs : map (fun h => (hs_agent_a h, hs_agent_b h))
                     (_handshakes (self st')) = pairs names).
  { rewrite A4. exact Hh. }
  split; [|split].
  - rewrite <- (length_map (fun h => (hs_agent_a h, hs_agent_b h))), Hpairs.
    pose proof (pairs_length names) as Hl. fold N in Hl. rewrite <- Hl.
    rewrite Nat.mul_comm. symmetry. apply Nat.div_mul. discriminate.
  - rewrite Hpairs. symmetry. apply index_pairs_names.
  - intros n Hn. destruct (He n Hn) as (e0 & hs & Ed & P0 & F).
    destruct (In_keys_get _ _ _ Hn) as [m0 Hm0].
    destruct (A6 n m0 Hm0) as (m & Hm & _ & Hev).
    assert (Hlog0 : _events m0 = []).
    { apply (register_fresh _ _ _ Ereg) with (n := n);
        [intros ? ? [=] | exact Hm0]. }
    destruct (stamped_as_fields _ _ Hpayload P0) as [T1 T2].
    exists m, e0, hs. rewrite Hev, Hlog0, Ed.
    repeat split; try assumption.
    destruct Hwf as (_ & Hnd & _).
    pose proof (others_length n names Hnd Hn) as Hlen.
    rewrite (Forall2_length F).
    change (List.length (others n names) = List.length names - 1). lia.
Qed.

Lemma start_handshakes_witness :
  exists st',
    AgentSession_start (Toy.constructed Toy.defs_abc) = (Ok tt, st')
    /\ List.length (_handshakes (self st')) = 3
    /\ map (fun h => (hs_agent_a h, hs_agent_b h)) (_handshakes (self st'))
       = [("A", "B"); ("A", "C"); ("B", "C")].
Proof.
  destruct (start_handshakes ToyFacts.toy_keeps_payload Toy.defs_abc Toy.env0
              (env (Toy.constructed Toy.defs_abc))
              (self (Toy.constructed Toy.defs_abc)))
    as (_ & st' & E & _ & _ & Hlen & Hpairs & _).
  - vm_compute. reflexivity.
  - exists st'. split; [exact E | split; [exact Hlen | exact Hpairs]].
Defined.



(** C10, as stated, fails: construction raises although two definitions
    are given when an identity file cannot be loaded; so it does when a
    definition lacks a key and when a loaded identity lacks a key. *)
Lemma construction_counterexample :
  let agents := [mkAgentDef "A" "missing.json"; mkAgentDef "B" "b.json"] in
  fst (AgentSession_init agents Toy.env0) = Raise OSError
  /\ ~ (is_ok (fst (AgentSession_init agents Toy.env0)) = false
        <-> List.length agents < 2)
  /\ fst (AgentSession_init
            [mkAgentDef "A" "a.json"; [("name", "B")]] Toy.env0)
     = Raise KeyError
  /\ fst (AgentSession_init
            [mkAgentDef "A" "partial.json"; mkAgentDef "B" "b.json"]
            Toy.env0)
     = Raise KeyError.
Proof.
  split; [vm_compute; reflexivity|]. split.
  - intros [H _].
    assert (E : is_ok
                  (fst (AgentSession_init
                          [mkAgentDef "A" "missing.json";
                           mkAgentDef "B" "b.json"] Toy.env0)) = false)
      by (vm_compute; reflexivity).
    apply H in E. cbn in E. lia.
  - split; vm_compute; reflexivity.
Qed.

(** C10, amended. Constructing a session from fewer than two agent
    definitions raises [ValueError].  From two or more it returns exactly
    when a member can be built from every definition -- the definition has
    a name and an identity file, and the identity loads and has its three
    keys -- and otherwise raises what the first definition that fails
    raises.  Names are not checked for uniqueness: the registry holds,
    under each name, the agent built from the last definition with that
    name; so two definitions with the same name whose identities load
    construct a session with one registered agent, whose [start] returns
    without any handshake. *)
Theorem construction {C : Collaborators} (agents : list AgentDef) (w : Env) :
  (List.length agents < 2 ->
   AgentSession_init agents w = (Raise ValueError, w))
  /\ (2 <= List.length agents ->
      is_ok (fst (AgentSession_init agents w))
      = forallb (fun d => is_ok (member_of d)) agents)
  /\ (forall before d after e,
        2 <= List.length agents ->
        agents = before ++ d :: after ->
        forallb (fun d => is_ok (member_of d)) before = true ->
        member_of d = Raise e ->
        fst (AgentSession_init agents w) = Raise e)
  /\ (forall s w' before d after,
        AgentSession_init agents w = (Ok s, w') ->
        agents = before ++ d :: after ->
        ~ In (def_name d) (map def_name after) ->
        exists m,
          member_of d = Ok m
          /\ PyDict.get (def_name d) (_agents s) = Some m)
  /\ (forall n f1 f2 m1 m2,
        AgentMember_init n f1 = Ok m1 ->
        AgentMember_init n f2 = Ok m2 ->
        exists s w' st',
          AgentSession_init [mkAgentDef n f1; mkAgentDef n f2] w = (Ok s, w')
          /\ _agents s = [(n, m2)]
          /\ AgentSession_start (mkState s w') = (Ok tt, st')
          /\ _handshakes (self st') = []).
Proof.
  split; [|split; [|split; [|split]]].
  - intros H. rewrite init_eq. apply Nat.ltb_lt in H. now rewrite H.
  - intros H. rewrite init_eq. apply Nat.ltb_ge in H. rewrite H.
    rewrite <- (register_is_ok agents PyDict.empty).
    now destruct (register agents PyDict.empty).
  - intros before d after e H -> Hb Hd. rewrite init_eq.
    apply Nat.ltb_ge in H. rewrite H.
    now rewrite (register_first_error before after d e PyDict.empty Hb Hd).
  - intros s w' before d after Hinit -> Hlast.
    destruct (init_inv _ _ _ _ Hinit) as (reg & Ereg & -> & _ & _).
    cbn [_agents]. now apply (register_last _ _ _ _ _ Ereg).
  - intros n f1 f2 m1 m2 H1 H2.
    assert (Hinit : AgentSession_init [mkAgentDef n f1; mkAgentDef n f2] w
                    = (Ok (mkAgentSession
                             ("sess_"
                              ++ substring 0 16 (uuid4_hex (tick w)))%string
                             None false [(n, m2)] []),
                       mkEnv (S (tick w)) (stored w) (files w))).
    { rewrite init_eq. cbn [List.length Nat.ltb Nat.leb].
      rewrite register_cons.
      change (member_of (mkAgentDef n f1)) with (AgentMember_init n f1).
      rewrite H1, register_cons.
      change (member_of (mkAgentDef n f2)) with (AgentMember_init n f2).
      rewrite H2. cbn [register].
      destruct (member_init_inv _ _ _ H1) as (-> & _).
      destruct (member_init_inv _ _ _ H2) as (E2 & _).
      cbn [PyDict.set PyDict.empty].
      now rewrite E2, String.eqb_refl. }
    pose proof (init_wf _ _ _ _ Hinit) as Hwf.
    match goal with
    | H : AgentSession_init _ _ = (Ok ?s0, ?w0) |- _ =>
        destruct (start_result (mkState s0 w0) eq_refl Hwf)
          as (st' & dl & E & A & Hh & _);
        exists s0, w0, st'
    end.
    split; [exact Hinit | split; [reflexivity | split; [exact E|]]].
    destruct A as (_ & _ & _ & A4 & _). cbn in A4, Hh.
    apply map_eq_nil in Hh. now rewrite A4, Hh.
Qed.

Lemma construction_witness :
  exists s w' st',
    AgentSession_init [mkAgentDef "A" "a.json"; mkAgentDef "A" "b.json"]
      Toy.env0 = (Ok s, w')
    /\ _agents s
       = [("A", mkAgentMember "A" "sk:b.json" "pk:b.json" "id:b.json"
                  None [])]
    /\ AgentSession_start (mkState s w') = (Ok tt, st')
    /\ _handshakes (self st') = [].
Proof.
  apply (proj2 (proj2 (proj2 (proj2 (construction [] Toy.env0))))
           "A" "a.json" "b.json"
           (mkAgentMember "A" "sk:a.json" "pk:a.json" "id:a.json" None [])).
  - vm_compute. reflexivity.
  - vm_compute. reflexivity.
Defined.

(** ** The log behind the [events] accessor *)

Section View.
Import Aliasing.

Lemma lay_out_read_log (log : list Event) :
  read (lay_out log) (List.length log)
  = Some (OList (seq 0 (List.length log))).
Proof.
  unfold read, lay_out.
  rewrite nth_error_app2 by (rewrite length_map; lia).
  rewrite length_map, Nat.sub_diag. reflexivity.
Qed.

Lemma lay_out_read_event (log : list Event) (i : nat) :
  i < List.length log ->
  read (lay_out log) i = option_map OEvent (nth_error log i).
Proof.
  intros H. unfold read, lay_out.
  rewrite nth_error_app1 by (now rewrite length_map).
  apply nth_error_map.
Qed.

(** The heap laid out for a log holds that log. *)
Lemma lay_out_log_at (log : list Event) :
  log_at (lay_out log) (List.length log).
Proof.
  exists (seq 0 (List.length log)). split; [apply lay_out_read_log|].
  apply Forall_forall. intros i Hi. apply in_seq in Hi.
  rewrite lay_out_read_event by lia.
  destruct (nth_error log i) as [e|] eqn:E.
  - now exists e.
  - apply nth_error_None in E. lia.
Qed.
End View.

(** C9, as stated, fails: the list returned by [events] is a new list but
    holds the agent's own event objects, so changing an event reached
    through it changes the agent's stored history. *)
Lemma events_view_counterexample :
  let log := _events (Toy.member "A" Toy.started_ab) in
  let h := Aliasing.lay_out log in
  exists view h1,
    Aliasing.events_property (List.length log) h = Some (view, h1)
    /\ Aliasing.history
         (Aliasing.apply_op view h1
            (Aliasing.MutateItem 0 (fun e => set_ev_payload e [])))
         (List.length log)
       <> Aliasing.history h (List.length log).
Proof.
  eexists _, _. split; [vm_compute; reflexivity|].
  vm_compute. discriminate.
Qed.

(** C9, amended. The [events] accessor returns a copy of the list: whatever
    a caller does to that list itself (append, replace or delete an entry,
    clear it), the agent's stored history is unchanged.  The event records
    in it are the agent's own and are not protected. *)
Theorem events_view_list_ops (h h1 : Aliasing.Heap) (log view : Aliasing.ref)
    (ops : list Aliasing.ViewOp) :
  Aliasing.log_at h log ->
  Aliasing.events_property log h = Some (view, h1) ->
  forallb Aliasing.on_list ops = true ->
  Aliasing.history h1 view = Aliasing.history h log
  /\ Aliasing.history (fold_left (Aliasing.apply_op view) ops h1) log
     = Aliasing.history h log.
Proof.
  intros (items & Hlog & Hitems) Hview Hops.
  unfold Aliasing.events_property in Hview. rewrite Hlog in Hview.
  injection Hview as <- <-.
  assert (Hold : forall r, r < List.length h ->
                   Aliasing.read (h ++ [Aliasing.OList items]) r
                   = Aliasing.read h r).
  { intros r Hr. unfold Aliasing.read. now apply nth_error_app1. }
  assert (Hlt : forall r, In r items -> r < List.length h).
  { intros r Hr. rewrite Forall_forall in Hitems.
    destruct (Hitems r Hr) as [e He]. now apply AliasingFacts.read_lt in He. }
  pose proof (AliasingFacts.read_lt _ _ _ Hlog) as Hloglt.
  split.
  - unfold Aliasing.history at 1. unfold Aliasing.read at 1.
    rewrite nth_error_app2, Nat.sub_diag by lia. cbn [nth_error].
    unfold Aliasing.history. rewrite Hlog.
    apply map_ext_in. intros r Hr. now apply Hold, Hlt.
  - unfold Aliasing.history.
    rewrite AliasingFacts.apply_ops_frame by (assumption || lia).
    rewrite Hold, Hlog by exact Hloglt.
    apply map_ext_in. intros r Hr. specialize (Hlt r Hr).
    rewrite AliasingFacts.apply_ops_frame by (assumption || lia).
    now apply Hold.
Qed.

Lemma events_view_list_ops_witness :
  let log := _events (Toy.member "A" Toy.started_ab) in
  let h := Aliasing.lay_out log in
  let view := List.length h in
  let h1 := h ++ [Aliasing.OList (seq 0 (List.length log))] in
  Aliasing.history h1 view = Aliasing.history h (List.length log)
  /\ Aliasing.history
       (fold_left (Aliasing.apply_op view)
          [Aliasing.Append 0; Aliasing.SetItem 0 1; Aliasing.DelItem 1;
           Aliasing.Clear] h1)
       (List.length log)
     = Aliasing.history h (List.length log).
Proof.
  intros log h view h1.
  apply (events_view_list_ops h h1 (List.length log) view).
  - apply lay_out_log_at.
  - vm_compute. reflexivity.
  - reflexivity.
Defined.

(** ** Every call only appends *)

Section Walks.
Context {C : Collaborators}.
Variable sid : string.

Lemma steps_trans (v1 v2 v3 : View) :
  steps sid v1 v2 -> steps sid v2 v3 -> steps sid v1 v3.
Proof.
  induction 1 as [v|v1 v2 v2' S12 S IH]; intros H; [exact H|].
  apply steps_more with (v2 := v2); [exact S12 | now apply IH].
Qed.

Lemma steps_one (v1 v2 : View) : step sid v1 v2 -> steps sid v1 v2.
Proof. intros H. apply steps_more with (v2 := v2); [exact H | constructor]. Qed.

(** An invariant of single steps is an invariant of any number of them. *)
Lemma steps_invariant (P : View -> Prop) :
  (forall v v', step sid v v' -> P v -> P v') ->
  forall v v', steps sid v v' -> P v -> P v'.
Proof.
  intros Hstep v v' H. induction H as [v|v1 v2 v3 S12 S IH]; intros Hv.
  - exact Hv.
  - apply IH. now apply (Hstep v1 v2).
Qed.

Lemma walks_bind {A B} (m : M A) (k : A -> M B) :
  walks sid m -> (forall a, walks sid (k a)) -> walks sid (bind m k).
Proof.
  intros Hm Hk st Hst. unfold bind. destruct (Hm st Hst) as [S1 I1].
  destruct (m st) as [[a|e] st1]; simpl in *.
  - destruct (Hk a st1 I1) as [S2 I2].
    split; [now apply steps_trans with (v2 := view st1) | exact I2].
  - now split.
Qed.

Lemma walks_for {A} (l : list A) (body : A -> M unit) :
  (forall x, walks sid (body x)) -> walks sid (for_ l body).
Proof.
  intros Hb. induction l as [|x l IH]; simpl.
  - intros st Hst. split; [constructor | exact Hst].
  - apply walks_bind; [apply Hb | intros _; exact IH].
Qed.

(** A computation that leaves the registry, the store and the id alone. *)
Lemma walks_still {A} (m : M A) :
  (forall st, view (snd (m st)) = view st
              /\ session_id (self (snd (m st))) = session_id (self st)) ->
  walks sid m.
Proof.
  intros H st Hst. destruct (H st) as [Hv Hi]. rewrite Hv, Hi.
  split; [constructor | exact Hst].
Qed.

Lemma walks_get_self {B} (k : AgentSession -> M B) :
  (forall s, session_id s = sid -> walks sid (k s)) ->
  walks sid (bind get_self k).
Proof. intros Hk st Hst. unfold bind, get_self. now apply Hk. Qed.

Lemma walks_require_started : walks sid _require_started.
Proof.
  apply walks_get_self. intros s _.
  destruct (negb (started s)); now apply walks_still.
Qed.

Lemma walks_get_agent (n : string) : walks sid (_get_agent n).
Proof.
  apply walks_get_self. intros s _.
  destruct (negb (PyDict.mem n (_agents s))); [now apply walks_still|].
  apply walks_still. intros st. unfold deref.
  now destruct (PyDict.get n (_agents (self st))).
Qed.

Lemma walks_item (l : list string) (i : nat) : walks sid (item l i).
Proof. unfold item. destruct (nth_error l i); now apply walks_still. Qed.

Lemma walks_append_handshake (h : HandshakeResult) :
  walks sid (append_handshake h).
Proof. now apply walks_still. Qed.

(** A stamp through a member reference is one step. *)
Lemma walks_stamp_member (ref event_type : string) (payload : Payload)
    (peer_id peer_signature : option string) :
  walks sid (call_member ref (fun this =>
               AgentMember_stamp this event_type payload sid peer_id
                 peer_signature)).
Proof.
  intros st Hst.
  destruct (PyDict.get ref (_agents (self st))) as [m|] eqn:Hm.
  - rewrite (stamp_member_eq ref event_type sid payload peer_id
               peer_signature m st Hm).
    cbn [snd]. split; [|exact Hst].
    apply steps_one. unfold view. cbn [self env _agents stored set_agents].
    apply step_append; [exact Hm | constructor].
  - unfold call_member, bind, deref. rewrite Hm. cbn [snd].
    split; [constructor | exact Hst].
Qed.

(** A handshake is at most two steps, one on each side. *)
Lemma walks_handshake_pair (agent_a agent_b : string) :
  walks sid (_handshake_pair agent_a agent_b).
Proof.
  intros st Hst.
  unfold _handshake_pair, bind, get_self, deref, fresh, get_env, put_env,
    assign, time_now, ret. cbn.
  destruct (PyDict.get agent_a (_agents (self st))) as [ma|] eqn:Ea;
    [|split; [constructor | exact Hst]].
  destruct (PyDict.get agent_b (_agents (self st))) as [mb|] eqn:Eb;
    [|split; [constructor | exact Hst]].
  cbn. rewrite Ea. cbn. rewrite Hst.
  match goal with
  | |- context [PyDict.set agent_a ?a1 _] => set (ma1 := a1)
  end.
  match goal with
  | ma1 := mkAgentMember _ _ _ _ _ (_ ++ [?e]) |- _ => set (ea := e) in *
  end.
  assert (S1 : step sid (view st)
                 (PyDict.set agent_a ma1 (_agents (self st)),
                  stored (env st) ++ [ea])).
  { apply (@step_append _ sid (_agents (self st)) (stored (env st)) agent_a
             ma ea Ea).
    exact (@appended_handshake _ sid ma _ _ _ _). }
  destruct (PyDict.get agent_b (PyDict.set agent_a ma1 (_agents (self st))))
    as [mb1|] eqn:Eb1; cbn.
  - match goal with
    | |- context [PyDict.set agent_b ?b1 _] => set (mb2 := b1)
    end.
    match goal with
    | mb2 := mkAgentMember _ _ _ _ _ (_ ++ [?e]) |- _ => set (eb := e) in *
    end.
    split; [|exact Hst].
    apply steps_more with (v2 := (PyDict.set agent_a ma1 (_agents (self st)),
                                   stored (env st) ++ [ea])); [exact S1|].
    apply steps_one.
    apply (@step_append _ sid _ _ agent_b mb1 eb Eb1).
    exact (@appended_handshake _ sid mb1 _ _ _ _).
  - split; [|exact Hst]. now apply steps_one.
Qed.

Lemma walks_start : walks sid AgentSession_start.
Proof.
  intros st Hst. unfold AgentSession_start.
  rewrite (bind_ok get_self _ st st (self st) eq_refl).
  destruct (started (self st)); [split; [constructor | exact Hst]|].
  rewrite (bind_ok time_now _ st _ _ eq_refl).
  match goal with
  | |- context [bind (put_self ?s) _ ?st1] =>
      rewrite (bind_ok (put_self s) _ st1 _ tt eq_refl)
  end.
  match goal with
  | |- steps _ _ (view (snd (?m ?x))) /\ _ =>
      assert (W : walks sid m); [|exact (W x Hst)]
  end.
  apply walks_bind.
  - apply walks_for. intros agent. apply walks_get_self. intros s Hs.
    apply walks_bind; [|intros _; now apply walks_still].
    rewrite Hs. apply walks_stamp_member.
  - intros _. apply walks_bind.
    + apply walks_for. intros i. apply walks_for. intros j.
      apply walks_bind; [apply walks_item|]. intros agent_a.
      apply walks_bind; [apply walks_item|]. intros agent_b.
      apply walks_bind; [apply walks_handshake_pair|].
      intros h. apply walks_append_handshake.
    + intros _. now apply walks_still.
Qed.

Lemma walks_stamp agent_name event_type payload peer :
  walks sid (AgentSession_stamp agent_name event_type payload peer).
Proof.
  unfold AgentSession_stamp.
  apply walks_bind; [apply walks_require_started|]. intros _.
  apply walks_bind; [apply walks_get_agent|]. intros agent.
  apply walks_get_self. intros s Hs. rewrite Hs.
  destruct (truthy peer); [|apply walks_stamp_member].
  apply walks_bind; [apply walks_get_agent|]. intros peer_agent.
  apply walks_bind; [now apply walks_still|]. intros t.
  apply walks_bind; [apply walks_stamp_member|]. intros event_agent.
  apply walks_bind; [apply walks_stamp_member|]. intros _.
  now apply walks_still.
Qed.

Lemma walks_end : walks sid AgentSession_end.
Proof.
  unfold AgentSession_end.
  apply walks_bind; [apply walks_require_started|]. intros _.
  apply walks_bind; [now apply walks_still|]. intros t.
  apply walks_get_self. intros s Hs. rewrite Hs.
  destruct (started_at s); [|now apply walks_still].
  apply walks_bind.
  - apply walks_for. intros agent.
    apply walks_bind; [apply walks_stamp_member|].
    intros _. now apply walks_still.
  - intros _. now apply walks_still.
Qed.

Lemma walks_export output_path : walks sid (AgentSession_export output_path).
Proof.
  intros st Hst.
  destruct (export_frame output_path st) as (H1 & H2 & _).
  unfold view. rewrite H1, H2. split; [apply steps_done | exact Hst].
Qed.

Lemma run_call_steps (c : Call) (st : State) :
  session_id (self st) = sid ->
  steps sid (view st) (view (run_call c st))
  /\ session_id (self (run_call c st)) = sid.
Proof.
  destruct c; simpl.
  - apply walks_start.
  - apply walks_stamp.
  - apply walks_end.
  - apply walks_export.
Qed.

Lemma run_steps (calls : list Call) (st : State) :
  session_id (self st) = sid ->
  steps sid (view st) (view (run calls st))
  /\ session_id (self (run calls st)) = sid.
Proof.
  revert st. unfold run.
  induction calls as [|c calls IH]; intros st Hst; simpl.
  - split; [constructor | exact Hst].
  - destruct (run_call_steps c st Hst) as [S1 I1].
    destruct (IH _ I1) as [S2 I2].
    split; [now apply steps_trans with (v2 := view (run_call c st)) | exact I2].
Qed.
End Walks.

(** ** What any sequence of calls preserves *)

Section Preserved.
Context {C : Collaborators}.

Lemma In_get_NoDup (V : Type) (k : string) (v : V) (d : PyDict.t V) :
  NoDup (PyDict.keys d) -> In (k, v) d -> PyDict.get k d = Some v.
Proof.
  induction d as [|[k0 v0] r IH]; simpl; intros Hnd Hin; [destruct Hin|].
  inversion Hnd as [|? ? Hk Hr]; subst.
  destruct Hin as [[= -> ->]|Hin].
  - now rewrite String.eqb_refl.
  - destruct (String.eqb_spec k0 k) as [->|_]; [|now apply IH].
    exfalso. apply Hk. now apply (in_map fst) in Hin.
Qed.

Lemma fold_add_sum (l : list nat) (a : nat) :
  fold_left Nat.add l a = a + list_sum l.
Proof.
  revert a. induction l as [|x l IH]; intros a; simpl; [lia|].
  rewrite IH. lia.
Qed.

(** The number of events in all logs of a registry. *)
Lemma total_events_sum (s : AgentSession) :
  total_events_of s
  = list_sum (map (fun kv => List.length (_events (snd kv))) (_agents s)).
Proof.
  unfold total_events_of, PyDict.values, events.
  rewrite fold_add_sum, map_map. reflexivity.
Qed.


Lemma sum_all_equal (A : Type) (f : A -> nat) (l : list A) (c : nat) :
  (forall x, In x l -> f x = c) ->
  list_sum (map f l) = List.length l * c.
Proof.
  induction l as [|x l IH]; intros H; simpl; [reflexivity|].
  rewrite (H x (or_introl eq_refl)), IH; [reflexivity|].
  intros y Hy. apply H. now right.
Qed.

Lemma last_of_snoc (A : Type) (l : list A) (x : A) :
  last_of (l ++ [x]) = Some x.
Proof. unfold last_of. now rewrite rev_unit. Qed.

(** The session id written into every event the program appends. *)
Lemma appended_session_id (sid : string) (m : AgentMember) (e : Event) :
  stamp_event_keeps_payload ->
  appended sid m e -> field "session_id" e = Some (VStr sid).
Proof.
  intros Hpayload [n et p pid psig|n proposal response peer]; unfold field.
  - rewrite Hpayload, full_payload_get. reflexivity.
  - cbn [set_ev_payload ev_payload]. now rewrite get_set, get_set_same.
Qed.

(** The chain link of every event the program appends. *)
Lemma step_get (sid : string) (reg : PyDict.t AgentMember) (ref n : string)
    (m0 m' : AgentMember) (e : Event) :
  PyDict.get ref reg = Some m0 ->
  PyDict.get n (PyDict.set ref (grow m0 e) reg) = Some m' ->
  (n = ref /\ m' = grow m0 e) \/ (n <> ref /\ PyDict.get n reg = Some m').
Proof.
  intros H0. rewrite get_set.
  destruct (String.eqb_spec ref n) as [->|Hne].
  - intros [= <-]. now left.
  - intros H. right. split; [congruence | exact H].
Qed.
End Preserved.

(** X1. Whatever calls are made on a session, in any state: its id does not
    change; the registry keeps its names, in order; every agent keeps its
    name, keys and agent id; and every log only grows at its end -- no event
    is edited, removed or reordered.  The event store only grows too. *)
Theorem logs_append_only {C : Collaborators} (st : State)
    (calls : list Call) :
  session_id (self (run calls st)) = session_id (self st)
  /\ PyDict.keys (_agents (self (run calls st)))
     = PyDict.keys (_agents (self st))
  /\ (forall n m,
        PyDict.get n (_agents (self st)) = Some m ->
        exists m' extra,
          PyDict.get n (_agents (self (run calls st))) = Some m'
          /\ same_identity m m'
          /\ _events m' = _events m ++ extra)
  /\ exists added,
       stored (env (run calls st)) = stored (env st) ++ added.
Proof.
  destruct (run_steps (session_id (self st)) calls st eq_refl) as [S I].
  split; [exact I|].
  set (P := fun v : View =>
              PyDict.keys (fst v) = PyDict.keys (_agents (self st))
              /\ (forall n m,
                    PyDict.get n (_agents (self st)) = Some m ->
                    exists m' extra,
                      PyDict.get n (fst v) = Some m'
                      /\ same_identity m m'
                      /\ _events m' = _events m ++ extra)
              /\ exists added, snd v = stored (env st) ++ added).
  assert (HP : P (view (run calls st))).
  { apply (steps_invariant (session_id (self st)) P) with (v := view st);
      [|exact S|].
    - intros v v' [reg store ref m0 e Hget _] (Hk & Hm & (added & Hs)).
      unfold P. cbn [fst snd] in *. split; [|split].
      + rewrite <- Hk. apply keys_set_present.
        now apply get_In, (in_map fst) in Hget.
      + intros n m Hn. destruct (Hm n m Hn) as (m1 & extra & H1 & I1 & E1).
        rewrite get_set. destruct (String.eqb_spec ref n) as [->|_].
        * assert (m1 = m0) by congruence. subst m1.
          exists (grow m0 e), (extra ++ [e]). split; [reflexivity|].
          split; [exact I1|]. cbn [grow _events].
          now rewrite E1, app_assoc.
        * exists m1, extra. split; [exact H1 | split; [exact I1 | exact E1]].
      + exists (added ++ [e]). now rewrite Hs, app_assoc.
    - unfold P, view. cbn [fst snd]. split; [reflexivity|]. split.
      + intros n m Hn. exists m, []. rewrite app_nil_r.
        split; [exact Hn | split; [apply same_identity_refl | reflexivity]].
      + exists []. now rewrite app_nil_r. }
  exact HP.
Qed.

(** X2. In a session constructed and then used through any calls, every
    event in an agent's log has been handed to [aiss.store_event]: it is in
    the event store. *)
Theorem every_event_persisted {C : Collaborators}
    (agents : list AgentDef) (w w' : Env) (s : AgentSession)
    (calls : list Call) (n : string) (m : AgentMember) (e : Event) :
  AgentSession_init agents w = (Ok s, w') ->
  PyDict.get n (_agents (self (run calls (mkState s w')))) = Some m ->
  In e (_events m) ->
  In e (stored (env (run calls (mkState s w')))).
Proof.
  intros Hinit.
  destruct (run_steps (session_id s) calls (mkState s w') eq_refl) as [S _].
  set (P := fun v : View =>
              forall n m e, PyDict.get n (fst v) = Some m ->
                            In e (_events m) -> In e (snd v)).
  assert (HP : P (view (run calls (mkState s w')))).
  { apply (steps_invariant (session_id s) P) with (v := view (mkState s w'));
      [|exact S|].
    - intros v v' [reg store ref m0 e0 Hget _] Hv n1 m1 e1.
      cbn [fst snd] in *. intros H1 Hin. rewrite in_app_iff.
      destruct (step_get (session_id s) reg ref n1 m0 m1 e0 Hget H1)
        as [[-> ->]|[_ H1']].
      + cbn [grow _events] in Hin. apply in_app_or in Hin.
        destruct Hin as [Hin|Hin]; [left; now apply (Hv ref m0) | now right].
      + left. now apply (Hv n1 m1).
    - intros n1 m1 e1 H1 Hin. cbn [view fst self _agents] in H1.
      destruct (init_inv _ _ _ _ Hinit) as (reg & Ereg & -> & _ & _). cbn [_agents] in H1.
      apply (register_fresh _ _ _ Ereg) in H1; [|intros ? ? [=]].
      destruct H1 as [_ H1]. rewrite H1 in Hin. destruct Hin. }
  intros Hm Hin. exact (HP n m e Hm Hin).
Qed.

Lemma every_event_persisted_witness :
  In (ToyRun.first_event "A" ToyRun.state) (stored (env ToyRun.state)).
Proof.
  apply (every_event_persisted Toy.defs_ab Toy.env0 ToyRun.world
           ToyRun.session Toy.calls_demo "A" (Toy.member "A" ToyRun.state)).
  - vm_compute. reflexivity.
  - vm_compute. reflexivity.
  - vm_compute. left. reflexivity.
Defined.



(** X4. In a session constructed and then used through any calls, the
    summary reports for each agent its agent id, the length of its log, and
    as [last_hash] the digest of the last event of its log -- [None] exactly
    when the log is empty. *)
Theorem summary_last_hash {C : Collaborators}
    (agents : list AgentDef) (w w' : Env) (s : AgentSession)
    (calls : list Call) (n : string) (x : AgentSummary) :
  AgentSession_init agents w = (Ok s, w') ->
  PyDict.get n (sum_agents (summary (self (run calls (mkState s w')))))
  = Some x ->
  exists m,
    PyDict.get n (_agents (self (run calls (mkState s w')))) = Some m
    /\ as_agent_id x = agent_id m
    /\ as_event_count x = List.length (_events m)
    /\ as_last_hash x = option_map compute_event_hash (last_of (_events m)).
Proof.
  intros Hinit.
  destruct (run_steps (session_id s) calls (mkState s w') eq_refl) as [S _].
  assert (Hwf : session_wf (self (run calls (mkState s w')))).
  { apply run_wf. now apply (init_wf agents w w'). }
  destruct Hwf as (_ & Hnd & _).
  set (P := fun v : View =>
              forall n m, PyDict.get n (fst v) = Some m ->
                previous_hash m
                = option_map compute_event_hash (last_of (_events m))).
  assert (HP : P (view (run calls (mkState s w')))).
  { apply (steps_invariant (session_id s) P) with (v := view (mkState s w'));
      [|exact S|].
    - intros v v' [reg store ref m0 e0 Hget _] Hv n1 m1 H1.
      cbn [fst snd] in *.
      destruct (step_get (session_id s) reg ref n1 m0 m1 e0 Hget H1)
        as [[-> ->]|[_ H1']].
      + cbn [grow previous_hash _events]. now rewrite last_of_snoc.
      + now apply (Hv n1).
    - intros n1 m1 H1. cbn [view fst self _agents] in H1.
      destruct (init_inv _ _ _ _ Hinit) as (reg & Ereg & -> & _ & _). cbn [_agents] in H1.
      apply (register_fresh _ _ _ Ereg) in H1; [|intros ? ? [=]].
      destruct H1 as [-> ->]. reflexivity. }
  unfold summary. cbn [sum_agents]. unfold PyDict.items.
  rewrite (comprehension_get _ _
             (fun _ a =>
                mkAgentSummary (agent_id a) (List.length (events a))
                  (previous_hash a))
             _ PyDict.empty n Hnd).
  destruct (PyDict.get n (_agents (self (run calls (mkState s w')))))
    as [m|] eqn:Hm; [|discriminate].
  intros [= <-]. exists m. cbn. repeat split. now apply (HP n).
Qed.

Lemma summary_last_hash_witness :
  exists m,
    PyDict.get "A" (_agents (self ToyRun.state)) = Some m
    /\ as_agent_id (ToyRun.summary_entry "A" ToyRun.state) = agent_id m
    /\ as_event_count (ToyRun.summary_entry "A" ToyRun.state)
       = List.length (_events m)
    /\ as_last_hash (ToyRun.summary_entry "A" ToyRun.state)
       = option_map compute_event_hash (last_of (_events m)).
Proof.
  apply (summary_last_hash Toy.defs_ab Toy.env0 ToyRun.world ToyRun.session
           Toy.calls_demo "A" (ToyRun.summary_entry "A" ToyRun.state)).
  - vm_compute. reflexivity.
  - vm_compute. reflexivity.
Defined.

(** X5. In a session constructed and then used through any calls, every
    event in every agent's log carries the session's id under [session_id]:
    session events, handshake events and stamped events alike, whatever the
    caller's payloads contain.  The collaborator [stamp_event] is taken to
    record the payload it is handed. *)
Theorem every_event_names_session {C : Collaborators}
    (Hpayload : stamp_event_keeps_payload)
    (agents : list AgentDef) (w w' : Env) (s : AgentSession)
    (calls : list Call) (n : string) (m : AgentMember) (e : Event) :
  AgentSession_init agents w = (Ok s, w') ->
  PyDict.get n (_agents (self (run calls (mkState s w')))) = Some m ->
  In e (_events m) ->
  field "session_id" e = Some (VStr (session_id s)).
Proof.
  intros Hinit.
  destruct (run_steps (session_id s) calls (mkState s w') eq_refl) as [S _].
  set (P := fun v : View =>
              forall n m e, PyDict.get n (fst v) = Some m ->
                In e (_events m) ->
                field "session_id" e = Some (VStr (session_id s))).
  assert (HP : P (view (run calls (mkState s w')))).
  { apply (steps_invariant (session_id s) P) with (v := view (mkState s w'));
      [|exact S|].
    - intros v v' [reg store ref m0 e0 Hget Hap] Hv n1 m1 e1.
      cbn [fst snd] in *. intros H1 Hin.
      destruct (step_get (session_id s) reg ref n1 m0 m1 e0 Hget H1)
        as [[-> ->]|[_ H1']].
      + cbn [grow _events] in Hin. apply in_app_or in Hin.
        destruct Hin as [Hin|[<-|[]]]; [now apply (Hv ref m0)|].
        now apply (appended_session_id (session_id s) m0).
      + now apply (Hv n1 m1).
    - intros n1 m1 e1 H1 Hin. cbn [view fst self _agents] in H1.
      destruct (init_inv _ _ _ _ Hinit) as (reg & Ereg & -> & _ & _). cbn [_agents] in H1.
      apply (register_fresh _ _ _ Ereg) in H1; [|intros ? ? [=]].
      destruct H1 as [_ H1]. rewrite H1 in Hin. destruct Hin. }
  intros Hm Hin. exact (HP n m e Hm Hin).
Qed.

Lemma every_event_names_session_witness :
  field "session_id" (ToyRun.first_event "B" ToyRun.state)
  = Some (VStr (session_id ToyRun.session)).
Proof.
  apply (every_event_names_session ToyFacts.toy_keeps_payload Toy.defs_ab
           Toy.env0 ToyRun.world ToyRun.session Toy.calls_demo
           "B" (Toy.member "B" ToyRun.state)).
  - vm_compute. reflexivity.
  - vm_compute. reflexivity.
  - vm_compute. left. reflexivity.
Defined.

(** ** Stamps, exactly *)

Section StampExact.
Context {C : Collaborators}.

(** The state a co-signed stamp leaves. *)
Lemma stamp_cosigned_eq agent_name event_type payload (p : string)
    (ma mb : AgentMember) (st : State) :
  started (self st) = true ->
  PyDict.get agent_name (_agents (self st)) = Some ma ->
  p <> "" ->
  PyDict.get p (_agents (self st)) = Some mb ->
  let ih := interaction_hash_of ma mb (tick (env st)) in
  let ea :=
    stamp_event (S (tick (env st))) (private_key ma) (agent_id ma)
      (full_payload_of event_type (side_payload "initiator" ih payload)
         (session_id (self st)) (Some (agent_id mb)) None)
      (or_else (previous_hash ma) "genesis") in
  let reg1 := PyDict.set agent_name (grow ma ea) (_agents (self st)) in
  exists mb1,
    PyDict.get p reg1 = Some mb1
    /\ same_identity mb mb1
    /\ (p <> agent_name -> mb1 = mb)
    /\ (p = agent_name -> mb1 = grow ma ea)
    /\ let eb :=
         stamp_event (S (S (tick (env st)))) (private_key mb) (agent_id mb)
           (full_payload_of (event_type ++ "_received")%string
              (side_payload "responder" ih payload)
              (session_id (self st)) (Some (agent_id ma))
              (Some (ev_signature ea)))
           (or_else (previous_hash mb1) "genesis") in
       AgentSession_stamp agent_name event_type payload (Some p) st
       = (Ok ea,
          mkState
            (set_agents (self st) (PyDict.set p (grow mb1 eb) reg1))
            (mkEnv (S (S (S (tick (env st)))))
               ((stored (env st) ++ [ea]) ++ [eb]) (files (env st)))).
Proof.
  intros Hs Hma Hp Hmb ih ea reg1.
  assert (H1 : exists mb1,
             PyDict.get p reg1 = Some mb1 /\ same_identity mb mb1
             /\ (p <> agent_name -> mb1 = mb)
             /\ (p = agent_name -> mb1 = grow ma ea)).
  { unfold reg1. rewrite get_set.
    destruct (String.eqb_spec agent_name p) as [E|Hne].
    - exists (grow ma ea). subst p. assert (mb = ma) by congruence. subst mb.
      split; [reflexivity|]. split; [now repeat split|].
      split; [congruence | reflexivity].
    - exists mb. split; [exact Hmb|]. split; [apply same_identity_refl|].
      split; [reflexivity | congruence]. }
  destruct H1 as (mb1 & Hmb1 & I1 & N1 & N2). exists mb1.
  split; [exact Hmb1 | split; [exact I1 | split; [exact N1|]]].
  split; [exact N2|]. cbn zeta.
  unfold AgentSession_stamp.
  rewrite (bind_ok _ _ _ _ _ (require_started_ok _ Hs)).
  rewrite (bind_ok _ _ _ _ _ (get_agent_ok _ _ _ Hma)).
  rewrite (bind_ok get_self _ st st (self st) eq_refl).
  rewrite (truthy_Some _ Hp). cbn [the_str].
  rewrite (bind_ok _ _ _ _ _ (get_agent_ok _ _ _ Hmb)).
  rewrite (bind_ok time_now _ st _ _ eq_refl).
  match goal with
  | |- bind (call_member _ _) _ ?x = _ => set (st1 := x)
  end.
  assert (Hma1 : PyDict.get agent_name (_agents (self st1)) = Some ma)
    by exact Hma.
  rewrite (bind_ok _ _ _ _ _
             (stamp_member_eq agent_name event_type (session_id (self st))
                _ (Some (agent_id mb)) None ma st1 Hma1)).
  match goal with
  | |- bind (call_member _ _) _ ?x = _ => set (st2 := x)
  end.
  assert (Hmb2 : PyDict.get p (_agents (self st2)) = Some mb1)
    by exact Hmb1.
  rewrite (bind_ok _ _ _ _ _
             (stamp_member_eq p (event_type ++ "_received")%string
                (session_id (self st)) _ (Some (agent_id ma)) _ mb1 st2
                Hmb2)).
  destruct I1 as (_ & I2 & _ & I4). unfold ret, st2, st1, grow.
  cbn [self env tick stored files set_agents _agents session_id started_at
       started _handshakes]. rewrite I2, I4. reflexivity.
Qed.
End StampExact.

(** X6. A unilateral stamp (no peer, or an empty peer name) by a registered
    agent on a started session returns the new event; that event is appended
    to the acting agent's log and becomes its chain head, it is added to the
    event store, and nothing else changes: every other agent, the handshake
    records and the session flags are as before. *)
Theorem unilateral_stamp_frame {C : Collaborators}
    (st : State) (agent_name event_type : string) (payload : Payload)
    (peer : option string) (ma : AgentMember) :
  started (self st) = true ->
  PyDict.get agent_name (_agents (self st)) = Some ma ->
  truthy peer = false ->
  exists e st',
    AgentSession_stamp agent_name event_type payload peer st = (Ok e, st')
    /\ PyDict.get agent_name (_agents (self st')) = Some (grow ma e)
    /\ (forall n, n <> agent_name ->
          PyDict.get n (_agents (self st')) = PyDict.get n (_agents (self st)))
    /\ PyDict.keys (_agents (self st')) = PyDict.keys (_agents (self st))
    /\ stored (env st') = stored (env st) ++ [e]
    /\ _handshakes (self st') = _handshakes (self st)
    /\ started (self st') = true
    /\ started_at (self st') = started_at (self st)
    /\ files (env st') = files (env st).
Proof.
  intros Hs Hma Hp. unfold AgentSession_stamp.
  rewrite (bind_ok _ _ _ _ _ (require_started_ok _ Hs)).
  rewrite (bind_ok _ _ _ _ _ (get_agent_ok _ _ _ Hma)).
  rewrite (bind_ok get_self _ st st (self st) eq_refl). rewrite Hp.
  rewrite (stamp_member_eq agent_name event_type (session_id (self st))
             (safe_payload_of payload) None None ma st Hma).
  eexists _, _. split; [reflexivity|].
  cbn [self env _agents stored files set_agents _handshakes started
       started_at].
  split; [apply get_set_same|]. split.
  - intros n Hn. rewrite get_set.
    destruct (String.eqb_spec agent_name n); [congruence | reflexivity].
  - split.
    + apply keys_set_present. now apply get_In, (in_map fst) in Hma.
    + repeat split; try reflexivity. exact Hs.
Qed.

Lemma unilateral_stamp_frame_witness :
  exists e st',
    AgentSession_stamp "B" "trade" [("symbol", VStr "AAPL")] None
      ToyRun.started = (Ok e, st')
    /\ PyDict.get "A" (_agents (self st'))
       = PyDict.get "A" (_agents (self ToyRun.started))
    /\ stored (env st') = stored (env ToyRun.started) ++ [e].
Proof.
  destruct (unilateral_stamp_frame ToyRun.started "B" "trade"
              [("symbol", VStr "AAPL")] None (Toy.member "B" ToyRun.started))
    as (e & st' & E & _ & Hf & _ & Hst & _).
  - vm_compute. reflexivity.
  - vm_compute. reflexivity.
  - reflexivity.
  - exists e, st'. split; [exact E | split; [|exact Hst]].
    apply Hf. discriminate.
Defined.

(** X7. A co-signed stamp between a registered agent and a registered peer
    on a started session persists exactly two events, the initiator's and
    then the responder's, and changes no agent other than those two; the
    handshake records and the session flags are as before. *)
Theorem cosigned_stamp_frame {C : Collaborators}
    (st : State) (agent_name event_type : string) (payload : Payload)
    (p : string) (ma mb : AgentMember) :
  started (self st) = true ->
  PyDict.get agent_name (_agents (self st)) = Some ma ->
  p <> "" ->
  PyDict.get p (_agents (self st)) = Some mb ->
  exists ea eb st',
    AgentSession_stamp agent_name event_type payload (Some p) st = (Ok ea, st')
    /\ stored (env st') = stored (env st) ++ [ea; eb]
    /\ (forall n, n <> agent_name -> n <> p ->
          PyDict.get n (_agents (self st')) = PyDict.get n (_agents (self st)))
    /\ PyDict.keys (_agents (self st')) = PyDict.keys (_agents (self st))
    /\ _handshakes (self st') = _handshakes (self st)
    /\ started (self st') = true
    /\ started_at (self st') = started_at (self st)
    /\ files (env st') = files (env st).
Proof.
  intros Hs Hma Hp Hmb.
  destruct (stamp_cosigned_eq agent_name event_type payload p ma mb st
              Hs Hma Hp Hmb) as (mb1 & Hmb1 & _ & _ & _ & E).
  cbn zeta in E. eexists _, _, _. split; [exact E|].
  cbn [self env _agents stored files set_agents _handshakes started
       started_at].
  split; [now rewrite <- app_assoc|]. split.
  - intros n Ha Hb. rewrite !get_set.
    destruct (String.eqb_spec p n); [congruence|].
    destruct (String.eqb_spec agent_name n); [congruence | reflexivity].
  - split.
    + rewrite keys_set_present
        by (now apply get_In, (in_map fst) in Hmb1).
      apply keys_set_present. now apply get_In, (in_map fst) in Hma.
    + repeat split; try reflexivity. exact Hs.
Qed.

Lemma cosigned_stamp_frame_witness :
  exists ea eb st',
    AgentSession_stamp "A" "advice" [("x", VInt 1)] (Some "B")
      Toy.started_abc = (Ok ea, st')
    /\ stored (env st') = stored (env Toy.started_abc) ++ [ea; eb]
    /\ PyDict.get "C" (_agents (self st'))
       = PyDict.get "C" (_agents (self Toy.started_abc)).
Proof.
  destruct (cosigned_stamp_frame Toy.started_abc "A" "advice"
              [("x", VInt 1)] "B" (Toy.member "A" Toy.started_abc)
              (Toy.member "B" Toy.started_abc))
    as (ea & eb & st' & E & Hst & Hf & _).
  - vm_compute. reflexivity.
  - vm_compute. reflexivity.
  - discriminate.
  - vm_compute. reflexivity.
  - exists ea, eb, st'. split; [exact E | split; [exact Hst|]].
    apply Hf; discriminate.
Defined.

(** X8. An agent may name itself as peer.  The co-signed stamp then appends
    two events to that one log, the initiator's followed by the responder's,
    and the responder's event links to the digest of the initiator's.  The
    collaborators are taken to record the [previous_hash] they are handed and
    to produce non-empty digests. *)
Theorem stamp_with_self_as_peer {C : Collaborators}
    (Hstamp : stamp_event_links)
    (Hhash : event_hash_nonempty)
    (st : State) (agent_name event_type : string) (payload : Payload)
    (ma : AgentMember) :
  started (self st) = true ->
  agent_name <> "" ->
  PyDict.get agent_name (_agents (self st)) = Some ma ->
  exists ea eb st' ma',
    AgentSession_stamp agent_name event_type payload (Some agent_name) st
    = (Ok ea, st')
    /\ PyDict.get agent_name (_agents (self st')) = Some ma'
    /\ _events ma' = _events ma ++ [ea; eb]
    /\ ev_previous_hash eb = compute_event_hash ea
    /\ previous_hash ma' = Some (compute_event_hash eb).
Proof.
  intros Hs Hne Hma.
  destruct (stamp_cosigned_eq agent_name event_type payload agent_name ma ma
              st Hs Hma Hne Hma) as (mb1 & Hmb1 & _ & _ & N2 & E).
  cbn zeta in E. rewrite (N2 eq_refl) in E.
  eexists _, _, _, _. split; [exact E|].
  cbn [self _agents set_agents]. split; [apply get_set_same|].
  cbn [grow _events previous_hash]. split; [now rewrite <- app_assoc|].
  split; [|reflexivity].
  rewrite Hstamp. apply or_else_hash. exact Hhash.
Qed.

Lemma stamp_with_self_as_peer_witness :
  exists ea eb st' ma',
    AgentSession_stamp "A" "note" [("x", VInt 1)] (Some "A") ToyRun.started
    = (Ok ea, st')
    /\ PyDict.get "A" (_agents (self st')) = Some ma'
    /\ _events ma' = _events (Toy.member "A" ToyRun.started) ++ [ea; eb]
    /\ ev_previous_hash eb = compute_event_hash ea
    /\ previous_hash ma' = Some (compute_event_hash eb).
Proof.
  apply (stamp_with_self_as_peer ToyFacts.toy_links
           ToyFacts.toy_hash_nonempty ToyRun.started "A" "note"
           [("x", VInt 1)] (Toy.member "A" ToyRun.started)).
  - vm_compute. reflexivity.
  - discriminate.
  - vm_compute. reflexivity.
Defined.

(** X9. The event returned by any stamp that succeeds has the event type
    given in the call, the session's id and the profile tag ["AISS-1"]: a
    caller's payload cannot override these three fields (a payload field
    called [event_type] is stored as [event_type_hash]).  The collaborator
    [stamp_event] is taken to record the payload it is handed. *)
Theorem stamp_session_fields {C : Collaborators}
    (Hpayload : stamp_event_keeps_payload)
    (st st' : State) (agent_name event_type : string) (payload : Payload)
    (peer : option string) (e : Event) :
  AgentSession_stamp agent_name event_type payload peer st = (Ok e, st') ->
  field "event_type" e = Some (VStr event_type)
  /\ field "session_id" e = Some (VStr (session_id (self st)))
  /\ field "aiss_profile" e = Some (VStr "AISS-1").
Proof.
  intros H.
  destruct (stamp_ok_inv _ _ _ _ _ _ _ H)
    as (ma & _ & _ & [(_ & He & _)|(p & mb & prev_b & Hpeer)]).
  - rewrite He. unfold field. rewrite Hpayload, !full_payload_get.
    repeat split; reflexivity.
  - cbn zeta in Hpeer. destruct Hpeer as (_ & _ & _ & He & _).
    rewrite He. unfold field. rewrite Hpayload, !full_payload_get.
    repeat split; reflexivity.
Qed.

Lemma stamp_session_fields_witness :
  exists e st',
    AgentSession_stamp "A" "note"
      [("event_type", VStr "forged"); ("session_id", VStr "other")] None
      ToyRun.started = (Ok e, st')
    /\ field "event_type" e = Some (VStr "note")
    /\ field "session_id" e = Some (VStr (session_id (self ToyRun.started))).
Proof.
  destruct (AgentSession_stamp "A" "note"
              [("event_type", VStr "forged"); ("session_id", VStr "other")]
              None ToyRun.started) as [[e|x] st'] eqn:E;
    [|vm_compute in E; discriminate].
  exists e, st'. split; [reflexivity|].
  destruct (stamp_session_fields ToyFacts.toy_keeps_payload _ _ _ _ _ _ _ E)
    as (H1 & H2 & _).
  split; [exact H1 | exact H2].
Defined.

(** X10. The event returned by a stamp that succeeds never has a
    [peer_signature] field, and has a [my_role] field only when the stamp is
    co-signed, in which case the role is ["initiator"] and [peer_agent_id] is
    the registered peer's agent id (when that id is not empty).  A caller
    cannot set [peer_signature] or [my_role] through the payload.  The
    collaborator [stamp_event] is taken to record the payload it is
    handed. *)
Theorem acting_event_peer_fields {C : Collaborators}
    (Hpayload : stamp_event_keeps_payload)
    (st st' : State) (agent_name event_type : string) (payload : Payload)
    (peer : option string) (e : Event) :
  AgentSession_stamp agent_name event_type payload peer st = (Ok e, st') ->
  field "peer_signature" e = None
  /\ (truthy peer = false -> field "my_role" e = None)
  /\ (truthy peer = true ->
      field "my_role" e = Some (VStr "initiator")
      /\ forall mb,
           PyDict.get (the_str peer) (_agents (self st)) = Some mb ->
           agent_id mb <> "" ->
           field "peer_agent_id" e = Some (VStr (agent_id mb))).
Proof.
  intros H.
  assert (Hsig : verbatim_key "peer_signature" = false) by reflexivity.
  assert (Hrole : verbatim_key "my_role" = false) by reflexivity.
  destruct (stamp_ok_inv _ _ _ _ _ _ _ H)
    as (ma & _ & _ & [(Hp & He & _)|(p & mb & prev_b & Hpeer)]).
  - rewrite He. unfold field. rewrite !Hpayload.
    rewrite !unilateral_payload_get by (simpl; intuition discriminate).
    rewrite !safe_payload_raw_absent by assumption.
    split; [reflexivity|]. split; [reflexivity|]. congruence.
  - cbn zeta in Hpeer. destruct Hpeer as (-> & Hne & Hmb & He & _).
    rewrite He. unfold field. rewrite !Hpayload, !full_payload_get.
    cbn [truthy the_str andb]. rewrite !andb_false_r.
    unfold side_payload. rewrite !get_set.
    split; [|split].
    + cbn. now apply safe_payload_raw_absent.
    + intros Hf. pose proof (truthy_Some _ Hne) as Ht.
      cbn [truthy] in Ht. congruence.
    + intros _. split.
      * destruct (negb (String.eqb (agent_id mb) "")); reflexivity.
      * intros mb' Hmb' Hid. assert (mb' = mb) by congruence. subst mb'.
        apply String.eqb_neq in Hid. now rewrite Hid.
Qed.

Lemma acting_event_peer_fields_witness :
  exists e st',
    AgentSession_stamp "A" "note"
      [("peer_signature", VStr "forged"); ("my_role", VStr "responder")]
      None ToyRun.started = (Ok e, st')
    /\ field "peer_signature" e = None
    /\ field "my_role" e = None.
Proof.
  destruct (AgentSession_stamp "A" "note"
              [("peer_signature", VStr "forged");
               ("my_role", VStr "responder")]
              None ToyRun.started) as [[e|x] st'] eqn:E;
    [|vm_compute in E; discriminate].
  exists e, st'. split; [reflexivity|].
  destruct (acting_event_peer_fields ToyFacts.toy_keeps_payload _ _ _ _ _ _
              _ E) as (H1 & H2 & _).
  split; [exact H1 | now apply H2].
Defined.

(** ** Dictionaries built by loops, and registries related key by key *)

Section Tables.

Lemma set_absent (V : Type) (k : string) (v : V) (d : PyDict.t V) :
  ~ In k (PyDict.keys d) -> PyDict.set k v d = d ++ [(k, v)].
Proof.
  induction d as [|[k0 v0] r IH]; simpl; intros H; [reflexivity|].
  destruct (String.eqb_spec k0 k) as [->|_].
  - exfalso. apply H. now left.
  - rewrite IH; [reflexivity | tauto].
Qed.

Lemma set_twice (V : Type) (k : string) (v : V) (d : PyDict.t V) :
  PyDict.set k v (PyDict.set k v d) = PyDict.set k v d.
Proof.
  induction d as [|[k0 v0] r IH]; simpl.
  - now rewrite String.eqb_refl.
  - destruct (String.eqb_spec k0 k) as [->|Hne]; simpl.
    + now rewrite String.eqb_refl.
    + apply String.eqb_neq in Hne. now rewrite Hne, IH.
Qed.

(** Two registries with the same keys, related key by key, are related
    entry by entry. *)
Lemma registry_Forall2 (P : AgentMember -> AgentMember -> Prop)
    (d d' : PyDict.t AgentMember) :
  NoDup (PyDict.keys d) ->
  PyDict.keys d' = PyDict.keys d ->
  (forall n m, PyDict.get n d = Some m ->
     exists m', PyDict.get n d' = Some m' /\ P m m') ->
  Forall2 (fun kv kv' => fst kv' = fst kv /\ P (snd kv) (snd kv')) d d'.
Proof.
  revert d'. induction d as [|[k m] r IH]; intros [|[k' m'] r'] Hnd Hk Hp;
    simpl in *; try discriminate; [constructor|].
  injection Hk as -> Hk. inversion Hnd as [|? ? Hnk Hr]; subst.
  constructor.
  - split; [reflexivity|]. cbn [snd].
    destruct (Hp k m) as (m1 & H1 & P1); [now rewrite String.eqb_refl|].
    rewrite String.eqb_refl in H1. now injection H1 as <-.
  - apply IH; [exact Hr | exact Hk |].
    intros n m0 Hn.
    assert (Hne : String.eqb k n = false).
    { apply String.eqb_neq. intros ->.
      apply get_In, (in_map fst) in Hn. contradiction. }
    destruct (Hp n m0) as (m1 & H1 & P1); [now rewrite Hne|].
    rewrite Hne in H1. now exists m1.
Qed.

Lemma sum_Forall2_succ (A : Type) (f : A -> nat) (l l' : list A) :
  Forall2 (fun x x' => f x' = S (f x)) l l' ->
  list_sum (map f l') = list_sum (map f l) + List.length l.
Proof.
  induction 1 as [|x x' l l' Hx _ IH]; simpl; [reflexivity|].
  rewrite Hx, IH. lia.
Qed.
End Tables.

(** X13. On a started session whose export document can be serialised,
    exporting to a path whose file can be opened and then exporting again
    to that file, under the same path or under another path that names the
    same file, leaves exactly the state of the first export: the file holds
    the serialised text, and no other file, nor the event store, the clock
    count or the session object, has changed. *)
Theorem export_repeatable {C : Collaborators}
    (st : State) (path file text : string) :
  started (self st) = true ->
  json_dumps (export_data_of (self st)) = Ok text ->
  open_for_writing path = Ok file ->
  exists st1,
    AgentSession_export path st = (Ok path, st1)
    /\ (forall path',
          open_for_writing path' = Ok file ->
          AgentSession_export path' st1 = (Ok path', st1))
    /\ self st1 = self st
    /\ stored (env st1) = stored (env st)
    /\ tick (env st1) = tick (env st)
    /\ PyDict.get file (files (env st1)) = Some text
    /\ forall q, q <> file ->
         PyDict.get q (files (env st1)) = PyDict.get q (files (env st)).
Proof.
  intros Hs Hd Ho. rewrite (export_eq path st Hs), Hd, Ho.
  eexists. split; [reflexivity|]. split.
  - intros path' Ho'.
    match goal with
    | |- AgentSession_export _ ?x = _ => rewrite (export_eq path' x Hs)
    end.
    cbn [self env tick stored files]. rewrite Hd, Ho'.
    now rewrite set_twice.
  - cbn [self env tick stored files].
    split; [reflexivity | split; [reflexivity | split; [reflexivity|]]].
    split; [apply get_set_same|].
    intros q Hq. rewrite get_set.
    destruct (String.eqb_spec file q); [congruence | reflexivity].
Qed.

Lemma export_repeatable_witness :
  exists st1,
    AgentSession_export "audit.json" ToyRun.state = (Ok "audit.json", st1)
    /\ AgentSession_export "./audit.json" st1 = (Ok "./audit.json", st1)
    /\ PyDict.get "audit.json" (files (env st1)) = Some ToyRun.text.
Proof.
  destruct (export_repeatable ToyRun.state "audit.json" "audit.json"
              ToyRun.text)
    as (st1 & E1 & E2 & _ & _ & _ & E3 & _).
  - vm_compute. reflexivity.
  - vm_compute. reflexivity.
  - vm_compute. reflexivity.
  - exists st1. split; [exact E1 | split; [|exact E3]].
    apply E2. vm_compute. reflexivity.
Defined.

(** ** Summaries after [start] and [end] *)

Section Summaries.
Context {C : Collaborators}.

(** [end] on a started session, with the payload of its events. *)
Lemma end_spec_full (st : State) (t0 : Z) :
  started (self st) = true ->
  started_at (self st) = Some t0 ->
  let payload :=
    [("session_id", VStr (session_id (self st)));
     ("duration_seconds",
       VInt (int_of_float (time_time (tick (env st))) - t0));
     ("total_events", VInt (Z.of_nat (total_events_of (self st))))] in
  exists st' ds,
    AgentSession_end st = (Ok (summary (self st')), st')
    /\ Forall2
         (stamps_one (fun e =>
            exists n sk id prev,
              e = stamp_event n sk id
                    (full_payload_of "session_end" payload
                       (session_id (self st)) None None) prev))
         (PyDict.keys (_agents (self st))) ds
    /\ adds (total ds) (self st) (self st').
Proof.
  intros Hs Ht payload. unfold AgentSession_end.
  rewrite (bind_ok _ _ _ _ _ (require_started_ok _ Hs)).
  rewrite (bind_ok time_now _ st _ _ eq_refl).
  match goal with
  | |- context [bind get_self _ ?x] =>
      rewrite (bind_ok get_self _ x x (self st) eq_refl)
  end.
  rewrite Ht.
  match goal with
  | |- context [bind (for_ _ ?b) _ ?x] => set (st1 := x); set (body := b)
  end.
  destruct (for_adds
              (stamps_one (fun e =>
                 exists n sk id prev,
                   e = stamp_event n sk id
                         (full_payload_of "session_end" payload
                            (session_id (self st)) None None) prev))
              (fun s => PyDict.keys (_agents s)
                        = PyDict.keys (_agents (self st)))
              (PyDict.keys (_agents (self st))) body)
    with (st := st1) as (st2 & ds & E & F & A).
  { intros d s s' (_&_&_&_&Hk&_) H. congruence. }
  { intros x st0 Hx Hk. rewrite <- Hk in Hx.
    destruct (In_keys_get _ _ _ Hx) as [m Hm]. unfold body.
    destruct (stamp_member_adds x "session_end" (session_id (self st))
                payload None None m st0 Hm) as (st' & E & _ & A).
    unfold payload in E. rewrite (bind_ok _ _ _ _ _ E). eexists st', _.
    split; [reflexivity | split; [exact A|]].
    eexists. split; [reflexivity|].
    eexists _, _, _, _. reflexivity. }
  { reflexivity. }
  rewrite (bind_ok _ _ _ _ _ E).
  exists st2, ds. split; [reflexivity | split; [exact F | exact A]].
Qed.
End Summaries.

(** X14. After [start] on a session as constructed, with [N] registered
    agents: every agent's log has [N] events, [summary] reports
    [total_events] [N * N] and [handshake_count] [N * (N - 1) / 2]. *)
Theorem start_summary {C : Collaborators}
    (agents : list AgentDef) (w w' : Env) (s : AgentSession) :
  AgentSession_init agents w = (Ok s, w') ->
  let N := List.length (PyDict.keys (_agents s)) in
  exists st',
    AgentSession_start (mkState s w') = (Ok tt, st')
    /\ (forall n m, PyDict.get n (_agents (self st')) = Some m ->
          List.length (_events m) = N)
    /\ sum_total_events (summary (self st')) = N * N
    /\ sum_handshake_count (summary (self st')) = N * (N - 1) / 2.
Proof.
  intros Hinit N.
  pose proof (init_wf _ _ _ _ Hinit) as Hwf.
  assert (Hs0 : started s = false /\ _handshakes s = []
                /\ forall n m, PyDict.get n (_agents s) = Some m ->
                     _events m = []).
  { destruct (init_inv _ _ _ _ Hinit) as (reg & Ereg & -> & _ & _). cbn. repeat split.
    intros n m H. now apply (register_fresh _ _ _ Ereg) in H;
      [|intros ? ? [=]]. }
  destruct Hs0 as (Hs & Hh0 & Hlog0).
  destruct (start_result (mkState s w') Hs Hwf)
    as (st' & d & E & A & Hh & He).
  exists st'. split; [exact E|].
  destruct Hwf as (_ & Hnd & _).
  pose proof A as (_ & _ & _ & A4 & A5 & A6).
  cbn [self _agents _handshakes] in A4, A5, A6.
  assert (Hlen : forall n m, PyDict.get n (_agents (self st')) = Some m ->
                   List.length (_events m) = N).
  { intros n m Hm.
    assert (Hn : In n (PyDict.keys (_agents s))).
    { rewrite <- A5. now apply get_In, (in_map fst) in Hm. }
    destruct (In_keys_get _ _ _ Hn) as [m0 Hm0].
    destruct (A6 n m0 Hm0) as (m1 & H1 & _ & Hev).
    assert (m1 = m) by congruence. subst m1.
    destruct (He n Hn) as (e0 & hs & Ed & _ & F).
    rewrite Hev, (Hlog0 _ _ Hm0), Ed. cbn [app List.length].
    rewrite (Forall2_length F).
    pose proof (others_length n _ Hnd Hn) as Ho. unfold N. cbn in Ho |- *.
    lia. }
  assert (Htotal : sum_total_events (summary (self st')) = N * N).
  { cbn [summary sum_total_events]. rewrite total_events_sum.
    rewrite (sum_all_equal _ _ _ N).
    - unfold N. rewrite <- A5. unfold PyDict.keys. now rewrite length_map.
    - intros [n m] Hin. cbn [snd]. apply (Hlen n).
      apply In_get_NoDup; [now rewrite A5 | exact Hin]. }
  split; [exact Hlen | split; [exact Htotal|]].
  cbn [summary sum_handshake_count]. rewrite A4, Hh0. cbn [app].
  rewrite <- (length_map (fun h => (hs_agent_a h, hs_agent_b h))), Hh.
  pose proof (pairs_length (PyDict.keys (_agents s))) as Hl.
  change (2 * List.length (pairs (PyDict.keys (_agents s))) = N * (N - 1))
    in Hl.
  change (List.length (pairs (PyDict.keys (_agents s))) = N * (N - 1) / 2).
  rewrite <- Hl, Nat.mul_comm. symmetry. apply Nat.div_mul. discriminate.
Qed.

Lemma start_summary_witness :
  exists st',
    AgentSession_start (Toy.constructed Toy.defs_abc) = (Ok tt, st')
    /\ sum_total_events (summary (self st')) = 9
    /\ sum_handshake_count (summary (self st')) = 3.
Proof.
  destruct (start_summary Toy.defs_abc Toy.env0
              (env (Toy.constructed Toy.defs_abc))
              (self (Toy.constructed Toy.defs_abc)))
    as (st' & E & _ & Ht & Hh).
  - vm_compute. reflexivity.
  - exists st'. split; [exact E | split; [exact Ht | exact Hh]].
Defined.

(** X15. [end] on a started session (constructed, then driven by any calls)
    with [N] registered agents returns the summary of the session after it:
    [total_events] is the total before the call plus [N], the handshake
    count is unchanged, and every agent's log has gained exactly one event,
    a [session_end] event whose [total_events] field is the total before
    the call and whose [duration_seconds] is the whole-second clock reading
    minus [started_at].  The collaborator [stamp_event] is taken to record
    the payload it is handed. *)
Theorem end_summary {C : Collaborators}
    (Hpayload : stamp_event_keeps_payload) (st : State) :
  reachable st ->
  started (self st) = true ->
  exists sm st' t0,
    AgentSession_end st = (Ok sm, st')
    /\ sm = summary (self st')
    /\ started_at (self st) = Some t0
    /\ sum_total_events sm
       = sum_total_events (summary (self st))
         + List.length (_agents (self st))
    /\ sum_handshake_count sm = sum_handshake_count (summary (self st))
    /\ forall n m, PyDict.get n (_agents (self st)) = Some m ->
         exists m' e,
           PyDict.get n (_agents (self st')) = Some m'
           /\ _events m' = _events m ++ [e]
           /\ field "event_type" e = Some (VStr "session_end")
           /\ field "total_events" e
              = Some (VInt (Z.of_nat (sum_total_events (summary (self st)))))
           /\ field "duration_seconds" e
              = Some (VInt (int_of_float (time_time (tick (env st))) - t0)).
Proof.
  intros Hr Hs. destruct (reachable_wf st Hr) as (_ & Hnd & Hat).
  destruct (started_at (self st)) as [t0|] eqn:Ht; [|now destruct (Hat Hs)].
  destruct (end_spec_full st t0 Hs Ht) as (st' & ds & E & F & A).
  cbn zeta in F. exists (summary (self st')), st', t0.
  split; [exact E | split; [reflexivity | split; [reflexivity|]]].
  pose proof A as (_ & _ & _ & A4 & A5 & A6).
  assert (Hone : forall n m, PyDict.get n (_agents (self st)) = Some m ->
            exists m' e,
              PyDict.get n (_agents (self st')) = Some m'
              /\ _events m' = _events m ++ [e]
              /\ exists k sk id prev,
                   e = stamp_event k sk id
                         (full_payload_of "session_end"
                            [("session_id", VStr (session_id (self st)));
                             ("duration_seconds",
                               VInt (int_of_float
                                       (time_time (tick (env st))) - t0));
                             ("total_events",
                               VInt (Z.of_nat (total_events_of (self st))))]
                            (session_id (self st)) None None) prev).
  { intros n m Hm. destruct (A6 n m Hm) as (m' & Hm' & _ & Hev).
    assert (Hn : In n (PyDict.keys (_agents (self st))))
      by (now apply get_In, (in_map fst) in Hm).
    destruct (stamps_one_total _ _ _ n F Hnd Hn) as (e & Ee & Pe).
    exists m', e. rewrite Hev, Ee. now repeat split. }
  split; [|split].
  - cbn [summary sum_total_events]. rewrite !total_events_sum.
    apply (sum_Forall2_succ _ (fun kv => List.length (_events (snd kv)))).
    apply Forall2_impl
      with (R1 := fun kv kv' =>
                    fst kv' = fst kv
                    /\ List.length (_events (snd kv'))
                       = S (List.length (_events (snd kv)))).
    { intros a b [_ H]. exact H. }
    apply (registry_Forall2
             (fun m m' =>
                List.length (_events m') = S (List.length (_events m))));
      [exact Hnd | exact A5 |].
    intros n m Hm. destruct (Hone n m Hm) as (m' & e & Hm' & Hev & _).
    exists m'. split; [exact Hm'|]. rewrite Hev, length_app. simpl. lia.
  - cbn [summary sum_handshake_count]. rewrite A4.
    rewrite (stamps_one_handshakes _ _ _ F). now rewrite app_nil_r.
  - intros n m Hm.
    destruct (Hone n m Hm)
      as (m' & e & Hm' & Hev & (k & sk & id & prev & Ee)).
    exists m', e. split; [exact Hm' | split; [exact Hev|]].
    unfold field. rewrite Ee, !Hpayload. split; [now rewrite full_payload_get|].
    rewrite !unilateral_payload_get by (simpl; intuition discriminate).
    split; reflexivity.
Qed.

Lemma end_summary_witness :
  exists sm st',
    AgentSession_end ToyRun.started = (Ok sm, st')
    /\ sum_total_events sm
       = sum_total_events (summary (self ToyRun.started)) + 2.
Proof.
  destruct (end_summary ToyFacts.toy_keeps_payload ToyRun.started)
    as (sm & st' & t0 & E & _ & _ & Ht & _).
  - exists Toy.defs_ab, Toy.env0, ToyRun.session, ToyRun.world, [CallStart].
    split; [vm_compute; reflexivity | reflexivity].
  - vm_compute. reflexivity.
  - exists sm, st'. split; [exact E | exact Ht].
Defined.

(** X17. On a session constructed and then driven by any calls,
    [get_agent(name)] raises [KeyError] when the name is not registered and
    otherwise returns the member registered under that name, whose [name]
    field is that name; either way the state is unchanged. *)
Theorem get_agent_result {C : Collaborators} (st : State) (n : string) :
  reachable st ->
  (PyDict.mem n (_agents (self st)) = false ->
     get_agent n st = (Raise KeyError, st))
  /\ (forall r st', get_agent n st = (r, st') -> st' = st)
  /\ (forall m st', get_agent n st = (Ok m, st') ->
        PyDict.get n (_agents (self st)) = Some m /\ name m = n).
Proof.
  intros Hr. destruct (reachable_wf st Hr) as (Hn & _ & _).
  unfold get_agent.
  destruct (PyDict.mem n (_agents (self st))) eqn:Hm.
  - destruct (mem_get _ _ _ Hm) as [m Hg].
    rewrite (get_agent_ok n m st Hg).
    split; [discriminate|]. split.
    + now intros r st' [= _ <-].
    + intros m' st' [= <- _]. split; [exact Hg | now apply (Hn n)].
  - rewrite (get_agent_raise n st Hm).
    split; [reflexivity|]. split.
    + now intros r st' [= _ <-].
    + discriminate.
Qed.

Lemma get_agent_result_witness :
  get_agent "Z" ToyRun.state = (Raise KeyError, ToyRun.state).
Proof.
  apply (get_agent_result ToyRun.state "Z").
  - exists Toy.defs_ab, Toy.env0, ToyRun.session, ToyRun.world,
      Toy.calls_demo.
    split; [vm_compute; reflexivity | reflexivity].
  - vm_compute. reflexivity.
Defined.

(** ** Redacting twice *)

Section Redaction.
Context {C : Collaborators}.

Lemma redact_verbatim (l : list (string * Value)) (acc : Payload) :
  NoDup (PyDict.keys acc ++ PyDict.keys l) ->
  (forall k, In k (PyDict.keys l) -> verbatim_key k = true) ->
  fold_left redact_step l acc = acc ++ l.
Proof.
  revert acc. induction l as [|[k v] r IH]; intros acc Hnd Hv; simpl.
  - now rewrite app_nil_r.
  - assert (Hk : ~ In k (PyDict.keys acc)).
    { apply NoDup_remove_2 in Hnd. rewrite in_app_iff in Hnd. tauto. }
    unfold redact_step at 2. cbn [fst snd].
    unfold stored_key, stored_value.
    rewrite (Hv k) by (now left).
    rewrite (set_absent _ _ _ _ Hk), IH.
    + now rewrite <- app_assoc.
    + unfold PyDict.keys in *. rewrite map_app, <- app_assoc. exact Hnd.
    + intros k' Hk'. apply Hv. now right.
Qed.

Lemma redact_NoDup (l : list (string * Value)) (acc : Payload) :
  NoDup (PyDict.keys acc) ->
  NoDup (PyDict.keys (fold_left redact_step l acc)).
Proof.
  revert acc. induction l as [|kv l IH]; intros acc H; simpl; [exact H|].
  apply IH. now apply keys_set_NoDup.
Qed.

(** A payload of distinct keys that are all kept verbatim is its own
    redaction. *)
Lemma safe_payload_fixed (payload : Payload) :
  NoDup (PyDict.keys payload) ->
  (forall k, In k (PyDict.keys payload) -> verbatim_key k = true) ->
  safe_payload_of payload = payload.
Proof.
  intros Hnd Hv. rewrite safe_payload_of_fold.
  now apply (redact_verbatim payload PyDict.empty).
Qed.
End Redaction.

(** X18. A payload with pairwise distinct keys that all end in [_hash] or
    [_id] passes through the redaction of [stamp] unchanged: same fields,
    same values, same order. *)
Theorem prehashed_payload_unchanged {C : Collaborators} (payload : Payload) :
  NoDup (PyDict.keys payload) ->
  (forall k, In k (PyDict.keys payload) -> verbatim_key k = true) ->
  safe_payload_of payload = payload.
Proof. intros Hnd Hv. now apply safe_payload_fixed. Qed.

Lemma prehashed_payload_unchanged_witness :
  safe_payload_of [("order_id", VStr "X1"); ("price_hash", VStr "ab12")]
  = [("order_id", VStr "X1"); ("price_hash", VStr "ab12")].
Proof.
  apply prehashed_payload_unchanged.
  - repeat constructor; simpl; intuition discriminate.
  - intros k [<-|[<-|[]]]; reflexivity.
Defined.

(** X19. Redaction is idempotent: redacting an already redacted payload
    changes nothing, so a digest written by the redaction is never hashed
    again. *)
Theorem redaction_idempotent {C : Collaborators} (payload : Payload) :
  safe_payload_of (safe_payload_of payload) = safe_payload_of payload.
Proof.
  apply safe_payload_fixed.
  - rewrite safe_payload_of_fold. apply redact_NoDup. constructor.
  - apply safe_payload_keys.
Qed.

(** ** The records and announcements of [start] *)

Section StartFull.
Context {C : Collaborators}.
Variable sid : string.
Variable reg0 : PyDict.t AgentMember.
Hypothesis Hnd0 : NoDup (PyDict.keys reg0).

Lemma adds_back (d : Delta) (s s' : AgentSession) (n : string)
    (m' : AgentMember) :
  adds d s s' -> PyDict.get n (_agents s') = Some m' ->
  exists m, PyDict.get n (_agents s) = Some m /\ same_identity m m'.
Proof.
  intros (_&_&_&_&Hk&Hm) Hget.
  destruct (PyDict.get n (_agents s)) as [m|] eqn:E.
  - destruct (Hm n m E) as (m2 & H2 & Hi & _).
    assert (m2 = m') by congruence. subst m2. now exists m.
  - apply get_None_keys in E. rewrite <- Hk in E.
    apply get_In, (in_map fst) in Hget. contradiction.
Qed.

Lemma rooted_adds (d : Delta) (s s' : AgentSession) :
  adds d s s' -> rooted sid reg0 s -> rooted sid reg0 s'.
Proof.
  intros A (R1 & R2 & R3 & R4). pose proof A as (A1 & _ & _ & _ & A5 & _).
  split; [congruence|]. split; [congruence|].
  split; [now apply (adds_names_match _ _ _ A)|].
  intros n m' Hm'. destruct (adds_back _ _ _ _ _ A Hm') as (m & Hm & I).
  destruct (R4 n m Hm) as (m0 & Hm0 & I0). exists m0.
  split; [exact Hm0 | now apply (same_identity_trans _ m)].
Qed.

(** A rooted session lists the agent ids of the registry it is rooted
    in. *)
Lemma rooted_ids (s : AgentSession) :
  rooted sid reg0 s -> agent_ids (_agents s) = agent_ids reg0.
Proof.
  intros (_ & R2 & _ & R4).
  assert (F : Forall2
                (fun kv kv' =>
                   fst kv' = fst kv /\ agent_id (snd kv') = agent_id (snd kv))
                reg0 (_agents s)).
  { apply (registry_Forall2 (fun m m' => agent_id m' = agent_id m));
      [exact Hnd0 | exact R2 |].
    intros n m0 Hm0.
    assert (Hn : In n (PyDict.keys (_agents s))).
    { rewrite R2. now apply get_In, (in_map fst) in Hm0. }
    destruct (In_keys_get _ _ _ Hn) as [m Hm].
    destruct (R4 n m Hm) as (m1 & Hm1 & (_ & _ & _ & I)).
    assert (m1 = m0) by congruence. subst m1. now exists m. }
  unfold agent_ids, PyDict.values. rewrite !map_map.
  revert F. generalize (_agents s) as reg. generalize reg0 as reg'.
  clear. intros reg' reg F.
  induction F as [|kv kv' l l' [_ H] _ IH]; cbn [map]; [reflexivity|].
  rewrite H. f_equal. exact IH.
Qed.

Lemma rooted_payload (s : AgentSession) :
  rooted sid reg0 s ->
  session_start_payload s
  = start_payload sid (PyDict.keys reg0) (agent_ids reg0).
Proof.
  intros R. pose proof (rooted_ids s R) as Hids.
  destruct R as (R1 & R2 & _ & _).
  unfold session_start_payload, start_payload.
  rewrite R1, R2, <- Hids. unfold agent_ids. rewrite map_map.
  unfold PyDict.values. rewrite length_map.
  rewrite <- R2. unfold PyDict.keys. rewrite length_map. reflexivity.
Qed.

Lemma start_round_full (x : string) (st : State) :
  In x (PyDict.keys reg0) ->
  rooted sid reg0 (self st) ->
  exists st' d,
    (s <- get_self ;;
     call_member x (fun this =>
       AgentMember_stamp this "session_start" (session_start_payload s)
         (session_id s) None None) ;;
     ret tt) st = (Ok tt, st')
    /\ adds d (self st) (self st')
    /\ announces sid (PyDict.keys reg0) (agent_ids reg0) x d.
Proof.
  intros Hx R. pose proof (rooted_payload _ R) as Hpl.
  destruct R as (R1 & R2 & _ & _). rewrite <- R2 in Hx.
  destruct (In_keys_get _ _ _ Hx) as [m Hm].
  rewrite (bind_ok get_self _ st st (self st) eq_refl).
  destruct (stamp_member_adds x "session_start" (session_id (self st))
              (session_start_payload (self st)) None None m st Hm)
    as (st' & E & _ & A).
  rewrite (bind_ok _ _ _ _ _ E). eexists st', _.
  split; [reflexivity | split; [exact A|]].
  rewrite Hpl, R1. eexists _, _, _, _. reflexivity.
Qed.

Lemma handshake_round_full (p : string * string) (st : State) :
  In p (pairs (PyDict.keys reg0)) ->
  rooted sid reg0 (self st) ->
  exists st' d,
    (handshake <- _handshake_pair (fst p) (snd p) ;;
     append_handshake handshake) st = (Ok tt, st')
    /\ adds d (self st) (self st')
    /\ shakes_fully sid reg0 p d.
Proof.
  destruct p as [a b]. intros Hp (R1 & R2 & R3 & R4). apply pairs_In in Hp.
  rewrite <- R2 in Hp. destruct Hp as [Ha Hb].
  destruct (In_keys_get _ _ _ Ha) as [ma Hma].
  destruct (In_keys_get _ _ _ Hb) as [mb Hmb].
  destruct (handshake_pair_spec a b ma mb st Hma Hmb)
    as (h & ea & eb & st1 & E & N1 & N2 & I1 & I2 & S1 & H1 & H2 & P1 & P2
        & _ & _ & A).
  cbn [fst snd]. rewrite (bind_ok _ _ _ _ _ E).
  eexists _, _. split; [reflexivity|]. split.
  - apply adds_plus with (s2 := self st1); [exact A|].
    apply adds_append_handshake.
  - destruct (R4 a ma Hma) as (ma0 & Hma0 & (_ & _ & _ & Ia)).
    destruct (R4 b mb Hmb) as (mb0 & Hmb0 & (_ & _ & _ & Ib)).
    exists h, ea, eb, ma0, mb0. cbn [fst snd].
    rewrite (R3 _ _ Hma) in *. rewrite (R3 _ _ Hmb) in *.
    unfold names_peer.
    repeat split; try assumption; congruence.
Qed.

(** [start] on a session that is not started and is rooted in its own
    registry. *)
Lemma start_spec_full (st : State) :
  started (self st) = false ->
  session_id (self st) = sid ->
  _agents (self st) = reg0 ->
  names_match reg0 ->
  exists st' d1s d2s,
    AgentSession_start st = (Ok tt, st')
    /\ Forall2 (announces sid (PyDict.keys reg0) (agent_ids reg0))
         (PyDict.keys reg0) d1s
    /\ Forall2 (shakes_fully sid reg0) (pairs (PyDict.keys reg0)) d2s
    /\ adds (plus (total d1s) (total d2s))
         (mkAgentSession sid
            (Some (int_of_float (time_time (tick (env st))))) true reg0
            (_handshakes (self st)))
         (self st').
Proof.
  intros Hs Hsid Hreg Hn. unfold AgentSession_start.
  rewrite (bind_ok get_self _ st st (self st) eq_refl), Hs.
  rewrite (bind_ok time_now _ st _ _ eq_refl).
  match goal with
  | |- context [bind (put_self ?s) _ ?st1] =>
      rewrite (bind_ok (put_self s) _ st1 _ tt eq_refl)
  end.
  match goal with
  | |- context [bind (for_ _ _) _ ?x] => set (st2 := x)
  end.
  rewrite Hreg.
  assert (R2 : rooted sid reg0 (self st2)).
  { unfold st2, rooted. cbn [self session_id _agents]. rewrite Hreg.
    split; [exact Hsid | split; [reflexivity | split; [exact Hn|]]].
    intros n m Hm. exists m. split; [exact Hm | apply same_identity_refl]. }
  destruct (for_adds (announces sid (PyDict.keys reg0) (agent_ids reg0))
              (rooted sid reg0) (PyDict.keys reg0)
              (fun agent =>
                 s <- get_self ;;
                 call_member agent (fun this =>
                   AgentMember_stamp this "session_start"
                     (session_start_payload s) (session_id s) None None) ;;
                 ret tt))
    with (st := st2) as (st3 & d1s & E1 & F1 & A1).
  { intros d s s' A R. now apply (rooted_adds d s). }
  { intros x st0 Hx R. now apply start_round_full. }
  { exact R2. }
  rewrite (bind_ok _ _ _ _ _ E1).
  destruct (for_adds (shakes_fully sid reg0) (rooted sid reg0)
              (pairs (PyDict.keys reg0))
              (fun p =>
                 handshake <- _handshake_pair (fst p) (snd p) ;;
                 append_handshake handshake))
    with (st := st3) as (st4 & d2s & E2 & F2 & A2).
  { intros d s s' A R. now apply (rooted_adds d s). }
  { intros p st0 Hp R. now apply handshake_round_full. }
  { now apply (rooted_adds _ _ _ A1). }
  rewrite <- handshake_loops in E2.
  rewrite (bind_ok _ _ _ _ _ E2).
  eexists _, d1s, d2s. split; [reflexivity|].
  split; [exact F1|]. split; [exact F2|].
  pose proof (adds_plus _ _ _ _ _ A1 A2) as A.
  assert (Ht : started_at (self st4)
               = Some (int_of_float (time_time (tick (env st))))) by apply A.
  apply (adds_with_flags _ _ _
           (Some (int_of_float (time_time (tick (env st))))) true) in A.
  cbn [self]. rewrite Ht, <- Hsid, <- Hreg. exact A.
Qed.

(** Every record of the handshake rounds comes with its two events. *)
Lemma shakes_fully_records (ps : list (string * string)) (ds : list Delta)
    (h : HandshakeResult) :
  Forall2 (shakes_fully sid reg0) ps ds ->
  In h (new_handshakes (total ds)) ->
  exists ea eb ma mb,
    In ea (new_events (total ds) (hs_agent_a h))
    /\ In eb (new_events (total ds) (hs_agent_b h))
    /\ PyDict.get (hs_agent_a h) reg0 = Some ma
    /\ PyDict.get (hs_agent_b h) reg0 = Some mb
    /\ hs_agent_a_id h = agent_id ma /\ hs_agent_b_id h = agent_id mb
    /\ hs_session_id h = sid
    /\ hs_event_a_hash h = compute_event_hash ea
    /\ hs_event_b_hash h = compute_event_hash eb
    /\ names_peer ea (hs_agent_b h) /\ names_peer eb (hs_agent_a h).
Proof.
  induction 1 as [|[a b] d ps ds
                    (h0 & ea & eb & ma & mb & -> & Ga & Gb & Na & Nb & Ia
                     & Ib & Hsid & Ha & Hb & Pa & Pb) _ IH].
  - intros [].
  - cbn [fst snd] in *. cbn [total fold_right plus new_handshakes
                             new_events one_event one_handshake app].
    intros [<-|Hin].
    + exists ea, eb, ma, mb. rewrite Na, Nb, String.eqb_refl.
      split; [now left|]. split.
      { rewrite !in_app_iff. left. left. right.
        rewrite String.eqb_refl. now left. }
      repeat split; assumption.
    + destruct (IH Hin) as (ea' & eb' & ma' & mb' & H1 & H2 & Hrest).
      exists ea', eb', ma', mb'.
      split; [rewrite in_app_iff; now right|].
      split; [rewrite in_app_iff; now right | exact Hrest].
Qed.

Lemma announces_total (l : list string) (ds : list Delta) (n : string) :
  Forall2 (announces sid (PyDict.keys reg0) (agent_ids reg0)) l ds ->
  NoDup l -> In n l ->
  exists k sk id prev,
    new_events (total ds) n
    = [stamp_event k sk id
         (full_payload_of "session_start"
            (start_payload sid (PyDict.keys reg0) (agent_ids reg0)) sid
            None None) prev]
    /\ new_handshakes (total ds) = [].
Proof.
  intros F Hnd Hn.
  assert (F' : Forall2
                 (stamps_one (fun e =>
                    exists k sk id prev,
                      e = stamp_event k sk id
                            (full_payload_of "session_start"
                               (start_payload sid (PyDict.keys reg0)
                                  (agent_ids reg0)) sid None None) prev))
                 l ds).
  { apply Forall2_impl with (2 := F).
    intros x d (k & sk & id & prev & ->).
    eexists. split; [reflexivity|]. now exists k, sk, id, prev. }
  destruct (stamps_one_total _ _ _ n F' Hnd Hn)
    as (e & Ee & (k & sk & id & prev & ->)).
  exists k, sk, id, prev. split; [exact Ee|].
  apply (stamps_one_handshakes _ _ _ F').
Qed.
End StartFull.


(** X20. [start] on a session as constructed returns, and every handshake
    record it leaves in the session is backed by the logs: it carries the
    session's id and the agent ids of the two agents it names, and its two
    event hashes are the hashes of an event in the first agent's log that
    names the second agent as peer, and of an event in the second agent's
    log that names the first. *)
Theorem handshake_records {C : Collaborators}
    (agents : list AgentDef) (w w' : Env) (s : AgentSession) :
  AgentSession_init agents w = (Ok s, w') ->
  exists st',
    AgentSession_start (mkState s w') = (Ok tt, st')
    /\ forall h, In h (_handshakes (self st')) ->
         exists ma mb ea eb,
           PyDict.get (hs_agent_a h) (_agents (self st')) = Some ma
           /\ PyDict.get (hs_agent_b h) (_agents (self st')) = Some mb
           /\ hs_session_id h = session_id (self st')
           /\ hs_agent_a_id h = agent_id ma
           /\ hs_agent_b_id h = agent_id mb
           /\ In ea (_events ma) /\ In eb (_events mb)
           /\ hs_event_a_hash h = compute_event_hash ea
           /\ hs_event_b_hash h = compute_event_hash eb
           /\ names_peer ea (hs_agent_b h)
           /\ names_peer eb (hs_agent_a h).
Proof.
  intros Hinit.
  pose proof (init_wf _ _ _ _ Hinit) as (Hn & Hnd & _).
  assert (Hs0 : started s = false /\ _handshakes s = []).
  { destruct (init_inv _ _ _ _ Hinit) as (reg & Ereg & -> & _ & _). now split. }
  destruct Hs0 as (Hs & Hh0).
  destruct (start_spec_full (session_id s) (_agents s) Hnd (mkState s w')
              Hs eq_refl eq_refl Hn)
    as (st' & d1s & d2s & E & F1 & F2 & A).
  exists st'. split; [exact E|].
  destruct A as (A1 & _ & _ & A4 & _ & A6).
  cbn [self session_id _agents _handshakes plus new_handshakes new_events]
    in A1, A4, A6.
  assert (H1 : new_handshakes (total d1s) = []).
  { clear - F1. induction F1 as [|x d l ds (k & sk & id & prev & ->) _ IH];
      [reflexivity | exact IH]. }
  rewrite Hh0, H1 in A4. cbn [app] in A4. rewrite A4.
  intros h Hh.
  destruct (shakes_fully_records _ _ _ _ h F2 Hh)
    as (ea & eb & ma & mb & Ia & Ib & Ga & Gb & Ida & Idb & Hsid & Ha & Hb
        & Pa & Pb).
  destruct (A6 _ _ Ga) as (ma' & Ga' & (_ & _ & _ & Ja) & Ea).
  destruct (A6 _ _ Gb) as (mb' & Gb' & (_ & _ & _ & Jb) & Eb).
  exists ma', mb', ea, eb.
  split; [exact Ga'|]. split; [exact Gb'|].
  split; [congruence|]. split; [congruence|]. split; [congruence|].
  split; [rewrite Ea, !in_app_iff; now right; right|].
  split; [rewrite Eb, !in_app_iff; now right; right|].
  repeat split; assumption.
Qed.

Lemma handshake_records_witness :
  exists st',
    AgentSession_start (Toy.constructed Toy.defs_abc) = (Ok tt, st')
    /\ forall h, In h (_handshakes (self st')) ->
         exists ma mb ea eb,
           PyDict.get (hs_agent_a h) (_agents (self st')) = Some ma
           /\ PyDict.get (hs_agent_b h) (_agents (self st')) = Some mb
           /\ hs_session_id h = session_id (self st')
           /\ hs_agent_a_id h = agent_id ma
           /\ hs_agent_b_id h = agent_id mb
           /\ In ea (_events ma) /\ In eb (_events mb)
           /\ hs_event_a_hash h = compute_event_hash ea
           /\ hs_event_b_hash h = compute_event_hash eb
           /\ names_peer ea (hs_agent_b h)
           /\ names_peer eb (hs_agent_a h).
Proof.
  apply (handshake_records Toy.defs_abc Toy.env0
           (env (Toy.constructed Toy.defs_abc))
           (self (Toy.constructed Toy.defs_abc))).
  vm_compute. reflexivity.
Defined.

(** X21. [start] on a session as constructed returns, and the first event
    of every agent's log is then the [session_start] event: its payload
    carries the session's id, under [participants] the agent ids of all
    registered agents and under [participant_names] their names, both in
    registration order, and under [agent_count] their number.  The
    collaborator [stamp_event] is taken to record the payload it is
    handed. *)
Theorem session_start_announcement {C : Collaborators}
    (Hpayload : stamp_event_keeps_payload)
    (agents : list AgentDef) (w w' : Env) (s : AgentSession) :
  AgentSession_init agents w = (Ok s, w') ->
  exists st',
    AgentSession_start (mkState s w') = (Ok tt, st')
    /\ forall n, In n (PyDict.keys (_agents s)) ->
         exists m e rest,
           PyDict.get n (_agents (self st')) = Some m
           /\ _events m = e :: rest
           /\ field "event_type" e = Some (VStr "session_start")
           /\ field "session_id" e = Some (VStr (session_id s))
           /\ field "participants" e
              = Some (VList (map VStr (agent_ids (_agents s))))
           /\ field "participant_names" e
              = Some (VList (map VStr (PyDict.keys (_agents s))))
           /\ field "agent_count" e
              = Some (VInt (Z.of_nat (List.length (_agents s)))).
Proof.
  intros Hinit.
  pose proof (init_wf _ _ _ _ Hinit) as (Hn & Hnd & _).
  assert (Hs0 : started s = false
                /\ forall n m, PyDict.get n (_agents s) = Some m ->
                     _events m = []).
  { destruct (init_inv _ _ _ _ Hinit) as (reg & Ereg & -> & _ & _). cbn. split; [reflexivity|].
    intros n m H. now apply (register_fresh _ _ _ Ereg) in H;
      [|intros ? ? [=]]. }
  destruct Hs0 as (Hs & Hlog0).
  destruct (start_spec_full (session_id s) (_agents s) Hnd (mkState s w')
              Hs eq_refl eq_refl Hn)
    as (st' & d1s & d2s & E & F1 & F2 & A).
  exists st'. split; [exact E|].
  destruct A as (_ & _ & _ & _ & _ & A6).
  cbn [self _agents plus new_events] in A6.
  intros n Hin.
  destruct (In_keys_get _ _ _ Hin) as [m0 Hm0].
  destruct (A6 _ _ Hm0) as (m & Hm & _ & Ev).
  destruct (announces_total _ _ _ d1s n F1 Hnd Hin)
    as (k & sk & id & prev & E1 & _).
  rewrite (Hlog0 _ _ Hm0), E1 in Ev. cbn [app] in Ev.
  eexists m, _, _. split; [exact Hm|]. split; [exact Ev|].
  unfold field. rewrite Hpayload.
  split; [now rewrite full_payload_get|].
  split; [now rewrite full_payload_get|].
  rewrite !full_payload_get_other by (simpl; intuition discriminate).
  unfold start_payload, PyDict.keys. rewrite length_map.
  repeat split.
Qed.

Lemma session_start_announcement_witness :
  exists st',
    AgentSession_start (Toy.constructed Toy.defs_abc) = (Ok tt, st')
    /\ forall n, In n ["A"; "B"; "C"] ->
         exists m e rest,
           PyDict.get n (_agents (self st')) = Some m
           /\ _events m = e :: rest
           /\ field "event_type" e = Some (VStr "session_start")
           /\ field "session_id" e
              = Some (VStr (session_id
                              (self (Toy.constructed Toy.defs_abc))))
           /\ field "participants" e
              = Some (VList (map VStr
                               (agent_ids
                                  (_agents
                                     (self (Toy.constructed Toy.defs_abc))))))
           /\ field "participant_names" e
              = Some (VList (map VStr ["A"; "B"; "C"]))
           /\ field "agent_count" e = Some (VInt 3).
Proof.
  apply (session_start_announcement ToyFacts.toy_keeps_payload Toy.defs_abc
           Toy.env0 (env (Toy.constructed Toy.defs_abc))
           (self (Toy.constructed Toy.defs_abc))).
  vm_compute. reflexivity.
Defined.
